(** * Syllabus-to-calendar: the parse route and the calendar serializer

    A shallow embedding of the parse route (line filter, title extractor,
    per-line event resolver, de-duplication) and of the calendar export
    [src/lib/ics.ts], with the properties of the specification stated and
    settled against it; then the calendar route with its file-name
    sanitizer, and the date helpers and the all-day switch of the page
    [src/app/page.tsx].  The parse route stands in the source file
    [src/app/api/ics/route.ts] from its line 58 on; the line numbers quoted
    below are those of that file.

    What the JavaScript runtime and the two libraries the code imports
    (chrono-node, date-fns) provide is modelled separately from the
    repository's own functions:
    - strings are sequences of UTF-16 code units ([list N]);
    - numbers are NaN, the two infinities and the integers (years, minutes
      and epoch milliseconds are integral; fractions are outside the model);
    - regular expressions are an abstract syntax with a backtracking matcher
      that follows the ECMAScript matching rules (greedy quantifiers, ordered
      alternatives, [^], [\b], the [i] flag on ASCII letters);
    - a [Date] is its time value; the calendar arithmetic is ECMAScript's;
    - exceptions are a completion type [Ok | Throw];
    - the date extraction (chrono-node), the clock, the time zone and the
      string-to-number conversion are fields of a [Runtime] record. *)

From Stdlib Require Import String Ascii.
From Stdlib Require Import ZArith NArith List Bool Lia.
Import ListNotations.
Local Open Scope Z_scope.

(** ** Strings, numbers, values, completions *)

Module JS.

(** A string is a sequence of UTF-16 code units. *)
Definition jstring := list N.

(** A literal of ASCII characters as code units. *)
Fixpoint u (s : string) : jstring :=
  match s with
  | EmptyString => []
  | String c s' => N_of_ascii c :: u s'
  end.

Fixpoint jstring_eqb (a b : jstring) : bool :=
  match a, b with
  | [], [] => true
  | x :: a', y :: b' => N.eqb x y && jstring_eqb a' b'
  | _, _ => false
  end.

Definition between (lo hi c : N) : bool := (N.leb lo c && N.leb c hi)%N.

(** WhiteSpace and LineTerminator code points: what [trim] strips and what
    [\s] matches. *)
Definition is_space (c : N) : bool :=
  (between 9 13 c || N.eqb c 32 || N.eqb c 160 || N.eqb c 5760
   || between 8192 8202 c || N.eqb c 8232 || N.eqb c 8233 || N.eqb c 8239
   || N.eqb c 8287 || N.eqb c 12288 || N.eqb c 65279)%N.

Definition is_digit (c : N) : bool := between 48 57 c.
Definition is_upper (c : N) : bool := between 65 90 c.
Definition is_lower (c : N) : bool := between 97 122 c.
(** [\w]: ASCII letters, digits and underscore. *)
Definition is_word (c : N) : bool :=
  is_upper c || is_lower c || is_digit c || N.eqb c 95.

Definition ascii_lower (c : N) : N := if is_upper c then (c + 32)%N else c.
Definition ascii_upper (c : N) : N := if is_lower c then (c - 32)%N else c.

(** [String.prototype.toLowerCase].  The ASCII capitals go to their small
    letters; U+212A (the Kelvin sign) goes to the ASCII letter k, and U+0130
    (capital I with dot) to i followed by U+0307: these two are the only code
    units outside ASCII whose lower case holds an ASCII character.  Every
    other case pair of Unicode relates code units outside ASCII that are no
    white space, one code unit to one code unit; such code units are left as
    they are, and [isDatey], the one caller, can not tell them apart
    ([isDatey_case_blind] below). *)
Definition lower_unit (c : N) : jstring :=
  if N.eqb c 304 then [105; 775]%N
  else if N.eqb c 8490 then [107]%N
  else [ascii_lower c].

Definition toLowerCase (s : jstring) : jstring := flat_map lower_unit s.

Fixpoint trimStart (s : jstring) : jstring :=
  match s with
  | c :: s' => if is_space c then trimStart s' else s
  | [] => []
  end.

Definition trimEnd (s : jstring) : jstring := rev (trimStart (rev s)).

(** A string that does not start with white space. *)
Definition clean_head (l : jstring) : Prop :=
  match l with [] => True | c :: _ => is_space c = false end.

(** [String.prototype.trim]. *)
Definition trim (s : jstring) : jstring := trimEnd (trimStart s).

Fixpoint startsWith (p s : jstring) : bool :=
  match p, s with
  | [], _ => true
  | x :: p', y :: s' => N.eqb x y && startsWith p' s'
  | _ :: _, [] => false
  end.

(** [String.prototype.includes]. *)
Fixpoint includes (s h : jstring) : bool :=
  startsWith h s ||
  match s with
  | [] => false
  | _ :: s' => includes s' h
  end.

(** [Array.prototype.join]. *)
Fixpoint join (sep : jstring) (l : list jstring) : jstring :=
  match l with
  | [] => []
  | [x] => x
  | x :: l' => x ++ sep ++ join sep l'
  end.

(** [String.prototype.padStart(n, "0")]. *)
Definition padStart0 (n : nat) (s : jstring) : jstring :=
  repeat 48%N (n - length s) ++ s.

(** Number values: NaN, the infinities, and the integers. *)
Inductive number := NaN | Fin (z : Z) | PInf | NInf.

Definition nadd (a b : number) : number :=
  match a, b with
  | NaN, _ | _, NaN => NaN
  | Fin x, Fin y => Fin (x + y)
  | PInf, NInf | NInf, PInf => NaN
  | PInf, _ | _, PInf => PInf
  | NInf, _ | _, NInf => NInf
  end.

Definition nmul (a b : number) : number :=
  match a, b with
  | NaN, _ | _, NaN => NaN
  | Fin x, Fin y => Fin (x * y)
  | Fin x, PInf | PInf, Fin x =>
      if x =? 0 then NaN else if 0 <? x then PInf else NInf
  | Fin x, NInf | NInf, Fin x =>
      if x =? 0 then NaN else if 0 <? x then NInf else PInf
  | PInf, PInf | NInf, NInf => PInf
  | PInf, NInf | NInf, PInf => NInf
  end.

(** Decimal digits of a natural number, most significant first. *)
Fixpoint digits_fuel (fuel : nat) (n : N) (acc : jstring) : jstring :=
  match fuel with
  | O => acc
  | S f =>
      let acc' := (48 + n mod 10)%N :: acc in
      if (n <? 10)%N then acc' else digits_fuel f (n / 10)%N acc'
  end.

Definition digits (n : N) : jstring := digits_fuel (S (N.to_nat (N.log2 n))) n [].

(** Number-to-string conversion (integers print in plain decimal, which is
    what the runtime does below 10^21). *)
Definition NumberToString (n : number) : jstring :=
  match n with
  | NaN => u "NaN"
  | PInf => u "Infinity"
  | NInf => u "-Infinity"
  | Fin z => if z <? 0 then 45%N :: digits (Z.to_N (- z)) else digits (Z.to_N z)
  end.

(** The JSON-borne values a request field can hold.  An object or array is
    represented by the string its [toString] yields. *)
Inductive value :=
| VUndefined
| VNull
| VBool (b : bool)
| VNumber (n : number)
| VString (s : jstring)
| VObject (str : jstring).

(** ToBoolean. *)
Definition truthy (v : value) : bool :=
  match v with
  | VUndefined | VNull => false
  | VBool b => b
  | VNumber (Fin z) => negb (z =? 0)
  | VNumber NaN => false
  | VNumber _ => true
  | VString s => match s with [] => false | _ => true end
  | VObject _ => true
  end.

(** [String(v)] and template-literal interpolation. *)
Definition ToString (v : value) : jstring :=
  match v with
  | VUndefined => u "undefined"
  | VNull => u "null"
  | VBool true => u "true"
  | VBool false => u "false"
  | VNumber n => NumberToString n
  | VString s => s
  | VObject s => s
  end.

(** [Number(v)], given the runtime's string-to-number conversion. *)
Definition ToNumber (StringToNumber : jstring -> number) (v : value) : number :=
  match v with
  | VUndefined => NaN
  | VNull => Fin 0
  | VBool true => Fin 1
  | VBool false => Fin 0
  | VNumber n => n
  | VString s => StringToNumber s
  | VObject s => StringToNumber s
  end.

(** [a ?? b] on an optional value. *)
Definition nullish {A} (o : option A) (d : A) : A :=
  match o with Some x => x | None => d end.

(** A destructuring default applies to an [undefined] property only. *)
Definition withDefault (v d : value) : value :=
  match v with VUndefined => d | _ => v end.

(** Completions: a value, or an exception thrown. *)
Inductive completion (A : Type) := Ok (a : A) | Throw.
Arguments Ok {A} a.
Arguments Throw {A}.

Definition bind {A B} (c : completion A) (k : A -> completion B) : completion B :=
  match c with
  | Ok a => k a
  | Throw => Throw
  end.

End JS.

Import JS.

Notation "x <- c ;; k" := (bind c (fun x => k))
  (at level 61, c at next level, right associativity).

(** ** Regular expressions *)

Module Regex.

Inductive atom :=
| Lit (c : N)                       (* a literal character *)
| Cls (ranges : list (N * N))       (* a class [...] of ranges *)
| Digit                             (* \d *)
| Word                              (* \w *)
| Space.                            (* \s *)

Inductive re :=
| Eps
| At (a : atom)
| Seq (a b : re)
| Alt (a b : re)
| Rep (min : nat) (max : option nat) (a : re)  (* greedy {min,max} *)
| Bol                                           (* ^ *)
| WordB.                                        (* \b *)

(** Matching one code unit; [ic] is the [i] flag.  The patterns here hold
    ASCII letters only, for which the canonicalisation of the [i] flag is
    ASCII case folding (no code unit above 127 canonicalises into ASCII). *)
Definition in_range (ic : bool) (c : N) (r : N * N) : bool :=
  between (fst r) (snd r) c
  || (ic && (between (fst r) (snd r) (ascii_lower c)
             || between (fst r) (snd r) (ascii_upper c))).

Definition atom_match (ic : bool) (a : atom) (c : N) : bool :=
  match a with
  | Lit x => in_range ic c (x, x)
  | Cls rs => existsb (in_range ic c) rs
  | Digit => is_digit c
  | Word => is_word c
  | Space => is_space c
  end.

Definition opt_word (o : option N) : bool :=
  match o with Some c => is_word c | None => false end.

Definition dec_max (mx : option nat) : option nat :=
  match mx with Some n => Some (pred n) | None => None end.

Definition max_is_zero (mx : option nat) : bool :=
  match mx with Some O => true | _ => false end.

(** The state of a match: the code unit before the current position (if
    any) and the input that remains. *)
Definition mstate : Type := option N * jstring.

(** A matcher takes the state and a continuation (the rest of the pattern). *)
Definition matcher : Type :=
  option N -> jstring -> (option N -> jstring -> option mstate) -> option mstate.

(** The quantifier [{mn,mx}] over the matcher [ma], greedy: one more
    iteration is tried before the continuation, and an iteration that is not
    required and consumes nothing is rejected.  [fuel] bounds the number of
    iterations. *)
Fixpoint rep_loop (ma : matcher) (k : option N -> jstring -> option mstate)
         (fuel : nat) (mn : nat) (mx : option nat) (prev : option N)
         (s : jstring) {struct fuel} : option mstate :=
  match fuel with
  | O => None
  | S fuel' =>
      if max_is_zero mx then k prev s
      else
        let more :=
          ma prev s
             (fun p' s' =>
                if Nat.eqb mn 0 && Nat.eqb (length s') (length s)
                then None
                else rep_loop ma k fuel' (pred mn) (dec_max mx) p' s') in
        if Nat.eqb mn 0
        then match more with
             | Some res => Some res
             | None => k prev s
             end
        else more
  end.

(** The matcher of a pattern, in continuation-passing style.  A quantifier
    runs at most [mn] required iterations and one iteration per remaining
    code unit, which is the fuel it is given. *)
Fixpoint m (ic : bool) (r : re) : matcher :=
  fun prev s k =>
  match r with
  | Eps => k prev s
  | At a =>
      match s with
      | c :: s' => if atom_match ic a c then k (Some c) s' else None
      | [] => None
      end
  | Seq a b => m ic a prev s (fun p' s' => m ic b p' s' k)
  | Alt a b =>
      match m ic a prev s k with
      | Some res => Some res
      | None => m ic b prev s k
      end
  | Rep mn mx a => rep_loop (m ic a) k (S (length s + mn)) mn mx prev s
  | Bol => match prev with None => k prev s | Some _ => None end
  | WordB =>
      let b := match s with c :: _ => is_word c | [] => false end in
      if xorb (opt_word prev) b then k prev s else None
  end.

(** A match attempt at the current position: the state after the match. *)
Definition exec_at (ic : bool) (r : re) (prev : option N) (s : jstring)
  : option mstate :=
  m ic r prev s (fun p' s' => Some (p', s')).

(** The leftmost match: the input before it (reversed), and the state after
    it. *)
Fixpoint search (ic : bool) (r : re) (prev : option N) (before : jstring)
         (s : jstring) : option (jstring * mstate) :=
  match exec_at ic r prev s with
  | Some res => Some (before, res)
  | None =>
      match s with
      | [] => None
      | c :: s' => search ic r (Some c) (c :: before) s'
      end
  end.

(** [RegExp.prototype.test]. *)
Definition test (ic : bool) (r : re) (s : jstring) : bool :=
  match search ic r None [] s with Some _ => true | None => false end.

(** [String.prototype.replace(re, "")] without the [g] flag: the first
    match is removed. *)
Definition remove_first (ic : bool) (r : re) (s : jstring) : jstring :=
  match search ic r None [] s with
  | Some (before, (_, rest)) => rev before ++ rest
  | None => s
  end.

(** [String.prototype.split(re)] for a pattern without capture groups:
    a match is tried at each position [q] before the end; a match that ends
    where the current piece starts is skipped. [acc] is the current piece,
    reversed. *)
Fixpoint split_loop (fuel : nat) (ic : bool) (r : re) (prev : option N)
         (acc : jstring) (s : jstring) : list jstring :=
  match fuel with
  | O => [rev acc ++ s]
  | S fuel' =>
      match s with
      | [] => [rev acc]
      | c :: s' =>
          match exec_at ic r prev s with
          | Some (p', rest) =>
              if Nat.eqb (length rest) (length s) && Nat.eqb (length acc) 0
              then split_loop fuel' ic r (Some c) (c :: acc) s'
              else rev acc :: split_loop fuel' ic r p' [] rest
          | None => split_loop fuel' ic r (Some c) (c :: acc) s'
          end
      end
  end.

Definition split (ic : bool) (r : re) (s : jstring) : list jstring :=
  match s with
  | [] => match exec_at ic r None [] with Some _ => [] | None => [[]] end
  | _ => split_loop (2 * length s + 2) ic r None [] s
  end.

(** Pattern-building shorthands. *)
Fixpoint seqs (l : list re) : re :=
  match l with
  | [] => Eps
  | [x] => x
  | x :: l' => Seq x (seqs l')
  end.

Fixpoint str_re (s : jstring) : re :=
  match s with
  | [] => Eps
  | [c] => At (Lit c)
  | c :: s' => Seq (At (Lit c)) (str_re s')
  end.

Definition lit (s : string) : re := str_re (u s).

Fixpoint alts (l : list re) : re :=
  match l with
  | [] => Eps
  | [x] => x
  | x :: l' => Alt x (alts l')
  end.

Definition words (l : list string) : re := alts (map lit l).

Definition opt (r : re) : re := Rep 0 (Some 1%nat) r.
Definition star (r : re) : re := Rep 0 None r.
Definition plus (r : re) : re := Rep 1 None r.
Definition rep (a b : nat) (r : re) : re := Rep a (Some b) r.
Definition d12 : re := rep 1 2 (At Digit).       (* \d{1,2} *)

End Regex.

Import Regex.

(** ** Dates: the ECMAScript time arithmetic and the date-fns helpers *)

Module Time.

Definition msPerDay : Z := 86400000.
Definition Day (t : Z) : Z := t / msPerDay.
Definition TimeWithinDay (t : Z) : Z := t mod msPerDay.

(** Day number of the civil date [y]-[m]-[d] ([m] from 1), counted from
    1970-01-01, in the proleptic Gregorian calendar. *)
Definition days_from_civil (y m d : Z) : Z :=
  let y' := if m <=? 2 then y - 1 else y in
  let era := y' / 400 in
  let yoe := y' - era * 400 in
  let doy := (153 * (if 2 <? m then m - 3 else m + 9) + 2) / 5 + d - 1 in
  let doe := yoe * 365 + yoe / 4 - yoe / 100 + doy in
  era * 146097 + doe - 719468.

(** The civil date (year, month from 1, day) of a day number. *)
Definition civil_from_days (z : Z) : Z * Z * Z :=
  let z' := z + 719468 in
  let era := z' / 146097 in
  let doe := z' - era * 146097 in
  let yoe := (doe - doe / 1460 + doe / 36524 - doe / 146096) / 365 in
  let doy := doe - (365 * yoe + yoe / 4 - yoe / 100) in
  let mp := (5 * doy + 2) / 153 in
  let d := doy - (153 * mp + 2) / 5 + 1 in
  let m := if mp <? 10 then mp + 3 else mp - 9 in
  ((if m <=? 2 then yoe + era * 400 + 1 else yoe + era * 400), m, d).

Definition YearFromTime (t : Z) : Z := fst (fst (civil_from_days (Day t))).
Definition MonthFromTime (t : Z) : Z := snd (fst (civil_from_days (Day t))) - 1.
Definition DateFromTime (t : Z) : Z := snd (civil_from_days (Day t)).
Definition HourFromTime (t : Z) : Z := (t / 3600000) mod 24.
Definition MinFromTime (t : Z) : Z := (t / 60000) mod 60.
Definition SecFromTime (t : Z) : Z := (t / 1000) mod 60.
Definition msFromTime (t : Z) : Z := t mod 1000.

Definition MakeTime (h mi s ms : Z) : Z := h * 3600000 + mi * 60000 + s * 1000 + ms.
Definition MakeDay (year month date : Z) : Z :=
  days_from_civil (year + month / 12) (month mod 12 + 1) 1 + date - 1.
Definition MakeDate (day time : Z) : Z := day * msPerDay + time.

(** A time value outside +-8.64e15 ms is not a time: NaN. *)
Definition TimeClip (t : Z) : option Z :=
  if Z.abs t <=? 8640000000000000 then Some t else None.

(** A Date object is its time value; [None] is NaN, the Invalid Date. *)
Record Date := mkDate { DateValue : option Z }.

Definition InvalidDate : Date := mkDate None.

(** [new Date(v)]. *)
Definition newDate (v : number) : Date :=
  match v with
  | Fin t => mkDate (TimeClip t)
  | _ => InvalidDate
  end.

(** [Date.prototype.getTime]. *)
Definition getTime (d : Date) : number :=
  match DateValue d with Some t => Fin t | None => NaN end.

(** date-fns [isValid], on a Date object. *)
Definition isValid (d : Date) : bool :=
  match DateValue d with Some _ => true | None => false end.

Definition pad_digits (n : nat) (z : Z) : jstring := padStart0 n (digits (Z.to_N z)).

(** [Date.prototype.toISOString]: UTC fields; a RangeError on an Invalid
    Date. *)
Definition toISOString (d : Date) : completion jstring :=
  match DateValue d with
  | None => Throw
  | Some t =>
      let y := YearFromTime t in
      let ys := if (0 <=? y) && (y <=? 9999) then pad_digits 4 y
                else (if y <? 0 then u "-" else u "+") ++ pad_digits 6 (Z.abs y) in
      Ok (ys ++ u "-" ++ pad_digits 2 (MonthFromTime t + 1)
             ++ u "-" ++ pad_digits 2 (DateFromTime t)
             ++ u "T" ++ pad_digits 2 (HourFromTime t)
             ++ u ":" ++ pad_digits 2 (MinFromTime t)
             ++ u ":" ++ pad_digits 2 (SecFromTime t)
             ++ u "." ++ pad_digits 3 (msFromTime t) ++ u "Z")
  end.

Section Local.
(** The local time zone adjustment: [LocalTZA t true] is the offset of
    local time at the UTC time [t], [LocalTZA t false] the offset at the
    local time [t]. *)
Variable LocalTZA : Z -> bool -> Z.

Definition LocalTime (t : Z) : Z := t + LocalTZA t true.
Definition UTC (t : Z) : Z := t - LocalTZA t false.

Definition localField (f : Z -> Z) (d : Date) : number :=
  match DateValue d with
  | Some t => Fin (f (LocalTime t))
  | None => NaN
  end.

Definition getFullYear : Date -> number := localField YearFromTime.
Definition getMonth : Date -> number := localField MonthFromTime.
Definition getDate : Date -> number := localField DateFromTime.
Definition getHours : Date -> number := localField HourFromTime.
Definition getMinutes : Date -> number := localField MinFromTime.

(** [new Date(year, month, date)]: local midnight; a year in 0..99 counts
    from 1900. *)
Definition newDateYMD (year month date : Z) : Date :=
  let yr := if (0 <=? year) && (year <=? 99) then 1900 + year else year in
  mkDate (TimeClip (UTC (MakeDate (MakeDay yr month date) 0))).

(** [Date.prototype.setFullYear(year)]: month, day and time of day are
    kept, in local time. *)
Definition setFullYear (d : Date) (year : Z) : Date :=
  let t := match DateValue d with Some t => LocalTime t | None => 0 end in
  let newDay := MakeDay year (MonthFromTime t) (DateFromTime t) in
  mkDate (TimeClip (UTC (MakeDate newDay (TimeWithinDay t)))).

(** [Date.prototype.setDate(dt)]. *)
Definition setDate (d : Date) (dt : number) : Date :=
  match DateValue d, dt with
  | Some t0, Fin n =>
      let t := LocalTime t0 in
      mkDate (TimeClip (UTC (MakeDate (MakeDay (YearFromTime t) (MonthFromTime t) n)
                                      (TimeWithinDay t))))
  | _, _ => InvalidDate
  end.

(** date-fns [addDays]: the same local time of day, [amount] days on. *)
Definition addDays (d : Date) (amount : Z) : Date :=
  if amount =? 0 then d
  else setDate d (nadd (getDate d) (Fin amount)).

End Local.

(** date-fns [addMinutes]. *)
Definition addMinutes (d : Date) (amount : Z) : Date :=
  newDate (nadd (getTime d) (Fin (amount * 60000))).

End Time.

Import Time.

(** ** The date extraction capability (chrono-node) *)

Module Chrono.

Inductive Component :=
| year | month | day | weekday | hour | minute | second | millisecond
| meridiem | timezoneOffset.

(** The components of one end of a span: which fields were explicit in the
    text ([isCertain]), and the instant they denote ([date()]). *)
Record ParsedComponents := {
  isCertain : Component -> bool;
  date : Date
}.

(** One candidate span: a start and, for a range, an end. *)
Record ParsedResult := {
  start : ParsedComponents;
  end_ : option ParsedComponents
}.

End Chrono.

(** What the code takes from its environment: the date extraction
    [chrono.parse(text, referenceDate, { forwardDate: true })], the time value
    of [new Date()], the time zone, and the conversion of strings to
    numbers. *)
Record Runtime := {
  chrono_parse : jstring -> Date -> completion (list Chrono.ParsedResult);
  now : Z;
  LocalTZA : Z -> bool -> Z;
  StringToNumber : jstring -> number
}.

(** ** The parse route *)

Module ParseRoute.
Import Chrono.

Record ParsedEventOut := {
  title : jstring;
  start_iso : jstring;            (* start: ISO string *)
  end_iso : option jstring;       (* end?: ISO string *)
  allDay : bool;
  sourceLine : jstring
}.

Definition HINTS : list jstring :=
  map u ["exam"; "quiz"; "midterm"; "final";
         "assignment"; "project"; "paper"; "hw";
         "reading"; "presentation"; "lab"; "report"]%string.

Definition months : re :=
  words ["jan"; "feb"; "mar"; "apr"; "may"; "jun"; "jul"; "aug"; "sep";
         "sept"; "oct"; "nov"; "dec"]%string.

Definition ampm : re := words ["am"; "pm"]%string.

(** [(:\d{2})?] *)
Definition colon_dd_opt : re := opt (Seq (lit ":") (rep 2 2 (At Digit))).

(** [/\b(due|deadline)\b/i] *)
Definition due_re : re := seqs [WordB; words ["due"; "deadline"]%string; WordB].

Definition nonempty (s : jstring) : bool :=
  match s with [] => false | _ => true end.

(** Keep only lines that look like they contain a real date or a strong
    event cue. *)
Definition isDatey (line : jstring) : bool :=
  let l := toLowerCase line in
  let hasSlashDate := test false (seqs [WordB; d12; lit "/"; d12; WordB]) l in
  let hasMonthName :=
    test true (seqs [months; star (At Word); plus (At Space); d12]) l in
  let hasDue := test true due_re l in
  let hasExamWord :=
    test true (seqs [WordB; words ["exam"; "quiz"; "midterm"; "final"]%string; WordB]) l in
  let hasOtherHint := existsb (fun h => includes l h) HINTS in
  let hasAnyNumber := test false (seqs [WordB; plus (At Digit); WordB]) l in
  hasSlashDate || hasMonthName || hasDue || hasExamWord
  || (hasOtherHint && hasAnyNumber).

(** [/\s[an en dash, an em dash or a hyphen]\s/] *)
Definition dash_re : re :=
  seqs [At Space; At (Cls [(8211, 8211); (8212, 8212); (45, 45)]%N); At Space].

Definition weekday_re : re :=
  seqs [Bol; star (At Space); WordB;
        words ["mon"; "tue"; "tues"; "wed"; "thu"; "thur"; "thurs"; "fri";
               "sat"; "sun"]%string;
        WordB; opt (lit "."); opt (lit ","); plus (At Space)].

Definition monthday_re : re :=
  seqs [Bol; months; star (At (Cls [(97, 122)]%N)); plus (At Space); d12;
        star (At Space)].

Definition slashdate_re : re :=
  seqs [Bol; d12; lit "/"; d12; star (At Space)].

Definition timerange_re : re :=
  seqs [Bol; d12; colon_dd_opt; opt (At Space); opt ampm; star (At Space);
        Alt (At (Lit 8211)) (lit "-"); star (At Space);
        d12; colon_dd_opt; opt (At Space); opt ampm; star (At Space)].

Definition singletime_re : re :=
  seqs [Bol; d12; colon_dd_opt; opt (At Space); ampm; star (At Space)].

(** Lines 100-121: the line without its leading weekday, month-name day,
    slash date, time range and single time, each removed at most once. *)
Definition stripLeading (line : jstring) : jstring :=
  let s := line in
  let s := remove_first true weekday_re s in
  let s := remove_first true monthday_re s in
  let s := remove_first false slashdate_re s in
  let s := remove_first true timerange_re s in
  let s := remove_first true singletime_re s in
  s.

(** The title of a line: the text after a spaced dash when there is one,
    otherwise the line without its leading weekday, date and time. *)
Definition extractTitle (line : jstring) : jstring :=
  let dashSplit := split false dash_re line in
  if (1 <? length dashSplit)%nat
  then trim (join (u " - ") (tl dashSplit))
  else
    let s := stripLeading line in
    if nonempty (trim s) then trim s else trim line.

(** [/(\b\d{1,2}:\d{2}\s?(am|pm)?\b)|(\b\d{1,2}\s?(am|pm)\b)/i] *)
Definition timetoken_re : re :=
  Alt (seqs [WordB; d12; lit ":"; rep 2 2 (At Digit); opt (At Space); opt ampm; WordB])
      (seqs [WordB; d12; opt (At Space); ampm; WordB]).

Definition isDeadline (line : jstring) : bool := test true due_re line.
Definition hasTimeToken (line : jstring) : bool := test true timetoken_re line.

(** [/\r?\n/] *)
Definition newline_re : re := Seq (opt (At (Lit 13))) (At (Lit 10)).

(** The request body after [req.json()]: a property that is absent is
    [VUndefined] (a body that is no object has no property at all). *)
Record Body := {
  text : value;
  fallbackYear : value;
  defaultDurationMinutes : value;
  defaultTime : value
}.

Definition emptyBody : Body :=
  {| text := VUndefined; fallbackYear := VUndefined;
     defaultDurationMinutes := VUndefined; defaultTime := VUndefined |}.

(** A request: its JSON body, or [None] when the body is not JSON. *)
Record Request := { json : option Body }.

(** [NextResponse.json(events, { status })] *)
Record Response := { status : Z; payload : list ParsedEventOut }.

(** [Number(defaultDurationMinutes) || 60] *)
Definition minutesOf (rt : Runtime) (dflt : value) : number :=
  let n := ToNumber (StringToNumber rt) dflt in
  if truthy (VNumber n) then n else Fin 60.

Definition hasEnd (r : ParsedResult) : bool :=
  match end_ r with Some _ => true | None => false end.

(** [hasTime], lines 185-186. *)
Definition hasTimeOf (line : jstring) (r : ParsedResult) : bool :=
  isCertain (start r) hour || isCertain (start r) minute || hasEnd r
  || hasTimeToken line.

Section Resolver.
Variable rt : Runtime.
Variable refYear : Z.
Variable referenceDate : Date.
Variables dfltMinutes dfltTime : value.

(** Lines 157-162: the parse attempt, and the second attempt with the
    default time appended. *)
Definition extract (line : jstring) : completion (list ParsedResult) :=
  results <- chrono_parse rt line referenceDate ;;
  if Nat.eqb (length results) 0 && isDeadline line
     && negb (hasTimeToken line) && truthy dfltTime
  then chrono_parse rt (line ++ u " " ++ ToString dfltTime) referenceDate
  else Ok results.

(** The range end, lines 176-182. *)
Definition rangeEnd (r : ParsedResult) : option Date :=
  match end_ r with
  | Some re =>
      let e := date re in
      let e := if negb (isCertain re year)
               then setFullYear (LocalTZA rt) e refYear else e in
      if negb (isValid e) then None else Some e
  | None => None
  end.

(** The start instant, lines 166-173: the extracted instant, with the
    fallback year forced when the year was not explicit. *)
Definition startInstant (r : ParsedResult) : Date :=
  if negb (isCertain (start r) year)
  then setFullYear (LocalTZA rt) (date (start r)) refYear
  else date (start r).

(** Lines 188-197: the end of the event. *)
Definition endInstant (line : jstring) (r : ParsedResult) : option Date :=
  let hasRange := hasEnd r in
  let hasTime := hasTimeOf line r in
  let end0 := rangeEnd r in
  let end1 := if negb hasRange && hasTime && isDeadline line
              then None else end0 in
  if negb hasRange && hasTime && negb (isDeadline line)
  then Some (newDate (nadd (getTime (startInstant r))
                (nmul (nmul (minutesOf rt dfltMinutes) (Fin 60)) (Fin 1000))))
  else end1.

(** Lines 165-208 for the first result [r] of a line: [None] is
    [continue]. *)
Definition resolve (line : jstring) (r : ParsedResult)
  : completion (option ParsedEventOut) :=
  if negb (isValid (date (start r))) then Ok None else
  if negb (isCertain (start r) month && isCertain (start r) day) then Ok None else
  let start1 := startInstant r in
  let end2 := endInstant line r in
  let allDay := negb (hasTimeOf line r) in
  let title := if nonempty (extractTitle line) then extractTitle line
               else u "Course Event" in
  startS <- toISOString start1 ;;
  endS <- match end2 with
          | Some e => (s <- toISOString e ;; Ok (Some s))
          | None => Ok None
          end ;;
  Ok (Some {| title := title; start_iso := startS; end_iso := endS;
              allDay := allDay; sourceLine := line |}).

(** The body of the [for] loop. *)
Definition processLine (line : jstring) : completion (option ParsedEventOut) :=
  results <- extract line ;;
  match results with
  | [] => Ok None
  | r :: _ => resolve line r
  end.

(** The [for] loop: [out] grows by [push]; an exception ends it. *)
Fixpoint loop (lines : list jstring) (out : list ParsedEventOut)
  : completion (list ParsedEventOut) :=
  match lines with
  | [] => Ok out
  | line :: rest =>
      o <- processLine line ;;
      loop rest (match o with Some e => out ++ [e] | None => out end)
  end.
End Resolver.

(** A [Map] keeps its keys in insertion order; [set] on a key that is
    present replaces the value where the key already stands. *)
Fixpoint Map_set {V} (k : jstring) (v : V) (m : list (jstring * V))
  : list (jstring * V) :=
  match m with
  | [] => [(k, v)]
  | (k', v') :: m' =>
      if jstring_eqb k' k then (k', v) :: m' else (k', v') :: Map_set k v m'
  end.

(** [new Map(entries)] *)
Definition Map_of {V} (entries : list (jstring * V)) : list (jstring * V) :=
  fold_left (fun m kv => Map_set (fst kv) (snd kv) m) entries [].

Definition Map_values {V} (m : list (jstring * V)) : list V := map snd m.

Definition keyOf (e : ParsedEventOut) : jstring :=
  title e ++ u "|" ++ start_iso e.

(** Lines 211-214. *)
Definition unique (out : list ParsedEventOut) : list ParsedEventOut :=
  Map_values (Map_of (map (fun e => (keyOf e, e)) out)).

Definition bodyOf (req : Request) : Body :=
  match json req with Some b => b | None => emptyBody end.

(** [defaultDurationMinutes = 60] and [defaultTime = "23:59"] of the
    destructuring. *)
Definition durationOf (req : Request) : value :=
  withDefault (defaultDurationMinutes (bodyOf req)) (VNumber (Fin 60)).
Definition timeOf (req : Request) : value :=
  withDefault (defaultTime (bodyOf req)) (VString (u "23:59")).

(** Lines 138-141. *)
Definition refYearOf (rt : Runtime) (req : Request) : Z :=
  match ToNumber (StringToNumber rt) (fallbackYear (bodyOf req)) with
  | Fin y => y
  | _ => YearFromTime (LocalTime (LocalTZA rt) (now rt))
  end.
Definition referenceDateOf (rt : Runtime) (req : Request) : Date :=
  newDateYMD (LocalTZA rt) (refYearOf rt req) 7 1.

(** Lines 143-147. *)
Definition linesOf (req : Request) : list jstring :=
  filter isDatey
    (filter nonempty
       (map trim (split false newline_re (ToString (text (bodyOf req)))))).

(** The list [out] when the loop is over. *)
Definition resolveAll (rt : Runtime) (req : Request)
  : completion (list ParsedEventOut) :=
  loop rt (refYearOf rt req) (referenceDateOf rt req) (durationOf req)
    (timeOf req) (linesOf req) [].

(** [NextResponse.json([], { status: 200 })] *)
Definition emptyResponse : Response := {| status := 200; payload := [] |}.

(** The [try] block of [POST]. *)
Definition POST_try (rt : Runtime) (req : Request) : completion Response :=
  if negb (truthy (text (bodyOf req)))
  then Ok emptyResponse
  else
    out <- resolveAll rt req ;;
    Ok {| status := 200; payload := unique out |}.

(** [POST]: the [catch] answers an empty array. *)
Definition POST (rt : Runtime) (req : Request) : completion Response :=
  match POST_try rt req with
  | Ok resp => Ok resp
  | Throw => Ok emptyResponse
  end.

(** The span the resolver works from for a line of a request: the first
    result of the extraction, if any. *)
Definition candidate (rt : Runtime) (req : Request) (line : jstring)
  : option ParsedResult :=
  match extract rt (referenceDateOf rt req) (timeOf req) line with
  | Ok (r :: _) => Some r
  | _ => None
  end.

(** What the loop does with a line of a request. *)
Definition lineResult (rt : Runtime) (req : Request) (line : jstring)
  : completion (option ParsedEventOut) :=
  processLine rt (refYearOf rt req) (referenceDateOf rt req) (durationOf req)
    (timeOf req) line.

(** [e] is one of the events the route answers to [req]. *)
Definition emitted (rt : Runtime) (req : Request) (e : ParsedEventOut) : Prop :=
  exists resp, POST rt req = Ok resp /\ In e (payload resp).

Definition pairOf (e : ParsedEventOut) : jstring * jstring :=
  (title e, start_iso e).

Definition pair_eq_dec (a b : jstring * jstring) : {a = b} + {a <> b} :=
  let sdec := list_eq_dec N.eq_dec in
  match sdec (fst a) (fst b), sdec (snd a) (snd b) with
  | left e1, left e2 =>
      left (eq_trans (surjective_pairing a)
              (eq_trans (f_equal2 pair e1 e2) (eq_sym (surjective_pairing b))))
  | right n, _ => right (fun e => n (f_equal fst e))
  | _, right n => right (fun e => n (f_equal snd e))
  end.

End ParseRoute.

(** ** The calendar export: [src/lib/ics.ts] *)

Module Ics.

Definition pad (n : number) : jstring := padStart0 2 (NumberToString n).

(** [s.replace(/c/g, by)] for a one-character pattern. *)
Definition replaceAll (c : N) (by_ : jstring) (s : jstring) : jstring :=
  flat_map (fun x => if N.eqb x c then by_ else [x]) s.

(** Escape per iCalendar rules. *)
Definition esc (s : jstring) : jstring :=
  replaceAll 59 (u "\;")
    (replaceAll 44 (u "\,")
       (replaceAll 10 (u "\n")
          (replaceAll 92 (u "\\") s))).

Record EventLike := {
  title : jstring;
  start : Date;
  end_ : option Date;
  allDay : bool;                    (* absent counts as false *)
  description : option jstring
}.

Section WithRuntime.
Variable rt : Runtime.

Definition fmtDate (d : Date) : jstring :=
  NumberToString (getFullYear (LocalTZA rt) d)
  ++ pad (nadd (getMonth (LocalTZA rt) d) (Fin 1))
  ++ pad (getDate (LocalTZA rt) d).

Definition fmtDateTime (d : Date) : jstring :=
  fmtDate d ++ u "T" ++ pad (getHours (LocalTZA rt) d)
  ++ pad (getMinutes (LocalTZA rt) d) ++ u "00".

(** Lines 54-65: the two lines that encode the start and the end. *)
Definition dateLines (e : EventLike) : list jstring :=
  if allDay e then
    let startDate := fmtDate (start e) in
    let endDate := fmtDate (addDays (LocalTZA rt) (nullish (end_ e) (start e)) 1) in
    [u "DTSTART;VALUE=DATE:" ++ startDate; u "DTEND;VALUE=DATE:" ++ endDate]
  else
    let startDT := fmtDateTime (start e) in
    let endDT := fmtDateTime (nullish (end_ e) (addMinutes (start e) 60)) in
    [u "DTSTART:" ++ startDT; u "DTEND:" ++ endDT].

(** The body of [events.forEach]. *)
Definition eventLines (i : nat) (e : EventLike) : list jstring :=
  let uid := NumberToString (Fin (now rt)) ++ u "-"
             ++ NumberToString (Fin (Z.of_nat i)) ++ u "@syllabus.local" in
  [u "BEGIN:VEVENT"; u "UID:" ++ uid; u "SUMMARY:" ++ esc (title e);
   u "DTSTAMP:" ++ fmtDateTime (mkDate (Some (now rt)))]
  ++ dateLines e
  ++ match description e with
     | Some d => if ParseRoute.nonempty d then [u "DESCRIPTION:" ++ esc d] else []
     | None => []
     end
  ++ [u "STATUS:CONFIRMED"; u "END:VEVENT"].

Fixpoint forEach (i : nat) (events : list EventLike) : list jstring :=
  match events with
  | [] => []
  | e :: rest => eventLines i e ++ forEach (S i) rest
  end.

Definition makeICS (events : list EventLike) (calendarName : jstring) : jstring :=
  join (N_of_ascii (ascii_of_nat 13) :: N_of_ascii (ascii_of_nat 10) :: nil)
    ([u "BEGIN:VCALENDAR"; u "VERSION:2.0"; u "PRODID:-//SyllabusToCalendar//EN";
      u "CALSCALE:GREGORIAN"; u "NAME:" ++ esc calendarName;
      u "X-WR-CALNAME:" ++ esc calendarName]
     ++ forEach 0 events
     ++ [u "END:VCALENDAR"]).
End WithRuntime.

End Ics.

(** ** Environments used in the examples *)

Module Env.
Import Chrono.

(** An extraction capability given by a finite table of texts. *)
Fixpoint lookup (tbl : list (jstring * list ParsedResult)) (s : jstring)
  : list ParsedResult :=
  match tbl with
  | [] => []
  | (k, v) :: tbl' => if jstring_eqb k s then v else lookup tbl' s
  end.

Definition certainIn (l : list Component) (c : Component) : bool :=
  existsb (fun x => match x, c with
                    | year, year | month, month | day, day | weekday, weekday
                    | hour, hour | minute, minute | second, second
                    | millisecond, millisecond | meridiem, meridiem
                    | timezoneOffset, timezoneOffset => true
                    | _, _ => false
                    end) l.

(** The instant of a civil date and time of day, read in UTC. *)
Definition at_ (y m d h mi : Z) : Date :=
  mkDate (Some (MakeDate (days_from_civil y m d) (MakeTime h mi 0 0))).

Definition comps (l : list Component) (d : Date) : ParsedComponents :=
  {| isCertain := certainIn l; date := d |}.

(** A runtime in UTC whose extraction is the table [tbl], whose clock
    reads 2025-08-01, and whose string-to-number conversion knows no
    string. *)
Definition tableRuntime (tbl : list (jstring * list ParsedResult)) : Runtime :=
  {| chrono_parse := fun s _ => Ok (lookup tbl s);
     now := 1754006400000;
     LocalTZA := fun _ _ => 0;
     StringToNumber := fun s => match s with [] => Fin 0 | _ => NaN end |}.

(** A runtime whose extraction faults. *)
Definition faultyRuntime : Runtime :=
  {| chrono_parse := fun _ _ => Throw;
     now := 1754006400000;
     LocalTZA := fun _ _ => 0;
     StringToNumber := fun s => match s with [] => Fin 0 | _ => NaN end |}.

Definition newline : jstring := [10%N].

(** A small syllabus and an extraction table for its lines. *)
Definition sampleLines : list jstring :=
  [u "10/02 11:59pm HW 1 due";
   u "Mon Oct 6 1:30-3:00 pm Midterm";
   u "Oct 20 Project proposal";
   u "Quiz 2 at 3pm";
   u "10/7 9am Lecture"].

Definition sampleTable : list (jstring * list ParsedResult) :=
  [(u "10/02 11:59pm HW 1 due",
    [{| start := comps [month; day; hour; minute; meridiem] (at_ 2025 10 2 23 59);
        end_ := None |}]);
   (u "Mon Oct 6 1:30-3:00 pm Midterm",
    [{| start := comps [month; day; weekday; hour; minute] (at_ 2025 10 6 13 30);
        end_ := Some (comps [month; day; hour; minute; meridiem] (at_ 2025 10 6 15 0)) |}]);
   (u "Oct 20 Project proposal",
    [{| start := comps [month; day] (at_ 2025 10 20 12 0); end_ := None |}]);
   (u "Quiz 2 at 3pm",
    [{| start := comps [hour; meridiem] (at_ 2025 8 1 15 0); end_ := None |}]);
   (u "10/7 9am Lecture",
    [{| start := comps [month; day; hour; meridiem] (at_ 2025 10 7 9 0);
        end_ := None |}])].

Definition sampleRuntime : Runtime := tableRuntime sampleTable.

Definition requestOf (txt : jstring) (fy : Z) (dur : value) : ParseRoute.Request :=
  {| ParseRoute.json :=
       Some {| ParseRoute.text := VString txt;
               ParseRoute.fallbackYear := VNumber (Fin fy);
               ParseRoute.defaultDurationMinutes := dur;
               ParseRoute.defaultTime := VUndefined |} |}.

Definition sampleRequest : ParseRoute.Request :=
  requestOf (join newline sampleLines) 2025 VUndefined.

Definition event (t s : string) (e : option string) (a : bool) (l : string)
  : ParseRoute.ParsedEventOut :=
  {| ParseRoute.title := u t; ParseRoute.start_iso := u s;
     ParseRoute.end_iso := option_map u e; ParseRoute.allDay := a;
     ParseRoute.sourceLine := u l |}.

(** A line with a range whose end carries no year of its own. *)
Definition rangeLine : jstring := u "Field trip Oct 6 2025 1pm to Oct 8".

Definition rangeResult : ParsedResult :=
  {| start := comps [year; month; day; hour; meridiem] (at_ 2025 10 6 13 0);
     end_ := Some (comps [month; day] (at_ 2025 10 8 13 0)) |}.

Definition rangeRuntime : Runtime := tableRuntime [(rangeLine, [rangeResult])].

(** The fallback year 275760 is the last year a Date can hold, and only up
    to its 13th of September: the reference date, the first of August, is a
    valid date, and the 8th of October of that year is none. *)
Definition rangeRequest : ParseRoute.Request := requestOf rangeLine 275760 VUndefined.

Definition hw2Line : jstring := u "HW2 due 10/9".

Definition hw2Request (dur : value) : ParseRoute.Request := requestOf hw2Line 2025 dur.

(** An extraction that reads the slash date of [hw2Line] by itself, as
    chrono-node's slash-date parser does: month and day certain, the hour
    implied (noon). *)
Definition slashResult : ParsedResult :=
  {| start := comps [month; day] (at_ 2025 10 9 12 0); end_ := None |}.

Definition slashRuntime : Runtime := tableRuntime [(hw2Line, [slashResult])].

(** Two lines that differ in their text and resolve to the same title and
    start. *)
Definition dupResult : ParsedResult :=
  {| start := comps [month; day] (at_ 2025 10 2 12 0); end_ := None |}.

Definition dupRuntime : Runtime :=
  tableRuntime [(u "10/02 HW1", [dupResult]); (u "10/2 HW1", [dupResult])].

Definition dupRequest : ParseRoute.Request :=
  requestOf (join newline [u "10/02 HW1"; u "10/2 HW1"]) 2025 VUndefined.

Definition dupFirst : ParseRoute.ParsedEventOut :=
  event "HW1" "2025-10-02T12:00:00.000Z" None true "10/02 HW1".
Definition dupSecond : ParseRoute.ParsedEventOut :=
  event "HW1" "2025-10-02T12:00:00.000Z" None true "10/2 HW1".

(** An all-day event whose end lies before its start. *)
Definition backwardsEvent : Ics.EventLike :=
  {| Ics.title := u "Retreat"; Ics.start := at_ 2025 10 10 0 0;
     Ics.end_ := Some (at_ 2025 10 5 0 0); Ics.allDay := true;
     Ics.description := None |}.

Definition timedEvent : Ics.EventLike :=
  {| Ics.title := u "Lecture"; Ics.start := at_ 2025 12 31 23 30;
     Ics.end_ := None; Ics.allDay := false; Ics.description := None |}.

End Env.

(** ** The calendar export, line by line *)

Module IcsLines.

Definition crlf : jstring := [13; 10]%N.

(** The array [lines] of [makeICS], before [lines.join("\r\n")]. *)
Definition calendarLines (rt : Runtime) (events : list Ics.EventLike)
           (calendarName : jstring) : list jstring :=
  [u "BEGIN:VCALENDAR"; u "VERSION:2.0"; u "PRODID:-//SyllabusToCalendar//EN";
   u "CALSCALE:GREGORIAN"; u "NAME:" ++ Ics.esc calendarName;
   u "X-WR-CALNAME:" ++ Ics.esc calendarName]
  ++ Ics.forEach rt 0 events
  ++ [u "END:VCALENDAR"].

End IcsLines.

(** ** Global replacement, and the two file-name sanitizers *)

Module Sanitize.

(** [String.prototype.replace(re, by)] with the [g] flag: the matches are
    found from left to right, each search starting where the last match
    ended (one code unit further after an empty match), and each is replaced
    by [by_]. *)
Fixpoint replace_all_loop (fuel : nat) (ic : bool) (r : re) (by_ : jstring)
         (prev : option N) (s : jstring) : jstring :=
  match fuel with
  | O => s
  | S fuel' =>
      match exec_at ic r prev s with
      | Some (p', rest) =>
          if Nat.eqb (length rest) (length s)
          then by_ ++ match s with
                      | [] => []
                      | c :: s' => c :: replace_all_loop fuel' ic r by_ (Some c) s'
                      end
          else by_ ++ replace_all_loop fuel' ic r by_ p' rest
      | None =>
          match s with
          | [] => []
          | c :: s' => c :: replace_all_loop fuel' ic r by_ (Some c) s'
          end
      end
  end.

Definition replace_all (ic : bool) (r : re) (by_ : jstring) (s : jstring) : jstring :=
  replace_all_loop (S (length s)) ic r by_ None s.

(** The character class of the sanitizers' pattern: backslash, slash, colon,
    asterisk, question mark, double quote, less-than, greater-than, bar. *)
Definition unsafe_class : atom :=
  Cls [(92, 92); (47, 47); (58, 58); (42, 42); (63, 63); (34, 34); (60, 60);
       (62, 62); (124, 124)]%N.

Definition unsafe_re : re := plus (At unsafe_class).

Definition is_unsafe (c : N) : bool := atom_match false unsafe_class c.

(** [sanitize] of the calendar route (route.ts, lines 55-57), on the string
    [String(name)]. *)
Definition sanitize (name : jstring) : jstring :=
  let r := trim (replace_all false unsafe_re (u "_") name) in
  if ParseRoute.nonempty r then r else u "calendar".

(** [sanitizeFilename] of the page (page.tsx, lines 317-319). *)
Definition sanitizeFilename (name : jstring) : jstring :=
  trim (replace_all false unsafe_re (u "_") name).

End Sanitize.

(** ** The calendar route: [POST] of route.ts, lines 13-53 *)

Module IcsRoute.

(** A parsed JSON text. *)
Inductive json :=
| JNull
| JBool (b : bool)
| JNum (n : number)
| JStr (s : jstring)
| JArr (items : list json)
| JObj (fields : list (jstring * json)).

(** The own property [k] of an object built by [JSON.parse] (of two fields
    with the same key the later one stands); [None] is [undefined].  The
    other JSON values have none of the properties the route reads. *)
Definition prop (v : json) (k : string) : option json :=
  match v with
  | JObj fields =>
      fold_left (fun acc kv => if jstring_eqb (fst kv) (u k) then Some (snd kv) else acc)
                fields None
  | _ => None
  end.

(** ToBoolean. *)
Definition truthyJ (v : json) : bool :=
  match v with
  | JNull => false
  | JBool b => b
  | JNum n => truthy (VNumber n)
  | JStr s => ParseRoute.nonempty s
  | JArr _ | JObj _ => true
  end.

(** [String(v)] and template-literal interpolation. *)
Fixpoint toStringJ (v : json) : jstring :=
  match v with
  | JNull => u "null"
  | JBool true => u "true"
  | JBool false => u "false"
  | JNum n => NumberToString n
  | JStr s => s
  | JArr items =>
      join (u ",") (map (fun x => match x with JNull => [] | _ => toStringJ x end) items)
  | JObj _ => u "[object Object]"
  end.

Section Route.
(** The runtime's [Date.parse], and its check of a header value. *)
Variable rt : Runtime.
Variable parseDate : jstring -> Date.
Variable headerOk : jstring -> bool.

(** [new Date(v)] for a property value [v]. *)
Definition dateOf (o : option json) : Date :=
  match o with
  | None => InvalidDate
  | Some JNull => newDate (Fin 0)
  | Some (JBool b) => newDate (Fin (if b then 1 else 0))
  | Some (JNum n) => newDate n
  | Some (JStr s) => parseDate s
  | Some v => parseDate (toStringJ v)
  end.

(** The event as the route hands it to [makeICS]; the title is whatever the
    request holds. *)
Record Normalized := {
  ntitle : json;
  nstart : Date;
  nend : option Date;
  nallDay : bool;
  ndescription : option jstring
}.

(** The callback of [bodyArray.map], lines 31-37: reading a property of
    [null] throws. *)
Definition normalize (e : json) : completion Normalized :=
  match e with
  | JNull => Throw
  | _ =>
      Ok {| ntitle := match prop e "title" with
                      | None | Some JNull => JStr (u "Untitled")
                      | Some v => v
                      end;
            nstart := dateOf (prop e "start");
            nend := match prop e "end" with
                    | Some v => if truthyJ v then Some (dateOf (Some v)) else None
                    | None => None
                    end;
            nallDay := match prop e "allDay" with
                       | Some v => truthyJ v
                       | None => false
                       end;
            ndescription := match prop e "sourceLine" with
                            | Some v => if truthyJ v
                                        then Some (u "From syllabus: " ++ toStringJ v)
                                        else None
                            | None => None
                            end |}
  end.

Fixpoint mapM {A B} (f : A -> completion B) (l : list A) : completion (list B) :=
  match l with
  | [] => Ok []
  | x :: l' => y <- f x ;; ys <- mapM f l' ;; Ok (y :: ys)
  end.

(** [esc] is called on the title and on the calendar name: a value that is
    no string has no [replace] method, and the call throws. *)
Definition asString (v : json) : completion jstring :=
  match v with
  | JStr s => Ok s
  | _ => Throw
  end.

Definition toEventLike (n : Normalized) : completion Ics.EventLike :=
  t <- asString (ntitle n) ;;
  Ok {| Ics.title := t; Ics.start := nstart n; Ics.end_ := nend n;
        Ics.allDay := nallDay n; Ics.description := ndescription n |}.

(** A request: the [calendar] query parameter if any, and the JSON body,
    [None] when the body is not JSON. *)
Record Request := { calendarQuery : option jstring; rawBody : option json }.

Inductive Response :=
| File (body : jstring) (filename : jstring)      (* status 200, the download *)
| Error (status : Z) (message : jstring).         (* { error: message } *)

Definition rawOf (req : Request) : json :=
  match rawBody req with Some v => v | None => JNull end.

(** Line 24. *)
Definition bodyArrayOf (req : Request) : list json :=
  match rawOf req with
  | JArr l => l
  | raw => match prop raw "events" with
           | Some (JArr l) => l
           | _ => []
           end
  end.

(** Lines 17 and 25. *)
Definition calendarNameOf (req : Request) : json :=
  let fromQuery := match calendarQuery req with
                   | Some s => if ParseRoute.nonempty s then Some s else None
                   | None => None
                   end in
  match fromQuery with
  | Some s => JStr s
  | None =>
      match prop (rawOf req) "calendarName" with
      | Some v => if truthyJ v then v else JStr (u "Syllabus")
      | None => JStr (u "Syllabus")
      end
  end.

(** The [try] block. *)
Definition POST_try (req : Request) : completion Response :=
  let bodyArray := bodyArrayOf req in
  let calendarName := calendarNameOf req in
  match bodyArray with
  | [] => Ok (Error 400 (u "No events provided"))
  | _ =>
      normalized <- mapM normalize bodyArray ;;
      name <- asString calendarName ;;
      events <- mapM toEventLike normalized ;;
      let ics := Ics.makeICS rt events name in
      let filename := Sanitize.sanitize name ++ u ".ics" in
      if headerOk filename then Ok (File ics filename) else Throw
  end.

Definition POST (req : Request) : Response :=
  match POST_try req with
  | Ok resp => resp
  | Throw => Error 500 (u "Failed to build ICS")
  end.

End Route.

End IcsRoute.

(** Requests used in the examples of the calendar route. *)

Module IcsExamples.
Import IcsRoute.

(** Two events, the second without a title, under a calendar name given in
    the query. *)
Definition icsRequest : Request :=
  {| calendarQuery := Some (u "CS 101: Fall");
     rawBody :=
       Some (JArr [JObj [(u "title", JStr (u "Quiz 1"));
                         (u "start", JNum (Fin 1760000000000));
                         (u "allDay", JBool true)];
                   JObj [(u "start", JNum (Fin 1760000000000))]]) |}.

(** A body whose [events] is no array. *)
Definition noEventsRequest : Request :=
  {| calendarQuery := None;
     rawBody := Some (JObj [(u "events", JStr (u "none"))]) |}.

(** An event whose title is the number 5. *)
Definition numericTitleRequest : Request :=
  {| calendarQuery := None;
     rawBody :=
       Some (JObj [(u "events",
                    JArr [JObj [(u "title", JNum (Fin 5));
                                (u "start", JStr (u "2025-10-09"))]])]) |}.

End IcsExamples.

(** ** The page: the helpers of page.tsx and the all-day switch *)

Module Page.

(** [pad], page.tsx lines 284-286. *)
Definition pad (n : number) : jstring := padStart0 2 (NumberToString n).

(** [String.prototype.split] with a separator of one code unit. *)
Fixpoint splitOn (sep : N) (s : jstring) : list jstring :=
  match s with
  | [] => [[]]
  | c :: s' =>
      match splitOn sep s' with
      | p :: ps => if N.eqb c sep then [] :: p :: ps else (c :: p) :: ps
      | [] => [[c]]
      end
  end.

(** The events of the page's state: [ParsedEvent] of types.ts; [end] and
    [allDay] are optional. *)
Record ParsedEvent := {
  title : jstring;
  start : Date;
  end_ : option Date;
  allDay : option bool;
  sourceLine : jstring
}.

(** A [Partial<ParsedEvent>] as the handlers build it: [None] is a key
    that the patch does not have; a patch can hold [end: undefined]. *)
Record Patch := {
  ptitle : option jstring;
  pstart : option Date;
  pend : option (option Date);
  pallDay : option bool
}.

(** [{ ...e, ...patch }] *)
Definition spread (e : ParsedEvent) (patch : Patch) : ParsedEvent :=
  {| title := nullish (ptitle patch) (title e);
     start := nullish (pstart patch) (start e);
     end_ := nullish (pend patch) (end_ e);
     allDay := match pallDay patch with
               | Some b => Some b
               | None => allDay e
               end;
     sourceLine := sourceLine e |}.

(** [prev.map((e, idx) => idx === i ? { ...e, ...patch } : e)], with [idx]
    counted from [from]. *)
Fixpoint mapIdx (from i : nat) (patch : Patch) (prev : list ParsedEvent)
  : list ParsedEvent :=
  match prev with
  | [] => []
  | e :: rest =>
      (if Nat.eqb from i then spread e patch else e) :: mapIdx (S from) i patch rest
  end.

(** [updateEvent], lines 90-94: the next state. *)
Definition updateEvent (i : nat) (patch : Patch) (prev : list ParsedEvent)
  : list ParsedEvent :=
  mapIdx 0 i patch prev.

Section WithRuntime.
Variable rt : Runtime.

(** [new Date(y, month, date, 0, 0, 0, 0)] on numbers. *)
Definition newDateLocal (y mo d : number) : Date :=
  match y, mo, d with
  | Fin y, Fin mo, Fin d => newDateYMD (LocalTZA rt) y mo d
  | _, _, _ => InvalidDate
  end.

(** [toLocalDateInput], lines 298-304. *)
Definition toLocalDateInput (d : Date) : jstring :=
  match DateValue d with
  | None => []
  | Some _ =>
      NumberToString (getFullYear (LocalTZA rt) d) ++ u "-"
      ++ pad (nadd (getMonth (LocalTZA rt) d) (Fin 1)) ++ u "-"
      ++ pad (getDate (LocalTZA rt) d)
  end.

(** [atLocalMidnight], lines 311-315; an element that the destructuring
    does not find is [undefined]. *)
Definition atLocalMidnight (dateStr : jstring) (fallback : option Date) : Date :=
  let parts := map (StringToNumber rt) (splitOn 45 dateStr) in
  let y := nth_error parts 0 in
  let m := nth_error parts 1 in
  let d := nth_error parts 2 in
  let local := newDateLocal (nullish y NaN)
                            (nadd (nullish m (Fin 1)) (Fin (-1)))
                            (nullish d (Fin 1)) in
  if isValid local then local else nullish fallback (newDate (Fin (now rt))).

(** The patch of the all-day switch, lines 244-253. *)
Definition allDayPatch (checked : bool) (e : ParsedEvent) : Patch :=
  {| ptitle := None;
     pallDay := Some checked;
     pend := Some (if checked then None else end_ e);
     pstart := Some (if checked
                     then atLocalMidnight (toLocalDateInput (start e)) (Some (start e))
                     else start e) |}.

(** The state after the switch of row [i] is set to [checked]; a row that
    does not exist has no switch. *)
Definition onAllDayChange (i : nat) (checked : bool) (prev : list ParsedEvent)
  : list ParsedEvent :=
  match nth_error prev i with
  | Some e => updateEvent i (allDayPatch checked e) prev
  | None => prev
  end.

End WithRuntime.

End Page.

(** A runtime for the examples of the page: UTC, and a conversion of
    strings to numbers that reads the unsigned decimal numerals. *)

Module PageExamples.

Definition readDecimal (s : jstring) : number :=
  match s with
  | [] => Fin 0
  | _ => if forallb is_digit s
         then Fin (fold_left (fun acc c => acc * 10 + (Z.of_N c - 48)) s 0)
         else NaN
  end.

Definition decimalRuntime : Runtime :=
  {| chrono_parse := fun _ _ => Ok [];
     now := 1754006400000;
     LocalTZA := fun _ _ => 0;
     StringToNumber := readDecimal |}.

Definition quiz : Page.ParsedEvent :=
  {| Page.title := u "Quiz 1";
     Page.start := Env.at_ 2025 10 9 23 59;
     Page.end_ := Some (Env.at_ 2025 10 10 0 59);
     Page.allDay := Some false;
     Page.sourceLine := u "Oct 9 11:59pm Quiz 1" |}.

Definition lecture : Page.ParsedEvent :=
  {| Page.title := u "Lecture";
     Page.start := Env.at_ 2025 10 7 9 0;
     Page.end_ := Some (Env.at_ 2025 10 7 10 0);
     Page.allDay := None;
     Page.sourceLine := u "10/7 9am Lecture" |}.

End PageExamples.

(** ** Texts that differ outside ASCII only *)

Module CaseBlind.

(** Two code units are alike when they are equal, or both lie outside ASCII
    and neither is white space: so are a capital outside ASCII and its lower
    case. *)
Definition alike (x y : N) : Prop :=
  x = y \/ ((128 <= x)%N /\ is_space x = false /\ (128 <= y)%N /\ is_space y = false).

Definition alike_prev (p q : option N) : Prop :=
  match p, q with
  | Some x, Some y => alike x y
  | None, None => True
  | _, _ => False
  end.

(** A pattern whose literals and classes are ASCII. *)
Definition ascii_atom (a : atom) : bool :=
  match a with
  | Lit c => (c <? 128)%N
  | Cls rs => forallb (fun r => (snd r <? 128)%N) rs
  | Digit | Word | Space => true
  end.

Fixpoint ascii_re (r : re) : bool :=
  match r with
  | At a => ascii_atom a
  | Seq a b | Alt a b => ascii_re a && ascii_re b
  | Rep _ _ a => ascii_re a
  | Eps | Bol | WordB => true
  end.

End CaseBlind.

(** * Properties *)

Import Chrono ParseRoute.

(** ** The model on the specification's examples *)

Example civil_smoke :
  civil_from_days (days_from_civil 2025 10 9) = (2025, 10, 9)
  /\ days_from_civil 1970 1 1 = 0
  /\ toISOString (mkDate (Some 1760054340000)) = Ok (u "2025-10-09T23:59:00.000Z").
Proof. vm_compute. auto. Qed.

Example title_smoke :
  extractTitle (u "10/02 11:59pm HW 1 due") = u "HW 1 due"
  /\ extractTitle (u "Mon Oct 6 1:30-3:00 pm Midterm") = u "Midterm"
  /\ extractTitle (u "Sep 19 3" ++ [8211%N] ++ u "4pm " ++ [8212%N] ++ u " Quiz 1")
     = u "Quiz 1"
  /\ extractTitle (u "Tues., Oct 7 Lab") = u "Lab"
  /\ extractTitle (u "September 19 Paper at 10:00") = u "Paper at 10:00"
  /\ extractTitle (u "Essay - Part 2") = u "Part 2"
  /\ extractTitle (u "a - ") = [].
Proof. vm_compute. repeat split. Qed.

Example filter_smoke :
  isDatey (u "HW2 due 10/9") = true
  /\ isDatey (u "random sentence with no date") = false
  /\ isDatey (u "lab 3") = true
  /\ isDatey (u "lab three") = false
  /\ isDeadline (u "HW DUE 10/2") = true
  /\ isDeadline (u "overdue") = false
  /\ hasTimeToken (u "HW2 due 10/9") = false
  /\ hasTimeToken (u "10/02 11:59pm HW 1 due") = true
  /\ hasTimeToken (u "at 3 pm") = true
  /\ hasTimeToken (u "room 3pmx") = false
  /\ split false dash_re (u "a - b -  - c") = [u "a"; u "b"; []; u "c"].
Proof. vm_compute. repeat split. Qed.

(** ** Strings *)

Lemma jstring_eqb_eq (a b : jstring) : jstring_eqb a b = true <-> a = b.
Proof.
  revert b; induction a as [|x a IH]; intros [|y b]; simpl; split;
    try congruence; try reflexivity.
  - intros H. apply andb_true_iff in H as [H1 H2].
    apply N.eqb_eq in H1. apply IH in H2. congruence.
  - intros H. inversion H; subst. rewrite N.eqb_refl. simpl. now apply IH.
Qed.

Lemma jstring_eqb_refl (a : jstring) : jstring_eqb a a = true.
Proof. now apply jstring_eqb_eq. Qed.

Lemma jstring_eqb_neq (a b : jstring) : jstring_eqb a b = false <-> a <> b.
Proof.
  split.
  - intros H E. apply jstring_eqb_eq in E. congruence.
  - intros H. destruct (jstring_eqb a b) eqn:E; [|reflexivity].
    apply jstring_eqb_eq in E. contradiction.
Qed.

Lemma log2_div10 n : (10 <= n)%N -> (N.log2 (n / 10) < N.log2 n)%N.
Proof.
  intros H.
  assert (H2 : (N.log2 (n / 2) = N.log2 n - 1)%N).
  { rewrite <- (N.pow_1_r 2), <- N.shiftr_div_pow2. apply N.log2_shiftr. }
  assert (Hle : (n / 10 <= n / 2)%N).
  { apply N.div_le_compat_l. lia. }
  apply N.log2_le_mono in Hle.
  assert (1 <= N.log2 n)%N.
  { change 1%N with (N.log2 2). apply N.log2_le_mono. lia. }
  lia.
Qed.

(** The fuel [digits] is given is enough: more fuel gives the same digits. *)
Lemma digits_fuel_enough f1 : forall f2 n acc,
  (N.to_nat (N.log2 n) < f1)%nat -> (N.to_nat (N.log2 n) < f2)%nat ->
  digits_fuel f1 n acc = digits_fuel f2 n acc.
Proof.
  induction f1 as [|f1 IH]; intros [|f2] n acc H1 H2; try lia.
  cbn [digits_fuel]. destruct (n <? 10)%N eqn:E; [reflexivity|].
  apply N.ltb_ge in E. pose proof (log2_div10 n E).
  apply IH; lia.
Qed.

(** ** The matcher: the fuel of the quantifiers and of [split] is enough *)

Section RepLoop.
Variable ma : matcher.

(** [ma] looks at its continuation only on inputs no longer than its own. *)
Hypothesis ma_ext : forall prev s k k',
  (forall p' s', (length s' <= length s)%nat -> k p' s' = k' p' s') ->
  ma prev s k = ma prev s k'.

Lemma rep_loop_ext fuel : forall k k' mn mx prev s,
  (forall p' s', (length s' <= length s)%nat -> k p' s' = k' p' s') ->
  rep_loop ma k fuel mn mx prev s = rep_loop ma k' fuel mn mx prev s.
Proof.
  induction fuel as [|fuel IH]; intros k k' mn mx prev s H; [reflexivity|].
  cbn [rep_loop]. rewrite (H prev s (Nat.le_refl _)).
  destruct (max_is_zero mx); [reflexivity|].
  replace (ma prev s
             (fun p' s' =>
                if Nat.eqb mn 0 && Nat.eqb (length s') (length s) then None
                else rep_loop ma k fuel (pred mn) (dec_max mx) p' s'))
    with (ma prev s
            (fun p' s' =>
               if Nat.eqb mn 0 && Nat.eqb (length s') (length s) then None
               else rep_loop ma k' fuel (pred mn) (dec_max mx) p' s'));
    [reflexivity|].
  apply ma_ext. intros p' s' Hl.
  destruct (Nat.eqb mn 0 && Nat.eqb (length s') (length s)); [reflexivity|].
  symmetry. apply IH. intros p'' s'' Hl'. apply H. lia.
Qed.

(** Fuel above the number of iterations that can take place changes
    nothing. *)
Lemma rep_loop_fuel k f1 : forall f2 mn mx prev s,
  (length s + mn < f1)%nat -> (length s + mn < f2)%nat ->
  rep_loop ma k f1 mn mx prev s = rep_loop ma k f2 mn mx prev s.
Proof.
  induction f1 as [|f1 IH]; intros [|f2] mn mx prev s H1 H2; try lia.
  cbn [rep_loop]. destruct (max_is_zero mx); [reflexivity|].
  replace (ma prev s
             (fun p' s' =>
                if Nat.eqb mn 0 && Nat.eqb (length s') (length s) then None
                else rep_loop ma k f1 (pred mn) (dec_max mx) p' s'))
    with (ma prev s
            (fun p' s' =>
               if Nat.eqb mn 0 && Nat.eqb (length s') (length s) then None
               else rep_loop ma k f2 (pred mn) (dec_max mx) p' s'));
    [reflexivity|].
  apply ma_ext. intros p' s' Hl.
  destruct (Nat.eqb mn 0) eqn:Emn; cbn [andb].
  - destruct (Nat.eqb (length s') (length s)) eqn:El; [reflexivity|].
    apply Nat.eqb_eq in Emn. apply Nat.eqb_neq in El.
    symmetry. apply IH; lia.
  - apply Nat.eqb_neq in Emn. symmetry. apply IH; lia.
Qed.
End RepLoop.

Lemma m_ext ic r : forall prev s k k',
  (forall p' s', (length s' <= length s)%nat -> k p' s' = k' p' s') ->
  m ic r prev s k = m ic r prev s k'.
Proof.
  induction r as [|a|a IHa b IHb|a IHa b IHb|mn mx a IHa| |];
    intros prev s k k' H; cbn [m].
  - apply H. lia.
  - destruct s as [|c s']; [reflexivity|].
    destruct (atom_match ic a c); [|reflexivity]. apply H. simpl. lia.
  - apply IHa. intros p' s' Hl. apply IHb. intros p'' s'' Hl'. apply H. lia.
  - rewrite (IHa prev s k k' H), (IHb prev s k k' H). reflexivity.
  - apply rep_loop_ext; assumption.
  - destruct prev; [reflexivity|]. apply H. lia.
  - destruct (xorb _ _); [|reflexivity]. apply H. lia.
Qed.

(** The fuel a quantifier is given is enough: more fuel gives the same
    result. *)
Lemma Rep_fuel_enough ic mn mx a prev s k fuel :
  (length s + mn < fuel)%nat ->
  m ic (Rep mn mx a) prev s k = rep_loop (m ic a) k fuel mn mx prev s.
Proof.
  intros H. cbn [m]. apply rep_loop_fuel; [apply m_ext | lia | exact H].
Qed.

Lemma rep_loop_cont (ma : matcher) k
      (Hma : forall prev s k res, ma prev s k = Some res ->
             exists p' s', (length s' <= length s)%nat /\ k p' s' = Some res)
      fuel : forall mn mx prev s res,
  rep_loop ma k fuel mn mx prev s = Some res ->
  exists p' s', (length s' <= length s)%nat /\ k p' s' = Some res.
Proof.
  induction fuel as [|fuel IH]; intros mn mx prev s res H; [discriminate|].
  cbn [rep_loop] in H.
  destruct (max_is_zero mx); [exists prev, s; split; [lia | exact H]|].
  assert (Hmore : forall res',
            ma prev s
               (fun p' s' =>
                  if Nat.eqb mn 0 && Nat.eqb (length s') (length s) then None
                  else rep_loop ma k fuel (pred mn) (dec_max mx) p' s') = Some res' ->
            exists p' s', (length s' <= length s)%nat /\ k p' s' = Some res').
  { intros res' Hm. apply Hma in Hm as (p1 & s1 & Hl & Hc).
    destruct (Nat.eqb mn 0 && Nat.eqb (length s1) (length s)); [discriminate|].
    apply IH in Hc as (p2 & s2 & Hl' & Hk). exists p2, s2. split; [lia | exact Hk]. }
  destruct (Nat.eqb mn 0); [|now apply Hmore].
  destruct (ma prev s _) as [res'|] eqn:Hm.
  - inversion H; subst. now apply Hmore.
  - exists prev, s. split; [lia | exact H].
Qed.

(** A successful match hands its continuation a suffix no longer than the
    input. *)
Lemma m_cont ic r : forall prev s k res,
  m ic r prev s k = Some res ->
  exists p' s', (length s' <= length s)%nat /\ k p' s' = Some res.
Proof.
  induction r as [|a|a IHa b IHb|a IHa b IHb|mn mx a IHa| |];
    intros prev s k res H; cbn [m] in H.
  - exists prev, s. split; [lia | exact H].
  - destruct s as [|c s']; [discriminate|].
    destruct (atom_match ic a c); [|discriminate].
    exists (Some c), s'. split; [simpl; lia | exact H].
  - apply IHa in H as (p1 & s1 & Hl & H). apply IHb in H as (p2 & s2 & Hl' & H).
    exists p2, s2. split; [lia | exact H].
  - destruct (m ic a prev s k) as [res'|] eqn:Ha.
    + inversion H; subst. exact (IHa _ _ _ _ Ha).
    + exact (IHb _ _ _ _ H).
  - exact (rep_loop_cont _ _ IHa _ _ _ _ _ _ H).
  - destruct prev; [discriminate|]. exists None, s. split; [lia | exact H].
  - destruct (xorb _ _); [|discriminate]. exists prev, s. split; [lia | exact H].
Qed.

Lemma exec_at_length ic r prev s p' rest :
  exec_at ic r prev s = Some (p', rest) -> (length rest <= length s)%nat.
Proof.
  unfold exec_at. intros H. apply m_cont in H as (p1 & s1 & Hl & H).
  inversion H; subst. exact Hl.
Qed.

(** The fuel [split] is given is enough: more fuel gives the same pieces. *)
Lemma split_loop_fuel ic r f1 : forall f2 prev acc s,
  (2 * length s + (if Nat.eqb (length acc) 0 then 0 else 1) < f1)%nat ->
  (2 * length s + (if Nat.eqb (length acc) 0 then 0 else 1) < f2)%nat ->
  split_loop f1 ic r prev acc s = split_loop f2 ic r prev acc s.
Proof.
  induction f1 as [|f1 IH]; intros [|f2] prev acc s H1 H2; try lia.
  cbn [split_loop]. destruct s as [|c s']; [reflexivity|].
  cbn [length] in H1, H2.
  destruct (exec_at ic r prev (c :: s')) as [[p' rest]|] eqn:He.
  - apply exec_at_length in He. cbn [length] in He.
    destruct (Nat.eqb (length rest) (length (c :: s'))) eqn:El; cbn [andb].
    + destruct (Nat.eqb (length acc) 0) eqn:Ea.
      * apply IH; cbn [length Nat.eqb]; lia.
      * f_equal. apply IH; cbn [length Nat.eqb]; lia.
    + apply Nat.eqb_neq in El. cbn [length] in El.
      f_equal. apply IH; cbn [length Nat.eqb];
        destruct (Nat.eqb (length acc) 0); lia.
  - apply IH; cbn [length Nat.eqb]; destruct (Nat.eqb (length acc) 0); lia.
Qed.

Lemma split_fuel_enough ic r s fuel :
  s <> [] -> (2 * length s < fuel)%nat ->
  split ic r s = split_loop fuel ic r None [] s.
Proof.
  intros Hne H. unfold split. destruct s as [|c s']; [contradiction|].
  apply split_loop_fuel; cbn [Nat.eqb length] in *; lia.
Qed.

(** ** The loop and the events it pushes *)

Section LoopFacts.
Variable rt : Runtime.
Variable refYear : Z.
Variable referenceDate : Date.
Variables dfltMinutes dfltTime : value.

Let step := processLine rt refYear referenceDate dfltMinutes dfltTime.

(** Every event of [out] after the loop was there before or was pushed for
    one of the lines. *)
Lemma loop_In lines : forall out out',
  loop rt refYear referenceDate dfltMinutes dfltTime lines out = Ok out' ->
  forall e, In e out' ->
    In e out \/ exists line, In line lines /\ step line = Ok (Some e).
Proof.
  induction lines as [|line rest IH]; simpl; intros out out' H e He.
  - inversion H; subst. now left.
  - destruct (processLine rt refYear referenceDate dfltMinutes dfltTime line)
      as [o|] eqn:Hp; simpl in H; [|discriminate].
    destruct (IH _ _ H e He) as [Hin | (l & Hl & Hs)].
    + destruct o as [e0|].
      * apply in_app_or in Hin as [Hin | [-> | []]]; [now left|].
        right. exists line. split; [now left | exact Hp].
      * now left.
    + right. exists l. split; [now right | exact Hs].
Qed.

(** When the loop fails, the work on one of the lines has failed. *)
Lemma loop_Throw lines : forall out,
  loop rt refYear referenceDate dfltMinutes dfltTime lines out = Throw ->
  exists line, In line lines /\ step line = Throw.
Proof.
  induction lines as [|line rest IH]; simpl; intros out H; [discriminate|].
  destruct (processLine rt refYear referenceDate dfltMinutes dfltTime line)
    as [o|] eqn:Hp; simpl in H.
  - destruct (IH _ H) as (l & Hl & Hs). exists l. split; [now right | exact Hs].
  - exists line. split; [now left | exact Hp].
Qed.

(** What an event that [resolve] builds is made of. *)
Lemma resolve_inv line r e :
  resolve rt refYear dfltMinutes line r = Ok (Some e) ->
  isValid (date (start r)) = true
  /\ isCertain (start r) month = true
  /\ isCertain (start r) day = true
  /\ toISOString (startInstant rt refYear r) = Ok (start_iso e)
  /\ match endInstant rt refYear dfltMinutes line r with
     | Some d => exists s, toISOString d = Ok s /\ end_iso e = Some s
     | None => end_iso e = None
     end
  /\ allDay e = negb (hasTimeOf line r)
  /\ title e = (if nonempty (extractTitle line) then extractTitle line
                else u "Course Event")
  /\ sourceLine e = line.
Proof.
  unfold resolve. intros H.
  destruct (isValid (date (start r))); simpl in H; [|discriminate].
  destruct (isCertain (start r) month); simpl in H; [|discriminate].
  destruct (isCertain (start r) day); simpl in H; [|discriminate].
  destruct (toISOString (startInstant rt refYear r)) as [s|]; simpl in H;
    [|discriminate].
  destruct (endInstant rt refYear dfltMinutes line r) as [d|].
  - destruct (toISOString d) as [s'|]; simpl in H; [|discriminate].
    inversion H; subst; simpl. repeat split; try reflexivity.
    exists s'. auto.
  - simpl in H. inversion H; subst; simpl. repeat split; reflexivity.
Qed.
End LoopFacts.

(** ** The [Map] of the de-duplication *)

Lemma Map_set_values {V} (k : jstring) (v : V) m x :
  In x (Map_values (Map_set k v m)) -> x = v \/ In x (Map_values m).
Proof.
  unfold Map_values. induction m as [|[k' v'] m IH]; simpl.
  - intros [<- | []]. now left.
  - destruct (jstring_eqb k' k); simpl.
    + intros [<- | H]; [now left | right; now right].
    + intros [<- | H]; [right; now left|].
      destruct (IH H) as [-> | H']; [now left | right; now right].
Qed.

Lemma Map_fold_values {V} (entries : list (jstring * V)) : forall m x,
  In x (Map_values (fold_left (fun m kv => Map_set (fst kv) (snd kv) m) entries m)) ->
  In x (Map_values m) \/ In x (map snd entries).
Proof.
  induction entries as [|[k v] entries IH]; simpl; intros m x H; [now left|].
  destruct (IH _ _ H) as [H' | H']; [|right; now right].
  apply Map_set_values in H' as [-> | H']; [right; now left | now left].
Qed.

(** De-duplication invents no event. *)
Lemma unique_In out e : In e (unique out) -> In e out.
Proof.
  unfold unique, Map_of. intros H.
  apply Map_fold_values in H as [[] | H].
  rewrite map_map in H. simpl in H. now rewrite map_id in H.
Qed.

(** Every event the route answers was built by [resolve] from the first
    extraction result of its own source line. *)
Lemma emitted_resolved rt req e :
  emitted rt req e ->
  exists r,
    candidate rt req (sourceLine e) = Some r
    /\ resolve rt (refYearOf rt req) (durationOf req) (sourceLine e) r = Ok (Some e)
    /\ In (sourceLine e) (linesOf req).
Proof.
  intros (resp & HP & Hin). unfold POST, POST_try in HP.
  destruct (negb (truthy (text (bodyOf req)))).
  { inversion HP; subst. destruct Hin. }
  destruct (resolveAll rt req) as [out|] eqn:Hall; simpl in HP;
    inversion HP; subst; simpl in Hin; [|destruct Hin].
  apply unique_In in Hin. unfold resolveAll in Hall.
  destruct (loop_In _ _ _ _ _ _ _ _ Hall e Hin) as [[] | (line & Hl & Hs)].
  unfold processLine in Hs.
  destruct (extract rt (referenceDateOf rt req) (timeOf req) line)
    as [results|] eqn:Hx; simpl in Hs; [|discriminate].
  destruct results as [|r rest]; [discriminate|].
  pose proof (resolve_inv _ _ _ _ _ _ Hs) as (_ & _ & _ & _ & _ & _ & _ & Hsrc).
  exists r. rewrite Hsrc. split; [|split; [exact Hs | exact Hl]].
  unfold candidate. now rewrite Hx.
Qed.


Example sample_response :
  POST Env.sampleRuntime Env.sampleRequest =
  Ok {| status := 200;
        payload :=
          [Env.event "HW 1 due" "2025-10-02T23:59:00.000Z" None false
             "10/02 11:59pm HW 1 due";
           Env.event "Midterm" "2025-10-06T13:30:00.000Z"
             (Some "2025-10-06T15:00:00.000Z"%string) false
             "Mon Oct 6 1:30-3:00 pm Midterm";
           Env.event "Project proposal" "2025-10-20T12:00:00.000Z" None true
             "Oct 20 Project proposal";
           Env.event "Lecture" "2025-10-07T09:00:00.000Z"
             (Some "2025-10-07T10:00:00.000Z"%string) false "10/7 9am Lecture"] |}.
Proof. vm_compute. reflexivity. Qed.

(** ** The resolver's per-event properties *)

Lemma candidate_first rt req line r :
  candidate rt req line = Some r ->
  lineResult rt req line =
  resolve rt (refYearOf rt req) (durationOf req) line r.
Proof.
  unfold candidate, lineResult, processLine.
  destruct (extract rt (referenceDateOf rt req) (timeOf req) line) as [[|r0 rest]|];
    simpl; congruence.
Qed.

(** C6. Every event the route answers stems from an extraction result whose
    start has a certain month and a certain day; and a line whose extracted
    start lacks a certain month or a certain day yields no event. *)
Theorem start_month_day_certain rt req :
  (forall e, emitted rt req e ->
     exists r, candidate rt req (sourceLine e) = Some r
               /\ isCertain (start r) month = true
               /\ isCertain (start r) day = true)
  /\ (forall line r, candidate rt req line = Some r ->
        isCertain (start r) month = false \/ isCertain (start r) day = false ->
        lineResult rt req line = Ok None).
Proof.
  split.
  - intros e He. destruct (emitted_resolved _ _ _ He) as (r & Hc & Hr & _).
    apply resolve_inv in Hr as (_ & Hm & Hd & _). eauto.
  - intros line r Hc Hu. rewrite (candidate_first _ _ _ _ Hc). unfold resolve.
    destruct (isValid (date (start r))); simpl; [|reflexivity].
    destruct Hu as [-> | ->]; simpl; [reflexivity|].
    now rewrite andb_false_r.
Qed.

Lemma start_month_day_certain_witness :
  (exists r, candidate Env.sampleRuntime Env.sampleRequest (u "Oct 20 Project proposal") = Some r
             /\ isCertain (start r) month = true
             /\ isCertain (start r) day = true)
  /\ lineResult Env.sampleRuntime Env.sampleRequest (u "Quiz 2 at 3pm") = Ok None.
Proof.
  destruct (start_month_day_certain Env.sampleRuntime Env.sampleRequest) as [H1 H2].
  split.
  - apply (H1 (Env.event "Project proposal" "2025-10-20T12:00:00.000Z" None true
                 "Oct 20 Project proposal")).
    eexists. split; [vm_compute; reflexivity|].
    vm_compute. right. right. left. reflexivity.
  - apply (H2 (u "Quiz 2 at 3pm")
              {| start := Env.comps [hour; meridiem] (Env.at_ 2025 8 1 15 0);
                 end_ := None |}).
    + vm_compute. reflexivity.
    + left. reflexivity.
Defined.

Lemma endInstant_no_time rt refYear dflt line r :
  hasTimeOf line r = false -> endInstant rt refYear dflt line r = None.
Proof.
  intros H. unfold endInstant. rewrite H.
  unfold hasTimeOf in H. repeat (apply orb_false_iff in H as [H ?]).
  unfold rangeEnd. unfold hasEnd in *.
  destruct (end_ r); [discriminate|].
  now rewrite !andb_false_r.
Qed.

(** C3. For every event the route answers, [allDay] is true exactly when the
    extraction marked neither the hour nor the minute certain, gave no range,
    and the line holds no lexical time token; and an all-day event has no
    end. *)
Theorem allDay_iff_no_time rt req e :
  emitted rt req e ->
  exists r,
    candidate rt req (sourceLine e) = Some r
    /\ (allDay e = true <->
        isCertain (start r) hour = false
        /\ isCertain (start r) minute = false
        /\ end_ r = None
        /\ hasTimeToken (sourceLine e) = false)
    /\ (allDay e = true -> end_iso e = None).
Proof.
  intros He. destruct (emitted_resolved _ _ _ He) as (r & Hc & Hr & _).
  exists r. split; [exact Hc|].
  apply resolve_inv in Hr as (_ & _ & _ & _ & Hend & Hall & _ & _).
  split.
  - rewrite Hall. unfold hasTimeOf, hasEnd. split.
    + intros H. apply negb_true_iff in H.
      repeat (apply orb_false_iff in H as [H ?]).
      destruct (end_ r); [discriminate|]. auto.
    + intros (-> & -> & -> & ->). reflexivity.
  - intros Ht. rewrite Hall in Ht. apply negb_true_iff in Ht.
    now rewrite (endInstant_no_time _ _ _ _ _ Ht) in Hend.
Qed.

Lemma allDay_iff_no_time_witness :
  exists r,
    candidate Env.sampleRuntime Env.sampleRequest (u "Oct 20 Project proposal") = Some r
    /\ (true = true <->
        isCertain (start r) hour = false
        /\ isCertain (start r) minute = false
        /\ end_ r = None
        /\ hasTimeToken (u "Oct 20 Project proposal") = false)
    /\ (true = true -> @None jstring = None).
Proof.
  apply (allDay_iff_no_time Env.sampleRuntime Env.sampleRequest
           (Env.event "Project proposal" "2025-10-20T12:00:00.000Z" None true
              "Oct 20 Project proposal")).
  eexists. split; [vm_compute; reflexivity|].
  vm_compute. right. right. left. reflexivity.
Defined.

(** The end of a timed event that is no deadline and has no range: the start
    instant plus the effective number of minutes. *)
Lemma timed_event_end rt req e r :
  emitted rt req e ->
  candidate rt req (sourceLine e) = Some r ->
  end_ r = None ->
  hasTimeOf (sourceLine e) r = true ->
  isDeadline (sourceLine e) = false ->
  exists t m s,
    DateValue (startInstant rt (refYearOf rt req) r) = Some t
    /\ minutesOf rt (durationOf req) = Fin m
    /\ toISOString (mkDate (Some t)) = Ok (start_iso e)
    /\ toISOString (mkDate (Some (t + m * 60000))) = Ok s
    /\ end_iso e = Some s.
Proof.
  intros He Hc Hno Ht Hd.
  destruct (emitted_resolved _ _ _ He) as (r' & Hc' & Hr & _).
  rewrite Hc in Hc'. inversion Hc'; subst r'. clear Hc'.
  apply resolve_inv in Hr as (_ & _ & _ & Hs & Hend & _).
  unfold endInstant in Hend. unfold hasEnd in Hend.
  rewrite Hno, Ht, Hd in Hend. simpl in Hend.
  destruct Hend as (s & Hs' & He').
  destruct (startInstant rt (refYearOf rt req) r) as [[t|]] eqn:Hst;
    [|discriminate].
  unfold getTime in Hs'. simpl in Hs'.
  destruct (minutesOf rt (durationOf req)) as [|m| |] eqn:Hm;
    try discriminate.
  simpl in Hs'. unfold TimeClip in Hs'.
  destruct (Z.abs (t + m * 60 * 1000) <=? 8640000000000000) eqn:Hclip;
    [|discriminate].
  exists t, m, s. repeat split; auto.
  replace (t + m * 60000) with (t + m * 60 * 1000) by ring. exact Hs'.
Qed.

(** C2, as the code has it. For a line resolved with a time and without a
    range: a deadline's event has no end; any other event ends [minutes]
    after its start, where [minutes] is [Number(defaultDurationMinutes) || 60]:
    the request's number when it is not 0, and 60 when the request gives
    none or gives a value that reads as 0 or as NaN. *)
Theorem end_policy_without_range rt req e r :
  emitted rt req e ->
  candidate rt req (sourceLine e) = Some r ->
  end_ r = None ->
  hasTimeOf (sourceLine e) r = true ->
  (isDeadline (sourceLine e) = true -> end_iso e = None)
  /\ (isDeadline (sourceLine e) = false ->
      exists t m s,
        DateValue (startInstant rt (refYearOf rt req) r) = Some t
        /\ minutesOf rt (durationOf req) = Fin m
        /\ toISOString (mkDate (Some t)) = Ok (start_iso e)
        /\ toISOString (mkDate (Some (t + m * 60000))) = Ok s
        /\ end_iso e = Some s)
  /\ (defaultDurationMinutes (bodyOf req) = VUndefined ->
      minutesOf rt (durationOf req) = Fin 60)
  /\ (forall n, defaultDurationMinutes (bodyOf req) = VNumber (Fin n) -> n <> 0 ->
      minutesOf rt (durationOf req) = Fin n)
  /\ (ToNumber (StringToNumber rt) (defaultDurationMinutes (bodyOf req)) = Fin 0
      \/ ToNumber (StringToNumber rt) (defaultDurationMinutes (bodyOf req)) = NaN ->
      minutesOf rt (durationOf req) = Fin 60).
Proof.
  intros He Hc Hno Ht. split; [|split; [|split; [|split]]].
  - intros Hd. destruct (emitted_resolved _ _ _ He) as (r' & Hc' & Hr & _).
    rewrite Hc in Hc'. inversion Hc'; subst r'.
    apply resolve_inv in Hr as (_ & _ & _ & _ & Hend & _).
    unfold endInstant, hasEnd in Hend. rewrite Hno, Ht, Hd in Hend.
    exact Hend.
  - intros Hd. now apply timed_event_end.
  - intros Hu. unfold durationOf. rewrite Hu. reflexivity.
  - intros n Hn Hnz. unfold durationOf, minutesOf. rewrite Hn. cbn.
    apply Z.eqb_neq in Hnz. now rewrite Hnz.
  - intros H. unfold durationOf, withDefault, minutesOf.
    destruct (defaultDurationMinutes (bodyOf req)) eqn:Hd;
      try reflexivity; simpl in *;
      destruct H as [H | H]; rewrite ?H; try reflexivity; try discriminate;
      try (destruct b; discriminate || reflexivity).
Qed.

Lemma end_policy_without_range_witness :
  (isDeadline (u "10/7 9am Lecture") = true -> Some (u "2025-10-07T10:00:00.000Z") = None)
  /\ (isDeadline (u "10/7 9am Lecture") = false ->
      exists t m s,
        DateValue (startInstant Env.sampleRuntime (refYearOf Env.sampleRuntime Env.sampleRequest)
                     {| start := Env.comps [month; day; hour; meridiem] (Env.at_ 2025 10 7 9 0);
                        end_ := None |}) = Some t
        /\ minutesOf Env.sampleRuntime (durationOf Env.sampleRequest) = Fin m
        /\ toISOString (mkDate (Some t)) = Ok (u "2025-10-07T09:00:00.000Z")
        /\ toISOString (mkDate (Some (t + m * 60000))) = Ok s
        /\ Some (u "2025-10-07T10:00:00.000Z") = Some s)
  /\ (defaultDurationMinutes (bodyOf Env.sampleRequest) = VUndefined ->
      minutesOf Env.sampleRuntime (durationOf Env.sampleRequest) = Fin 60)
  /\ (forall n, defaultDurationMinutes (bodyOf Env.sampleRequest) = VNumber (Fin n) ->
      n <> 0 -> minutesOf Env.sampleRuntime (durationOf Env.sampleRequest) = Fin n)
  /\ (ToNumber (StringToNumber Env.sampleRuntime)
        (defaultDurationMinutes (bodyOf Env.sampleRequest)) = Fin 0
      \/ ToNumber (StringToNumber Env.sampleRuntime)
           (defaultDurationMinutes (bodyOf Env.sampleRequest)) = NaN ->
      minutesOf Env.sampleRuntime (durationOf Env.sampleRequest) = Fin 60).
Proof.
  apply (end_policy_without_range Env.sampleRuntime Env.sampleRequest
           (Env.event "Lecture" "2025-10-07T09:00:00.000Z"
              (Some "2025-10-07T10:00:00.000Z"%string) false "10/7 9am Lecture")
           {| start := Env.comps [month; day; hour; meridiem] (Env.at_ 2025 10 7 9 0);
              end_ := None |}).
  - eexists. split; [vm_compute; reflexivity|].
    vm_compute. right. right. right. left. reflexivity.
  - vm_compute. reflexivity.
  - reflexivity.
  - vm_compute. reflexivity.
Defined.

(** C2 as stated fails: with [defaultDurationMinutes] 0 the timed line
    "10/7 9am Lecture", no deadline and without range, ends 60 minutes after
    its start, not 0 minutes after it. *)
Lemma end_policy_counterexample :
  POST Env.sampleRuntime (Env.requestOf (u "10/7 9am Lecture") 2025 (VNumber (Fin 0)))
  = Ok {| status := 200;
          payload := [Env.event "Lecture" "2025-10-07T09:00:00.000Z"
                        (Some "2025-10-07T10:00:00.000Z"%string) false
                        "10/7 9am Lecture"] |}
  /\ ~ (forall rt req e r n,
          emitted rt req e ->
          candidate rt req (sourceLine e) = Some r ->
          end_ r = None ->
          hasTimeOf (sourceLine e) r = true ->
          isDeadline (sourceLine e) = false ->
          defaultDurationMinutes (bodyOf req) = VNumber (Fin n) ->
          exists t s,
            toISOString (mkDate (Some t)) = Ok (start_iso e)
            /\ toISOString (mkDate (Some (t + n * 60000))) = Ok s
            /\ end_iso e = Some s).
Proof.
  assert (HP : POST Env.sampleRuntime
                 (Env.requestOf (u "10/7 9am Lecture") 2025 (VNumber (Fin 0)))
               = Ok {| status := 200;
                       payload := [Env.event "Lecture" "2025-10-07T09:00:00.000Z"
                                     (Some "2025-10-07T10:00:00.000Z"%string) false
                                     "10/7 9am Lecture"] |})
    by (vm_compute; reflexivity).
  split; [exact HP|].
  intros H.
  destruct (H Env.sampleRuntime
              (Env.requestOf (u "10/7 9am Lecture") 2025 (VNumber (Fin 0)))
              (Env.event "Lecture" "2025-10-07T09:00:00.000Z"
                 (Some "2025-10-07T10:00:00.000Z"%string) false "10/7 9am Lecture")
              {| start := Env.comps [month; day; hour; meridiem] (Env.at_ 2025 10 7 9 0);
                 end_ := None |} 0) as (t & s & Hs & Hs' & Hend).
  - eexists. split; [exact HP | now left].
  - vm_compute. reflexivity.
  - reflexivity.
  - vm_compute. reflexivity.
  - vm_compute. reflexivity.
  - reflexivity.
  - replace (t + 0 * 60000) with t in Hs' by lia.
    rewrite Hs in Hs'. injection Hs' as <-.
    vm_compute in Hend. discriminate Hend.
Qed.

(** C10. When the request's [defaultDurationMinutes] reads as 0 or as NaN,
    the route works with 60 minutes: a timed event that is no deadline and has
    no range ends 3600000 ms after its start. *)
Theorem zero_or_nan_duration_is_60 rt req :
  ToNumber (StringToNumber rt) (defaultDurationMinutes (bodyOf req)) = Fin 0
  \/ ToNumber (StringToNumber rt) (defaultDurationMinutes (bodyOf req)) = NaN ->
  minutesOf rt (durationOf req) = Fin 60
  /\ forall e r,
       emitted rt req e ->
       candidate rt req (sourceLine e) = Some r ->
       end_ r = None ->
       hasTimeOf (sourceLine e) r = true ->
       isDeadline (sourceLine e) = false ->
       exists t s,
         toISOString (mkDate (Some t)) = Ok (start_iso e)
         /\ toISOString (mkDate (Some (t + 3600000))) = Ok s
         /\ end_iso e = Some s.
Proof.
  intros H.
  assert (Hm : minutesOf rt (durationOf req) = Fin 60).
  { unfold durationOf, withDefault, minutesOf.
    destruct (defaultDurationMinutes (bodyOf req)) eqn:Hd;
      try reflexivity; simpl in *;
      destruct H as [H | H]; rewrite ?H; try reflexivity; try discriminate;
      try (destruct b; discriminate || reflexivity). }
  split; [exact Hm|].
  intros e r He Hc Hno Ht Hd.
  destruct (timed_event_end _ _ _ _ He Hc Hno Ht Hd)
    as (t & m & s & _ & Hm' & Hs & Hs' & He').
  rewrite Hm in Hm'. inversion Hm'; subst m.
  exists t, s. repeat split; auto.
Qed.

Lemma zero_or_nan_duration_is_60_witness :
  minutesOf Env.sampleRuntime
    (durationOf (Env.requestOf (u "10/7 9am Lecture") 2025 (VNumber (Fin 0)))) = Fin 60
  /\ exists t s,
       toISOString (mkDate (Some t)) = Ok (u "2025-10-07T09:00:00.000Z")
       /\ toISOString (mkDate (Some (t + 3600000))) = Ok s
       /\ Some (u "2025-10-07T10:00:00.000Z") = Some s.
Proof.
  destruct (zero_or_nan_duration_is_60 Env.sampleRuntime
              (Env.requestOf (u "10/7 9am Lecture") 2025 (VNumber (Fin 0))))
    as [H1 H2].
  - left. reflexivity.
  - split; [exact H1|].
    apply (H2 (Env.event "Lecture" "2025-10-07T09:00:00.000Z"
                 (Some "2025-10-07T10:00:00.000Z"%string) false "10/7 9am Lecture")
              {| start := Env.comps [month; day; hour; meridiem] (Env.at_ 2025 10 7 9 0);
                 end_ := None |}).
    + eexists. split; [vm_compute; reflexivity|].
      vm_compute. left. reflexivity.
    + vm_compute. reflexivity.
    + reflexivity.
    + vm_compute. reflexivity.
    + vm_compute. reflexivity.
Defined.

(** ** Failure *)

Lemma loop_Throw_at rt refYear referenceDate dm dt lines : forall out line,
  In line lines ->
  processLine rt refYear referenceDate dm dt line = Throw ->
  loop rt refYear referenceDate dm dt lines out = Throw.
Proof.
  induction lines as [|l rest IH]; simpl; intros out line Hin Ht; [destruct Hin|].
  destruct (processLine rt refYear referenceDate dm dt l) as [o|] eqn:Hp;
    simpl; [|reflexivity].
  destruct Hin as [-> | Hin]; [congruence|].
  now apply (IH _ line).
Qed.

(** C9. The route answers the empty array with status 200 when the text is
    empty (or otherwise falsy), when its [try] block throws, and in particular
    when the work on any one line throws; and it always answers: no
    exception leaves [POST]. *)
Theorem POST_never_fails rt req :
  (truthy (text (bodyOf req)) = false -> POST rt req = Ok emptyResponse)
  /\ (POST_try rt req = Throw -> POST rt req = Ok emptyResponse)
  /\ (forall line, truthy (text (bodyOf req)) = true ->
        In line (linesOf req) -> lineResult rt req line = Throw ->
        POST rt req = Ok emptyResponse)
  /\ (exists resp, POST rt req = Ok resp /\ status resp = 200).
Proof.
  unfold POST. repeat split.
  - intros H. unfold POST_try. now rewrite H.
  - intros H. now rewrite H.
  - intros line Ht Hin Hl. unfold POST_try. rewrite Ht. simpl.
    unfold resolveAll. now rewrite (loop_Throw_at _ _ _ _ _ _ _ _ Hin Hl).
  - unfold POST_try.
    destruct (negb (truthy (text (bodyOf req)))); [eexists; split; reflexivity|].
    destruct (resolveAll rt req); simpl; eexists; split; reflexivity.
Qed.

Lemma POST_never_fails_witness :
  POST Env.sampleRuntime (Env.requestOf [] 2025 VUndefined) = Ok emptyResponse
  /\ POST Env.faultyRuntime Env.sampleRequest = Ok emptyResponse
  /\ POST Env.sampleRuntime (Env.requestOf (u "10/7 9am Lecture") 300000 VUndefined)
     = Ok emptyResponse.
Proof.
  split; [|split].
  - destruct (POST_never_fails Env.sampleRuntime (Env.requestOf [] 2025 VUndefined))
      as (H & _).
    apply H. reflexivity.
  - destruct (POST_never_fails Env.faultyRuntime Env.sampleRequest) as (_ & H & _).
    apply H. vm_compute. reflexivity.
  - destruct (POST_never_fails Env.sampleRuntime
                (Env.requestOf (u "10/7 9am Lecture") 300000 VUndefined))
      as (_ & _ & H & _).
    apply (H (u "10/7 9am Lecture")).
    + reflexivity.
    + vm_compute. left. reflexivity.
    + vm_compute. reflexivity.
Defined.

(** ** A range whose end is invalid *)

(** C7, as the code has it. When the extraction gives a range whose end is
    invalid after the year normalisation, the end is dropped, and the line
    still counts as having a range: the no-range end policy is not applied.
    When the start, after its own year normalisation, is a valid date, the
    line yields its event with the start as a single instant: the end is
    absent and [allDay] is false.  When the start is no valid date either,
    the work on the line throws and the route answers the empty list. *)
Theorem invalid_range_end_dropped rt req line r re :
  candidate rt req line = Some r ->
  isValid (date (start r)) = true ->
  isCertain (start r) month = true ->
  isCertain (start r) day = true ->
  end_ r = Some re ->
  rangeEnd rt (refYearOf rt req) r = None ->
  match toISOString (startInstant rt (refYearOf rt req) r) with
  | Ok s =>
      lineResult rt req line =
      Ok (Some {| title := (if nonempty (extractTitle line) then extractTitle line
                            else u "Course Event");
                  start_iso := s; end_iso := None; allDay := false;
                  sourceLine := line |})
  | Throw =>
      lineResult rt req line = Throw
      /\ (In line (linesOf req) -> POST rt req = Ok emptyResponse)
  end.
Proof.
  intros Hc Hv Hm Hd He Hr.
  rewrite (candidate_first _ _ _ _ Hc). unfold resolve.
  rewrite Hv, Hm, Hd. cbn [negb andb].
  destruct (toISOString (startInstant rt (refYearOf rt req) r)) as [s|] eqn:Hs;
    cbn [bind].
  - unfold endInstant, hasTimeOf, hasEnd. rewrite He, Hr. cbn [negb andb bind].
    rewrite !orb_true_r. reflexivity.
  - split; [reflexivity|]. intros Hin.
    unfold POST, POST_try.
    destruct (negb (truthy (text (bodyOf req)))); [reflexivity|].
    assert (Hl : lineResult rt req line = Throw).
    { rewrite (candidate_first _ _ _ _ Hc). unfold resolve.
      rewrite Hv, Hm, Hd. cbn [negb andb]. rewrite Hs. reflexivity. }
    unfold resolveAll.
    rewrite (loop_Throw_at _ _ _ _ _ _ [] line Hin Hl). reflexivity.
Qed.

Lemma invalid_range_end_dropped_witness :
  lineResult Env.rangeRuntime Env.rangeRequest Env.rangeLine =
  Ok (Some (Env.event "Field trip Oct 6 2025 1pm to Oct 8"
              "2025-10-06T13:00:00.000Z" None false
              "Field trip Oct 6 2025 1pm to Oct 8")).
Proof.
  apply (invalid_range_end_dropped Env.rangeRuntime Env.rangeRequest Env.rangeLine
           Env.rangeResult (Env.comps [month; day] (Env.at_ 2025 10 8 13 0)));
    vm_compute; reflexivity.
Defined.

(** The reference date of that request is a valid date, and the end, put
    into the year 275760, is none. *)
Example range_reference_date :
  isValid (referenceDateOf Env.rangeRuntime Env.rangeRequest) = true
  /\ isValid (setFullYear (LocalTZA Env.rangeRuntime) (Env.at_ 2025 10 8 13 0) 275760)
     = false.
Proof. split; vm_compute; reflexivity. Qed.

(** The same line with a fallback year that leaves the end valid keeps its
    range. *)
Example range_end_kept :
  lineResult Env.rangeRuntime (Env.requestOf Env.rangeLine 2025 VUndefined) Env.rangeLine =
  Ok (Some (Env.event "Field trip Oct 6 2025 1pm to Oct 8"
              "2025-10-06T13:00:00.000Z" (Some "2025-10-08T13:00:00.000Z"%string)
              false "Field trip Oct 6 2025 1pm to Oct 8")).
Proof. vm_compute. reflexivity. Qed.

(** C7 as stated fails: a timed line that is no deadline, whose range end is
    dropped, gets no end at all, not the start plus the default duration. *)
Lemma invalid_range_end_counterexample :
  POST Env.rangeRuntime Env.rangeRequest
  = Ok {| status := 200;
          payload := [Env.event "Field trip Oct 6 2025 1pm to Oct 8"
                        "2025-10-06T13:00:00.000Z" None false
                        "Field trip Oct 6 2025 1pm to Oct 8"] |}
  /\ ~ (forall rt req e r,
          emitted rt req e ->
          candidate rt req (sourceLine e) = Some r ->
          hasEnd r = true ->
          rangeEnd rt (refYearOf rt req) r = None ->
          hasTimeOf (sourceLine e) r = true ->
          isDeadline (sourceLine e) = false ->
          exists t s,
            toISOString (mkDate (Some t)) = Ok (start_iso e)
            /\ toISOString (mkDate (Some (t + 60 * 60000))) = Ok s
            /\ end_iso e = Some s).
Proof.
  assert (HP : POST Env.rangeRuntime Env.rangeRequest
               = Ok {| status := 200;
                       payload := [Env.event "Field trip Oct 6 2025 1pm to Oct 8"
                                     "2025-10-06T13:00:00.000Z" None false
                                     "Field trip Oct 6 2025 1pm to Oct 8"] |})
    by (vm_compute; reflexivity).
  split; [exact HP|].
  intros H.
  destruct (H Env.rangeRuntime Env.rangeRequest
              (Env.event "Field trip Oct 6 2025 1pm to Oct 8"
                 "2025-10-06T13:00:00.000Z" None false
                 "Field trip Oct 6 2025 1pm to Oct 8")
              Env.rangeResult) as (t & s & _ & _ & Hend).
  - eexists. split; [exact HP | now left].
  - vm_compute. reflexivity.
  - reflexivity.
  - vm_compute. reflexivity.
  - vm_compute. reflexivity.
  - vm_compute. reflexivity.
  - discriminate Hend.
Qed.

(** ** The deadline without a time: "HW2 due 10/9" *)

Lemma hw2_facts :
  isDeadline Env.hw2Line = true
  /\ hasTimeToken Env.hw2Line = false
  /\ extractTitle Env.hw2Line = Env.hw2Line
  /\ Env.hw2Line ++ u " " ++ ToString (VString (u "23:59")) = u "HW2 due 10/9 23:59"
  /\ forall dur, linesOf (Env.hw2Request dur) = [Env.hw2Line].
Proof.
  split; [|split; [|split; [|split; [|intros dur]]]]; vm_compute; reflexivity.
Qed.

Lemma hw2_single_line rt dur e :
  lineResult rt (Env.hw2Request dur) Env.hw2Line = Ok (Some e) ->
  POST rt (Env.hw2Request dur) = Ok {| status := 200; payload := [e] |}.
Proof.
  intros Hline. destruct hw2_facts as (_ & _ & _ & _ & Flines).
  unfold POST, POST_try. cbn [Env.hw2Request Env.requestOf bodyOf json text truthy
                              Env.hw2Line u negb].
  unfold resolveAll. rewrite Flines. cbn [loop].
  unfold lineResult in Hline. rewrite Hline. cbn [bind loop app].
  unfold unique, Map_of, Map_values. cbn [map fold_left fst snd Map_set].
  reflexivity.
Qed.

(** C4. What the code does at "HW2 due 10/9": when the extraction reads a
    date in the line itself (month and day certain, no hour, no minute, no
    range), as chrono-node does for this slash date, the first attempt is not
    empty, so the default time is never appended, although the line is a
    deadline without a time token.  The route answers one all-day event
    without end, at the instant the extraction gave, and not the timed event
    at 23:59 that the claim and the comments of lines 133 and 159 name. *)
Theorem hw2_deadline_all_day rt dur r rest s :
  chrono_parse rt Env.hw2Line (referenceDateOf rt (Env.hw2Request dur))
  = Ok (r :: rest) ->
  isValid (date (start r)) = true ->
  isCertain (start r) month = true ->
  isCertain (start r) day = true ->
  isCertain (start r) hour = false ->
  isCertain (start r) minute = false ->
  end_ r = None ->
  toISOString (startInstant rt 2025 r) = Ok s ->
  isDeadline Env.hw2Line = true
  /\ hasTimeToken Env.hw2Line = false
  /\ timeOf (Env.hw2Request dur) = VString (u "23:59")
  /\ POST rt (Env.hw2Request dur) =
     Ok {| status := 200;
           payload := [{| title := Env.hw2Line; start_iso := s; end_iso := None;
                          allDay := true; sourceLine := Env.hw2Line |}] |}
  /\ ~ (exists e,
          POST rt (Env.hw2Request dur) = Ok {| status := 200; payload := [e] |}
          /\ end_iso e = None
          /\ allDay e = false).
Proof.
  destruct hw2_facts as (Fd & Ft & Ftitle & _ & Flines).
  intros H1 Hv Hm Hday Hh Hmin He Hs.
  assert (HP : POST rt (Env.hw2Request dur) =
               Ok {| status := 200;
                     payload := [{| title := Env.hw2Line; start_iso := s;
                                    end_iso := None; allDay := true;
                                    sourceLine := Env.hw2Line |}] |}).
  { apply hw2_single_line.
    unfold lineResult, processLine, extract.
    rewrite H1. cbn [bind length Nat.eqb andb].
    unfold resolve. rewrite Hv, Hm, Hday. cbn [negb andb].
    change (refYearOf rt (Env.hw2Request dur)) with 2025.
    rewrite Hs. cbn [bind].
    unfold endInstant, hasTimeOf, hasEnd, rangeEnd.
    rewrite He, Hh, Hmin, Fd, Ft, Ftitle.
    reflexivity. }
  split; [exact Fd|]. split; [exact Ft|]. split; [reflexivity|].
  split; [exact HP|].
  intros (e & He' & _ & Hall). rewrite HP in He'.
  injection He' as <-. discriminate Hall.
Qed.

Lemma hw2_deadline_all_day_witness :
  POST Env.slashRuntime (Env.hw2Request VUndefined) =
  Ok {| status := 200;
        payload := [{| title := Env.hw2Line;
                       start_iso := u "2025-10-09T12:00:00.000Z";
                       end_iso := None; allDay := true;
                       sourceLine := Env.hw2Line |}] |}
  /\ ~ (exists e,
          POST Env.slashRuntime (Env.hw2Request VUndefined)
          = Ok {| status := 200; payload := [e] |}
          /\ end_iso e = None
          /\ allDay e = false).
Proof.
  destruct (hw2_deadline_all_day Env.slashRuntime VUndefined Env.slashResult []
              (u "2025-10-09T12:00:00.000Z")) as (_ & _ & _ & H1 & H2).
  - vm_compute. reflexivity.
  - reflexivity.
  - reflexivity.
  - reflexivity.
  - reflexivity.
  - reflexivity.
  - reflexivity.
  - vm_compute. reflexivity.
  - split; [exact H1 | exact H2].
Defined.

(** ** De-duplication *)

(** The bar that joins title and start in a key occurs in no ISO string. *)
Lemma digits_fuel_chars f : forall n acc x,
  In x (digits_fuel f n acc) -> In x acc \/ (48 <= x < 58)%N.
Proof.
  induction f as [|f IH]; simpl; intros n acc x H; [now left|].
  assert (Hd : (48 <= 48 + n mod 10 < 58)%N).
  { assert (n mod 10 < 10)%N by (apply N.mod_upper_bound; lia).
    remember (n mod 10)%N as r. clear Heqr. lia. }
  destruct (n <? 10)%N.
  - destruct H as [<- | H]; [now right | now left].
  - apply IH in H as [[<- | H] | H]; [now right | now left | now right].
Qed.

Lemma pad_digits_chars n z x : In x (pad_digits n z) -> (48 <= x < 58)%N.
Proof.
  unfold pad_digits, padStart0, digits. intros H.
  apply in_app_or in H as [H | H].
  - apply repeat_spec in H. lia.
  - apply digits_fuel_chars in H as [[] | H]. exact H.
Qed.

Ltac no_bar H :=
  repeat match type of H with
         | In _ (_ ++ _) => apply in_app_or in H; destruct H as [H | H]
         | In _ (_ :: _) => destruct H as [H | H]; [discriminate H|]
         end;
  match type of H with
  | In _ (pad_digits _ _) => apply pad_digits_chars in H; lia
  | In _ [] => destruct H
  end.

Lemma toISOString_no_bar d s : toISOString d = Ok s -> ~ In 124%N s.
Proof.
  unfold toISOString. destruct (DateValue d) as [t|]; [|discriminate].
  intros H. inversion H; subst s; clear H. intros H.
  destruct ((0 <=? YearFromTime t) && (YearFromTime t <=? 9999));
    [|destruct (YearFromTime t <? 0)]; no_bar H.
Qed.

(** A key determines its title and its start, when the start holds no bar. *)
Lemma app_bar_inj (x : N) : forall l1 l2 r1 r2 : jstring,
  ~ In x l1 -> ~ In x l2 -> l1 ++ x :: r1 = l2 ++ x :: r2 -> l1 = l2 /\ r1 = r2.
Proof.
  induction l1 as [|a l1 IH]; intros [|b l2] r1 r2 H1 H2 E; simpl in *.
  - inversion E. auto.
  - inversion E; subst. exfalso. apply H2. now left.
  - inversion E; subst. exfalso. apply H1. now left.
  - inversion E; subst.
    destruct (IH l2 r1 r2) as [-> ->]; auto.
Qed.

Lemma key_pair a b :
  ~ In 124%N (start_iso a) -> ~ In 124%N (start_iso b) ->
  (keyOf a = keyOf b <-> pairOf a = pairOf b).
Proof.
  intros Ha Hb. unfold keyOf, pairOf. split.
  - intros E.
    assert (E' : rev (start_iso a) ++ 124%N :: rev (title a)
                 = rev (start_iso b) ++ 124%N :: rev (title b)).
    { apply (f_equal (@rev N)) in E. change (u "|") with [124%N] in E.
      rewrite !rev_app_distr in E. simpl in E.
      rewrite <- !app_assoc in E. exact E. }
    apply app_bar_inj in E' as [E1 E2]; try (rewrite <- in_rev; assumption).
    apply (f_equal (@rev N)) in E1, E2. rewrite !rev_involutive in E1, E2.
    congruence.
  - intros E. inversion E. congruence.
Qed.

(** The keys of a [Map] after [set]. *)
Lemma Map_set_keys {V} (k : jstring) (v : V) m :
  map fst (Map_set k v m) =
  if in_dec (list_eq_dec N.eq_dec) k (map fst m) then map fst m
  else map fst m ++ [k].
Proof.
  induction m as [|[k' v'] m IH]; simpl; [reflexivity|].
  destruct (jstring_eqb k' k) eqn:E.
  - apply jstring_eqb_eq in E. subst k'. simpl.
    destruct (list_eq_dec N.eq_dec k k); [|contradiction].
    reflexivity.
  - apply jstring_eqb_neq in E. simpl. rewrite IH.
    destruct (list_eq_dec N.eq_dec k' k); [contradiction|].
    destruct (in_dec (list_eq_dec N.eq_dec) k (map fst m)); reflexivity.
Qed.

Lemma Map_set_NoDup {V} (k : jstring) (v : V) m :
  NoDup (map fst m) -> NoDup (map fst (Map_set k v m)).
Proof.
  intros H. rewrite Map_set_keys.
  destruct (in_dec (list_eq_dec N.eq_dec) k (map fst m)) as [Hin | Hin];
    [exact H|].
  rewrite <- (rev_involutive (map fst m ++ [k])). apply NoDup_rev.
  rewrite rev_app_distr. simpl.
  constructor; [now rewrite <- in_rev | now apply NoDup_rev].
Qed.

Lemma Map_set_In {V} (k : jstring) (v : V) m k0 v0 :
  NoDup (map fst m) ->
  In (k0, v0) (Map_set k v m) ->
  (k0 = k /\ v0 = v) \/ (k0 <> k /\ In (k0, v0) m).
Proof.
  induction m as [|[k' v'] m IH]; simpl; intros Hnd.
  - intros [E | []]. inversion E. now left.
  - inversion Hnd as [|? ? Hk' Hnd']; subst.
    destruct (jstring_eqb k' k) eqn:E.
    + apply jstring_eqb_eq in E. subst k'.
      intros [E | H]; [inversion E; now left|].
      right. split; [|now right].
      intros ->. apply Hk'. now apply (in_map fst) in H.
    + apply jstring_eqb_neq in E.
      intros [E' | H]; [inversion E'; subst; right; split; [exact E | now left]|].
      destruct (IH Hnd' H) as [? | [? ?]];
        [now left | right; split; [assumption | now right]].
Qed.

Lemma Map_of_snoc {V} (l : list (jstring * V)) kv :
  Map_of (l ++ [kv]) = Map_set (fst kv) (snd kv) (Map_of l).
Proof. unfold Map_of. now rewrite fold_left_app. Qed.

(** The keys of [new Map(entries)]: each key once, in the order of the
    first occurrences. *)
Lemma Map_of_keys {V} (l : list (jstring * V)) :
  map fst (Map_of l) =
  rev (nodup (list_eq_dec N.eq_dec) (rev (map fst l))).
Proof.
  induction l as [|[k v] l IH] using rev_ind; [reflexivity|].
  rewrite Map_of_snoc, Map_set_keys, IH. cbn [fst snd].
  rewrite map_app, rev_app_distr. cbn [map fst rev app nodup].
  destruct (in_dec (list_eq_dec N.eq_dec) k (rev (map fst l))) as [Hin | Hin];
    destruct (in_dec (list_eq_dec N.eq_dec) k
                (rev (nodup (list_eq_dec N.eq_dec) (rev (map fst l)))))
      as [Hin' | Hin']; try reflexivity.
  - exfalso. apply Hin'. rewrite <- in_rev. now apply nodup_In.
  - exfalso. apply Hin. rewrite <- in_rev in Hin'. now apply nodup_In in Hin'.
Qed.

Lemma Map_of_NoDup {V} (l : list (jstring * V)) : NoDup (map fst (Map_of l)).
Proof. rewrite Map_of_keys. apply NoDup_rev, NoDup_nodup. Qed.

Lemma Map_of_key_In {V} (l : list (jstring * V)) k :
  In k (map fst (Map_of l)) <-> In k (map fst l).
Proof. now rewrite Map_of_keys, <- in_rev, nodup_In, <- in_rev. Qed.

(** Each entry of [new Map(entries)] is the last of [entries] with its key. *)
Lemma Map_of_last {V} (l : list (jstring * V)) : forall k v,
  In (k, v) (Map_of l) ->
  exists l1 l2, l = l1 ++ (k, v) :: l2 /\ ~ In k (map fst l2).
Proof.
  induction l as [|[k0 v0] l IH] using rev_ind; intros k v H; [destruct H|].
  rewrite Map_of_snoc in H. cbn [fst snd] in H.
  apply Map_set_In in H as [[-> ->] | [Hne H]]; [| |apply Map_of_NoDup].
  - exists l, []. split; [reflexivity | intros []].
  - destruct (IH _ _ H) as (l1 & l2 & -> & Hn).
    exists l1, (l2 ++ [(k0, v0)]). split; [now rewrite <- app_assoc|].
    rewrite map_app. intros Hin. apply in_app_or in Hin as [Hin | [Hin | []]];
      [now apply Hn | now apply Hne].
Qed.

(** What [unique] keeps: for each key the last event of [out] that has it,
    in the order in which the keys first occur. *)
Lemma unique_last out e' :
  In e' (unique out) ->
  exists l1 l2, out = l1 ++ e' :: l2 /\ forall x, In x l2 -> keyOf x <> keyOf e'.
Proof.
  unfold unique, Map_values. intros H.
  apply in_map_iff in H as ([k v] & Hv & H). simpl in Hv. subst v.
  apply Map_of_last in H as (E1 & E2 & HE & Hn).
  apply map_eq_app in HE as (l1 & l2' & -> & <- & HE).
  apply map_eq_cons in HE as (x & l2 & -> & Hx & <-).
  inversion Hx; subst. exists l1, l2. split; [reflexivity|].
  intros y Hy Heq. apply Hn. rewrite map_map. simpl.
  apply in_map_iff. exists y. split; [exact Heq | exact Hy].
Qed.

Lemma unique_keys out :
  map keyOf (unique out) =
  rev (nodup (list_eq_dec N.eq_dec) (rev (map keyOf out))).
Proof.
  unfold unique, Map_values.
  rewrite map_map.
  rewrite <- (map_map (fun e => (keyOf e, e)) fst out) at 1.
  rewrite <- Map_of_keys.
  apply map_ext_in. intros [k v] H.
  apply Map_of_last in H as (E1 & E2 & HE & _).
  apply map_eq_app in HE as (l1 & l2' & _ & _ & HE).
  apply map_eq_cons in HE as (x & l2 & _ & Hx & _).
  inversion Hx; subst. reflexivity.
Qed.

Lemma nodup_map_equiv {A B C} (decB : forall x y : B, {x = y} + {x <> y})
      (decC : forall x y : C, {x = y} + {x <> y}) (f : A -> B) (g : A -> C) l :
  (forall a b, In a l -> In b l -> (f a = f b <-> g a = g b)) ->
  exists l', incl l' l
             /\ nodup decB (map f l) = map f l'
             /\ nodup decC (map g l) = map g l'.
Proof.
  induction l as [|a l IH]; intros Heq.
  - exists []. repeat split. intros x [].
  - destruct IH as (l' & Hincl & Hf & Hg).
    { intros x y Hx Hy. apply Heq; now right. }
    assert (Hin : In (f a) (map f l) <-> In (g a) (map g l)).
    { rewrite !in_map_iff. split; intros (b & E & Hb); exists b; split; auto;
        apply (Heq b a); auto; [now right | now left | now right | now left]. }
    simpl. destruct (in_dec decB (f a) (map f l)) as [H1 | H1];
      destruct (in_dec decC (g a) (map g l)) as [H2 | H2];
      try (exfalso; tauto).
    + exists l'. repeat split; auto. intros x Hx. right. now apply Hincl.
    + exists (a :: l'). simpl. repeat split; try congruence.
      intros x [-> | Hx]; [now left | right; now apply Hincl].
Qed.

Lemma map_transfer {A B C} (f : A -> B) (g : A -> C) : forall U L,
  map f U = map f L ->
  (forall a b, In a U -> In b L -> f a = f b -> g a = g b) ->
  map g U = map g L.
Proof.
  induction U as [|a U IH]; intros [|b L] E H; simpl in *; try discriminate;
    [reflexivity|].
  inversion E. f_equal; [apply H; auto | apply IH; auto].
Qed.

Lemma resolveAll_starts rt req out :
  resolveAll rt req = Ok out ->
  forall e, In e out -> ~ In 124%N (start_iso e).
Proof.
  unfold resolveAll. intros H e He.
  destruct (loop_In _ _ _ _ _ _ _ _ H e He) as [[] | (line & _ & Hs)].
  unfold processLine in Hs.
  destruct (extract rt (referenceDateOf rt req) (timeOf req) line)
    as [[|r rest]|]; simpl in Hs; try discriminate.
  apply resolve_inv in Hs as (_ & _ & _ & Hiso & _).
  now apply toISOString_no_bar in Hiso.
Qed.

(** C1, as the code has it. After all lines are resolved, exactly one event
    survives per distinct (title, start) pair; it is the LAST event of the
    input order that has the pair (with that line's [sourceLine]), every
    earlier one is discarded, and the survivors stand in the order in which
    their pairs first occur. *)
Theorem unique_keeps_last rt req out :
  truthy (text (bodyOf req)) = true ->
  resolveAll rt req = Ok out ->
  POST rt req = Ok {| status := 200; payload := unique out |}
  /\ NoDup (map pairOf (unique out))
  /\ (forall e, In e out ->
        exists e', In e' (unique out) /\ pairOf e' = pairOf e)
  /\ (forall e', In e' (unique out) ->
        exists l1 l2, out = l1 ++ e' :: l2
                      /\ forall x, In x l2 -> pairOf x <> pairOf e')
  /\ map pairOf (unique out) = rev (nodup pair_eq_dec (rev (map pairOf out))).
Proof.
  intros Ht Hall.
  pose proof (resolveAll_starts _ _ _ Hall) as Hbar.
  assert (Hord : map pairOf (unique out)
                 = rev (nodup pair_eq_dec (rev (map pairOf out)))).
  { destruct (nodup_map_equiv (list_eq_dec N.eq_dec) pair_eq_dec keyOf pairOf (rev out))
      as (l' & Hincl & Hk & Hp).
    { intros a b Ha Hb. apply key_pair; apply Hbar; now apply in_rev. }
    rewrite <- map_rev, Hp, <- map_rev.
    apply (map_transfer keyOf pairOf).
    - rewrite unique_keys, <- map_rev.
      etransitivity; [apply f_equal; exact Hk|].
      symmetry. apply map_rev.
    - intros a b Ha Hb E. apply key_pair; auto.
      + apply Hbar. now apply unique_In.
      + apply Hbar. apply in_rev. apply Hincl. now apply in_rev. }
  split; [|split; [|split; [|split]]].
  - unfold POST, POST_try. rewrite Ht, Hall. reflexivity.
  - rewrite Hord. apply NoDup_rev, NoDup_nodup.
  - intros e He.
    assert (Hin : In (pairOf e) (map pairOf (unique out))).
    { rewrite Hord, <- in_rev, nodup_In, <- in_rev. now apply in_map. }
    apply in_map_iff in Hin as (e' & E & Hin). eauto.
  - intros e' He'. destruct (unique_last _ _ He') as (l1 & l2 & -> & Hn).
    exists l1, l2. split; [reflexivity|].
    intros x Hx E. apply (Hn x Hx). unfold keyOf. inversion E. congruence.
  - exact Hord.
Qed.

Lemma unique_keeps_last_witness :
  POST Env.dupRuntime Env.dupRequest
  = Ok {| status := 200; payload := unique [Env.dupFirst; Env.dupSecond] |}
  /\ unique [Env.dupFirst; Env.dupSecond] = [Env.dupSecond].
Proof.
  destruct (unique_keeps_last Env.dupRuntime Env.dupRequest
              [Env.dupFirst; Env.dupSecond]) as (H & _).
  - reflexivity.
  - vm_compute. reflexivity.
  - split; [exact H | vm_compute; reflexivity].
Defined.

(** C1 as stated fails: of two lines with the same title and start, the
    event of the second line survives, with the second line as its
    [sourceLine]; the first line's event is the one discarded. *)
Lemma first_occurrence_counterexample :
  POST Env.dupRuntime Env.dupRequest
  = Ok {| status := 200; payload := [Env.dupSecond] |}
  /\ ~ (forall rt req out e',
          truthy (text (bodyOf req)) = true ->
          resolveAll rt req = Ok out ->
          emitted rt req e' ->
          exists l1 l2, out = l1 ++ e' :: l2
                        /\ forall x, In x l1 -> pairOf x <> pairOf e').
Proof.
  assert (HP : POST Env.dupRuntime Env.dupRequest
               = Ok {| status := 200; payload := [Env.dupSecond] |})
    by (vm_compute; reflexivity).
  split; [exact HP|].
  intros H.
  destruct (H Env.dupRuntime Env.dupRequest [Env.dupFirst; Env.dupSecond]
              Env.dupSecond) as (l1 & l2 & E & Hn).
  - reflexivity.
  - vm_compute. reflexivity.
  - eexists. split; [exact HP | now left].
  - destruct l1 as [|a l1].
    + inversion E.
    + inversion E; subst a. apply (Hn Env.dupFirst); [now left | reflexivity].
Qed.

(** ** The title extractor *)

Lemma trimStart_head l x r : trimStart l = x :: r -> is_space x = false.
Proof.
  induction l as [|c l IH]; simpl; [discriminate|].
  destruct (is_space c) eqn:E; [exact IH|].
  intros H. inversion H; subst. exact E.
Qed.

Lemma trimStart_fixed l :
  match l with [] => True | c :: _ => is_space c = false end -> trimStart l = l.
Proof. destruct l as [|c l]; simpl; [reflexivity|]. now intros ->. Qed.

(** [trimStart l] is [l] without a prefix. *)
Lemma trimStart_suffix l : exists p, l = p ++ trimStart l.
Proof.
  induction l as [|c l (p & IH)]; [now exists []|]. simpl.
  destruct (is_space c); [|now exists []].
  exists (c :: p). simpl. now rewrite <- IH.
Qed.

Lemma trimEnd_last y s x : trimEnd y = s ++ [x] -> is_space x = false.
Proof.
  unfold trimEnd. intros H. apply (f_equal (@rev N)) in H.
  rewrite rev_involutive, rev_app_distr in H. simpl in H.
  now apply trimStart_head in H.
Qed.

Lemma trimStart_snoc z x :
  is_space x = false -> exists w, trimStart (z ++ [x]) = w ++ [x].
Proof.
  intros Hx. induction z as [|c z (w & IH)]; simpl.
  - rewrite Hx. now exists [].
  - destruct (is_space c); [now exists w|]. now exists (c :: z).
Qed.

Lemma trimEnd_snoc w x : is_space x = false -> trimEnd (w ++ [x]) = w ++ [x].
Proof.
  intros Hx. unfold trimEnd. rewrite rev_app_distr. simpl. rewrite Hx.
  simpl. now rewrite rev_involutive.
Qed.

(** Trimming keeps a last character that is no white space. *)
Lemma trim_snoc z x : is_space x = false -> exists w, trim (z ++ [x]) = w ++ [x].
Proof.
  intros Hx. unfold trim. destruct (trimStart_snoc z x Hx) as (w & ->).
  exists w. now apply trimEnd_snoc.
Qed.

(** A non-empty line that trimming leaves alone ends in a character that is
    no white space. *)
Lemma trimmed_last line :
  line <> [] -> trim line = line ->
  exists s x, line = s ++ [x] /\ is_space x = false.
Proof.
  intros Hne Ht. destruct (exists_last Hne) as (s & x & ->).
  exists s, x. split; [reflexivity|].
  unfold trim in Ht. now apply trimEnd_last in Ht.
Qed.

Lemma trimStart_clean l : clean_head (trimStart l).
Proof.
  destruct (trimStart l) as [|c r] eqn:E; [exact I|].
  now apply trimStart_head in E.
Qed.

(** The result of [trim] neither starts nor ends with white space. *)
Lemma trim_shape s : clean_head (trim s) /\ clean_head (rev (trim s)).
Proof.
  unfold trim, trimEnd. rewrite rev_involutive. split; [|apply trimStart_clean].
  destruct (trimStart_suffix (rev (trimStart s))) as (p & Hp).
  destruct (rev (trimStart (rev (trimStart s)))) as [|c r] eqn:Hr; [exact I|].
  apply (f_equal (@rev N)) in Hp.
  rewrite rev_involutive, rev_app_distr, Hr in Hp. simpl in Hp.
  now apply trimStart_head in Hp.
Qed.

(** [trim] is idempotent. *)
Lemma trim_idem s : trim (trim s) = trim s.
Proof.
  destruct (trim_shape s) as [H1 H2].
  unfold trim at 1. rewrite (trimStart_fixed _ H1).
  unfold trimEnd. rewrite (trimStart_fixed _ H2). apply rev_involutive.
Qed.

(** The lines the route works on are non-empty and trimmed. *)
Lemma linesOf_trimmed req line :
  In line (linesOf req) -> line <> [] /\ trim line = line.
Proof.
  unfold linesOf. intros H.
  apply filter_In in H as [H _]. apply filter_In in H as [H Hne].
  apply in_map_iff in H as (s & <- & _). split.
  - intros E. rewrite E in Hne. discriminate.
  - apply trim_idem.
Qed.

(** A match of the spaced dash consumes three characters, the last of which
    is white space. *)
Lemma exec_dash prev s p' rest :
  exec_at false dash_re prev s = Some (p', rest) ->
  exists a b c, s = a :: b :: c :: rest /\ is_space c = true.
Proof.
  unfold exec_at, dash_re. cbn [seqs m].
  destruct s as [|a s]; [discriminate|].
  destruct (atom_match false Space a); [|discriminate].
  destruct s as [|b s]; [discriminate|].
  destruct (atom_match false (Cls [(8211, 8211); (8212, 8212); (45, 45)]%N) b);
    [|discriminate].
  destruct s as [|c s]; [discriminate|].
  destruct (atom_match false Space c) eqn:Hc; [|discriminate].
  intros H. inversion H; subst. exists a, b, c. split; [reflexivity | exact Hc].
Qed.

Lemma suffix_snoc {A} (pre rest s : list A) x :
  s ++ [x] = pre ++ rest -> rest <> [] -> exists s', rest = s' ++ [x].
Proof.
  intros E Hne. destruct (exists_last Hne) as (s' & y & ->).
  rewrite app_assoc in E. apply app_inj_tail in E as [_ ->]. now exists s'.
Qed.

(** Splitting at spaced dashes a text whose last character is no white space
    leaves a last piece that ends with that character. *)
Lemma split_loop_ends fuel : forall prev acc s x,
  is_space x = false ->
  exists parts lastp,
    split_loop fuel false dash_re prev acc (s ++ [x]) = parts ++ [lastp ++ [x]].
Proof.
  induction fuel as [|fuel IH]; intros prev acc s x Hx.
  - exists [], (rev acc ++ s). simpl. now rewrite app_assoc.
  - destruct s as [|c s].
    + cbn [app split_loop].
      destruct (exec_at false dash_re prev [x]) as [[p' rest]|] eqn:He.
      { apply exec_dash in He as (a & b & c & E & _). discriminate. }
      exists [], (rev acc). destruct fuel; simpl; now rewrite ?app_nil_r.
    + cbn [app split_loop].
      destruct (exec_at false dash_re prev (c :: s ++ [x])) as [[p' rest]|] eqn:He;
        [|apply IH; exact Hx].
      destruct (Nat.eqb (length rest) (length (c :: s ++ [x]))
                && Nat.eqb (length acc) 0); [apply IH; exact Hx|].
      apply exec_dash in He as (a & b & c0 & E & Hc0).
      destruct (suffix_snoc [a; b; c0] rest (c :: s) x) as (s' & ->).
      { exact E. }
      { intros ->. change (c :: s ++ [x]) with ((c :: s) ++ [x]) in E.
        change [a; b; c0] with ([a; b] ++ [c0]) in E.
        apply app_inj_tail in E as [_ ->]. congruence. }
      destruct (IH p' [] s' x Hx) as (parts & lastp & ->).
      exists (rev acc :: parts), lastp. reflexivity.
Qed.

Lemma join_snoc sep : forall (parts : list jstring) lastp x,
  exists z, join sep (parts ++ [lastp ++ [x]]) = z ++ [x].
Proof.
  induction parts as [|p parts IH]; intros lastp x; simpl.
  - now exists lastp.
  - destruct (IH lastp x) as (z & Hz).
    destruct (parts ++ [lastp ++ [x]]) as [|q qs] eqn:E.
    { destruct parts; discriminate. }
    rewrite Hz. exists (p ++ sep ++ z). now rewrite <- !app_assoc.
Qed.

Lemma extractTitle_trimmed line :
  line <> [] -> trim line = line -> extractTitle line <> [].
Proof.
  intros Hne Ht.
  destruct (trimmed_last line Hne Ht) as (s & x & -> & Hx).
  unfold extractTitle.
  destruct (1 <? length (split false dash_re (s ++ [x])))%nat eqn:Hlen.
  - unfold split in *.
    destruct (s ++ [x]) as [|c l] eqn:E; [destruct s; discriminate|].
    rewrite <- E in *.
    destruct (split_loop_ends (2 * length (s ++ [x]) + 2) None [] s x Hx)
      as (parts & lastp & Hs).
    rewrite Hs in *. destruct parts as [|p parts]; [discriminate Hlen|].
    cbn [app tl].
    destruct (join_snoc (u " - ") parts lastp x) as (z & Hz).
    replace (join _ _) with (z ++ [x]) by (symmetry; exact Hz).
    destruct (trim_snoc z x Hx) as (w & ->).
    destruct w; discriminate.
  - destruct (nonempty (trim _)) eqn:Hn.
    + intros E. rewrite E in Hn. discriminate.
    + rewrite Ht. exact Hne.
Qed.

(** C5. For every input line of [extractTitle], which the route calls on the
    trimmed, non-empty lines of the request and on nothing else,
    [extractTitle] returns a non-empty string, and the title of every event
    the route answers is that string. Without a spaced dash, when the
    stripping leaves nothing, the result is the trimmed line. *)
Theorem extractTitle_nonempty line :
  (line <> [] -> trim line = line -> extractTitle line <> [])
  /\ (forall req, In line (linesOf req) -> extractTitle line <> [])
  /\ (forall rt req e, emitted rt req e -> sourceLine e = line ->
        title e = extractTitle line /\ title e <> [])
  /\ ((1 <? length (split false dash_re line))%nat = false ->
      trim (stripLeading line) = [] -> extractTitle line = trim line).
Proof.
  assert (Hl : forall req, In line (linesOf req) -> extractTitle line <> []).
  { intros req Hin. apply linesOf_trimmed in Hin as [Hne Ht].
    now apply extractTitle_trimmed. }
  split; [apply extractTitle_trimmed|]. split; [exact Hl|]. split.
  - intros rt req e He Hsrc.
    destruct (emitted_resolved _ _ _ He) as (r & _ & Hr & Hin).
    apply resolve_inv in Hr as (_ & _ & _ & _ & _ & _ & Ht & _).
    rewrite Hsrc in *. specialize (Hl _ Hin).
    destruct (extractTitle line) eqn:E; [contradiction|].
    rewrite Ht. simpl. split; [reflexivity | discriminate].
  - intros Hd Hs. unfold extractTitle. rewrite Hd, Hs. reflexivity.
Qed.

Lemma extractTitle_nonempty_witness :
  extractTitle (u "Essay - Part 2") <> []
  /\ extractTitle (u "Oct 20 Project proposal") <> []
  /\ extractTitle (u "10/02") = trim (u "10/02").
Proof.
  split; [|split].
  - destruct (extractTitle_nonempty (u "Essay - Part 2")) as (H & _).
    apply H.
    + discriminate.
    + vm_compute. reflexivity.
  - destruct (extractTitle_nonempty (u "Oct 20 Project proposal")) as (_ & H & _).
    apply (H Env.sampleRequest).
    vm_compute. right. right. left. reflexivity.
  - destruct (extractTitle_nonempty (u "10/02")) as (_ & _ & _ & H).
    apply H; vm_compute; reflexivity.
Defined.

(** ** The calendar export *)

Lemma doe_facts doe :
  0 <= doe < 146097 ->
  let yoe := (doe - doe / 1460 + doe / 36524 - doe / 146096) / 365 in
  let doy := doe - (365 * yoe + yoe / 4 - yoe / 100) in
  let mp := (5 * doy + 2) / 153 in
  0 <= yoe < 400 /\ 0 <= doy <= 365 /\ 0 <= mp <= 11.
Proof.
  intros H yoe doy mp. subst mp doy yoe.
  Z.div_mod_to_equations. lia.
Qed.

(** The civil date of a day number denotes that day, and its month lies in
    1..12. *)
Lemma civil_roundtrip z :
  days_from_civil (fst (fst (civil_from_days z))) (snd (fst (civil_from_days z)))
    (snd (civil_from_days z)) = z
  /\ 1 <= snd (fst (civil_from_days z)) <= 12.
Proof.
  unfold civil_from_days. cbv zeta.
  remember (z + 719468) as z' eqn:Hz.
  remember (z' / 146097) as era eqn:Hera.
  remember (z' - era * 146097) as doe eqn:Hdoe.
  assert (Hr : 0 <= doe < 146097) by (subst doe era; Z.div_mod_to_equations; lia).
  pose proof (doe_facts doe Hr) as F. cbv zeta in F.
  remember ((doe - doe / 1460 + doe / 36524 - doe / 146096) / 365) as yoe eqn:Hyoe.
  remember (doe - (365 * yoe + yoe / 4 - yoe / 100)) as doy eqn:Hdoy.
  remember ((5 * doy + 2) / 153) as mp eqn:Hmp.
  destruct F as (Fy & Fd & Fm).
  cbn [fst snd]. unfold days_from_civil.
  assert (Hera' : (yoe + era * 400) / 400 = era)
    by (rewrite Z.div_add by lia; rewrite Z.div_small by lia; lia).
  destruct (mp <? 10) eqn:E1.
  - apply Z.ltb_lt in E1.
    replace (mp + 3 <=? 2) with false by (symmetry; apply Z.leb_gt; lia).
    replace (2 <? mp + 3) with true by (symmetry; apply Z.ltb_lt; lia).
    replace (mp + 3 - 3) with mp by lia.
    rewrite Hera'. replace (yoe + era * 400 - era * 400) with yoe by lia.
    split; lia.
  - apply Z.ltb_ge in E1.
    replace (mp - 9 <=? 2) with true by (symmetry; apply Z.leb_le; lia).
    replace (2 <? mp - 9) with false by (symmetry; apply Z.ltb_ge; lia).
    replace (mp - 9 + 9) with mp by lia.
    replace (yoe + era * 400 + 1 - 1) with (yoe + era * 400) by lia.
    rewrite Hera'. replace (yoe + era * 400 - era * 400) with yoe by lia.
    split; lia.
Qed.

(** The day after the civil date of [t] is the next day number. *)
Lemma MakeDay_next t :
  MakeDay (YearFromTime t) (MonthFromTime t) (DateFromTime t + 1) = Day t + 1.
Proof.
  unfold MakeDay, YearFromTime, MonthFromTime, DateFromTime.
  destruct (civil_roundtrip (Day t)) as [Hrt Hm].
  remember (civil_from_days (Day t)) as c eqn:Hc.
  destruct c as [[y m] d]. cbn [fst snd] in *.
  replace ((m - 1) / 12) with 0 by (symmetry; apply Z.div_small; lia).
  replace ((m - 1) mod 12 + 1) with m by (rewrite Z.mod_small; lia).
  replace (y + 0) with y by lia.
  rewrite <- Hrt. unfold days_from_civil. lia.
Qed.

(** In a zone at a fixed offset from UTC, date-fns [addDays d 1] is the
    instant one day on. *)
Lemma addDays_one (tza : Z -> bool -> Z) tz t :
  (forall x b, tza x b = tz) ->
  Z.abs (t + msPerDay) <= 8640000000000000 ->
  addDays tza (mkDate (Some t)) 1 = mkDate (Some (t + msPerDay)).
Proof.
  intros Hz Hb. unfold addDays. cbn [Z.eqb].
  unfold setDate, getDate, localField, LocalTime, UTC. cbn [DateValue nadd].
  rewrite !Hz. rewrite MakeDay_next.
  unfold MakeDate, Day, TimeWithinDay.
  replace ((((t + tz) / msPerDay + 1) * msPerDay + (t + tz) mod msPerDay) - tz)
    with (t + msPerDay).
  - unfold TimeClip. apply Z.leb_le in Hb. now rewrite Hb.
  - pose proof (Z.div_mod (t + tz) msPerDay) as H.
    assert (msPerDay <> 0) by (unfold msPerDay; lia). specialize (H H0). lia.
Qed.

(** C8, as the code has it. An all-day event is written with date-only
    values: its start, and as its end the day after its end when it has one,
    otherwise the day after its start. A timed event is written with
    date-time values: its start, and its end when it has one, otherwise its
    start plus 60 minutes. In a zone at a fixed offset the day after is the
    instant 86400000 ms on. *)
Theorem ics_date_encoding rt e :
  (Ics.allDay e = true ->
     Ics.dateLines rt e =
     [u "DTSTART;VALUE=DATE:" ++ Ics.fmtDate rt (Ics.start e);
      u "DTEND;VALUE=DATE:"
      ++ Ics.fmtDate rt (addDays (LocalTZA rt) (nullish (Ics.end_ e) (Ics.start e)) 1)])
  /\ (Ics.allDay e = false ->
        Ics.dateLines rt e =
        [u "DTSTART:" ++ Ics.fmtDateTime rt (Ics.start e);
         u "DTEND:"
         ++ Ics.fmtDateTime rt (nullish (Ics.end_ e) (addMinutes (Ics.start e) 60))])
  /\ (forall i, exists pre post,
        Ics.eventLines rt i e = pre ++ Ics.dateLines rt e ++ post)
  /\ (forall tz t,
        (forall x b, LocalTZA rt x b = tz) ->
        DateValue (nullish (Ics.end_ e) (Ics.start e)) = Some t ->
        Z.abs (t + msPerDay) <= 8640000000000000 ->
        addDays (LocalTZA rt) (nullish (Ics.end_ e) (Ics.start e)) 1
        = mkDate (Some (t + msPerDay)))
  /\ (forall t, DateValue (Ics.start e) = Some t ->
        addMinutes (Ics.start e) 60 = mkDate (TimeClip (t + 3600000))).
Proof.
  split; [|split; [|split; [|split]]].
  - intros H. unfold Ics.dateLines. now rewrite H.
  - intros H. unfold Ics.dateLines. now rewrite H.
  - intros i. unfold Ics.eventLines.
    eexists. eexists. reflexivity.
  - intros tz t Hz Ht Hb.
    destruct (nullish (Ics.end_ e) (Ics.start e)) as [v]. simpl in Ht. subst v.
    now apply (addDays_one _ tz).
  - intros t Ht. unfold addMinutes, getTime. rewrite Ht. reflexivity.
Qed.

Lemma ics_date_encoding_witness :
  Ics.dateLines Env.sampleRuntime Env.backwardsEvent =
  [u "DTSTART;VALUE=DATE:20251010"; u "DTEND;VALUE=DATE:20251006"]
  /\ Ics.dateLines Env.sampleRuntime Env.timedEvent =
     [u "DTSTART:20251231T233000"; u "DTEND:20260101T003000"]
  /\ addDays (LocalTZA Env.sampleRuntime) (Env.at_ 2025 10 5 0 0) 1
     = Env.at_ 2025 10 6 0 0.
Proof.
  destruct (ics_date_encoding Env.sampleRuntime Env.backwardsEvent)
    as (H1 & _ & _ & H4 & _).
  destruct (ics_date_encoding Env.sampleRuntime Env.timedEvent)
    as (_ & H2 & _).
  split; [|split].
  - rewrite (H1 eq_refl). vm_compute. reflexivity.
  - rewrite (H2 eq_refl). vm_compute. reflexivity.
  - apply (H4 0 1759622400000).
    + intros x b. reflexivity.
    + reflexivity.
    + vm_compute. discriminate.
Defined.

(** C8 as stated fails for an all-day event whose end lies before its start:
    the end written is the day after the event's end, not the day after the
    later of the two. *)
Lemma ics_date_encoding_counterexample :
  ~ (forall rt e s t,
       Ics.allDay e = true ->
       Ics.start e = mkDate (Some s) ->
       Ics.end_ e = Some (mkDate (Some t)) ->
       nth 1 (Ics.dateLines rt e) [] =
       u "DTEND;VALUE=DATE:"
       ++ Ics.fmtDate rt (addDays (LocalTZA rt) (mkDate (Some (Z.max s t))) 1)).
Proof.
  intros H.
  specialize (H Env.sampleRuntime Env.backwardsEvent 1760054400000 1759622400000
                eq_refl eq_refl eq_refl).
  vm_compute in H. discriminate H.
Qed.

(** * Further properties of the code *)

(** ** [esc] *)

Lemma replaceAll_app c by_ a b :
  Ics.replaceAll c by_ (a ++ b) = Ics.replaceAll c by_ a ++ Ics.replaceAll c by_ b.
Proof. unfold Ics.replaceAll. apply flat_map_app. Qed.

Lemma esc_app a b : Ics.esc (a ++ b) = Ics.esc a ++ Ics.esc b.
Proof. unfold Ics.esc. now rewrite !replaceAll_app. Qed.

Lemma esc_char c :
  Ics.esc [c] =
  if (c =? 92)%N then [92; 92]%N
  else if (c =? 10)%N then [92; 110]%N
  else if (c =? 44)%N then [92; 44]%N
  else if (c =? 59)%N then [92; 59]%N
  else [c].
Proof.
  destruct (c =? 92)%N eqn:E1; [apply N.eqb_eq in E1; subst; reflexivity|].
  destruct (c =? 10)%N eqn:E2; [apply N.eqb_eq in E2; subst; reflexivity|].
  destruct (c =? 44)%N eqn:E3; [apply N.eqb_eq in E3; subst; reflexivity|].
  destruct (c =? 59)%N eqn:E4; [apply N.eqb_eq in E4; subst; reflexivity|].
  unfold Ics.esc, Ics.replaceAll. cbn [flat_map app]. rewrite E1. cbn [flat_map app].
  rewrite E2. cbn [flat_map app]. rewrite E3. cbn [flat_map app]. rewrite E4.
  reflexivity.
Qed.

(** X1. The four global replacements of [esc] amount to one pass over the
    text: a backslash, a line feed, a comma and a semicolon each become a
    backslash followed by one character (a backslash, the letter n, the comma,
    the semicolon), every other character stays, and no backslash that an
    earlier replacement wrote is escaped again. *)
Theorem esc_single_pass s :
  Ics.esc s =
  flat_map (fun c =>
              if (c =? 92)%N then [92; 92]%N
              else if (c =? 10)%N then [92; 110]%N
              else if (c =? 44)%N then [92; 44]%N
              else if (c =? 59)%N then [92; 59]%N
              else [c]) s.
Proof.
  induction s as [|c s IH]; [reflexivity|].
  change (c :: s) with ([c] ++ s). rewrite esc_app, esc_char, IH. reflexivity.
Qed.

Lemma esc_cons_inj a b ra rb :
  Ics.esc [a] ++ ra = Ics.esc [b] ++ rb -> a = b /\ ra = rb.
Proof.
  rewrite !esc_char.
  destruct (a =? 92)%N eqn:A1; [apply N.eqb_eq in A1; subst a|apply N.eqb_neq in A1];
  [|destruct (a =? 10)%N eqn:A2; [apply N.eqb_eq in A2; subst a|apply N.eqb_neq in A2];
    [|destruct (a =? 44)%N eqn:A3; [apply N.eqb_eq in A3; subst a|apply N.eqb_neq in A3];
      [|destruct (a =? 59)%N eqn:A4; [apply N.eqb_eq in A4; subst a|apply N.eqb_neq in A4]]]];
  (destruct (b =? 92)%N eqn:B1; [apply N.eqb_eq in B1; subst b|apply N.eqb_neq in B1];
   [|destruct (b =? 10)%N eqn:B2; [apply N.eqb_eq in B2; subst b|apply N.eqb_neq in B2];
     [|destruct (b =? 44)%N eqn:B3; [apply N.eqb_eq in B3; subst b|apply N.eqb_neq in B3];
       [|destruct (b =? 59)%N eqn:B4; [apply N.eqb_eq in B4; subst b|apply N.eqb_neq in B4]]]]);
  cbn [app]; intros H; inversion H; subst; try congruence; auto.
Qed.

(** X2. [esc] loses nothing: two texts with the same escaped form are the
    same text. *)
Theorem esc_injective a : forall b, Ics.esc a = Ics.esc b -> a = b.
Proof.
  induction a as [|x a IH]; intros [|y b] H.
  - reflexivity.
  - exfalso. change (y :: b) with ([y] ++ b) in H. rewrite esc_app, esc_char in H.
    change (Ics.esc []) with (@nil N) in H.
    destruct (y =? 92)%N; [|destruct (y =? 10)%N; [|destruct (y =? 44)%N;
      [|destruct (y =? 59)%N]]]; discriminate H.
  - exfalso. change (x :: a) with ([x] ++ a) in H. rewrite esc_app, esc_char in H.
    change (Ics.esc []) with (@nil N) in H.
    destruct (x =? 92)%N; [|destruct (x =? 10)%N; [|destruct (x =? 44)%N;
      [|destruct (x =? 59)%N]]]; discriminate H.
  - change (x :: a) with ([x] ++ a) in H. change (y :: b) with ([y] ++ b) in H.
    rewrite !esc_app in H. apply esc_cons_inj in H as [-> H].
    f_equal. now apply IH.
Qed.

Lemma esc_injective_witness : u "Quiz 1, part a; b" = [81; 117; 105; 122; 32; 49; 44; 32; 112; 97; 114; 116; 32; 97; 59; 32; 98]%N.
Proof.
  apply (esc_injective (u "Quiz 1, part a; b")). vm_compute. reflexivity.
Defined.

Lemma esc_no_lf s : ~ In 10%N (Ics.esc s).
Proof.
  induction s as [|c s IH]; [intros []|].
  change (c :: s) with ([c] ++ s). rewrite esc_app, esc_char. intros H.
  apply in_app_or in H as [H | H]; [|now apply IH].
  destruct (c =? 92)%N; [|destruct (c =? 10)%N eqn:E; [|destruct (c =? 44)%N;
    [|destruct (c =? 59)%N]]];
    repeat (destruct H as [H | H]; try discriminate H); try contradiction.
  apply N.eqb_neq in E. congruence.
Qed.

(** X3. The escaped text holds no line feed, and each comma and each
    semicolon in it stands right after a backslash. *)
Theorem esc_output_safe s :
  ~ In 10%N (Ics.esc s)
  /\ forall pre post x,
       x = 44%N \/ x = 59%N ->
       Ics.esc s = pre ++ x :: post ->
       exists pre', pre = pre' ++ [92%N].
Proof.
  split; [apply esc_no_lf|].
  induction s as [|c s IH]; intros pre post x Hx H.
  - destruct pre; discriminate H.
  - change (c :: s) with ([c] ++ s) in H. rewrite esc_app, esc_char in H.
    assert (Hpair : forall y, [92; y]%N ++ Ics.esc s = pre ++ x :: post ->
                              exists pre', pre = pre' ++ [92%N]).
    { intros y Hy. destruct pre as [|p0 [|p1 pre]]; cbn [app] in Hy.
      - inversion Hy; subst. destruct Hx; discriminate.
      - inversion Hy; subst. now exists [].
      - injection Hy as E0 E1 E2. subst p0 p1.
        destruct (IH pre post x Hx E2) as (pre' & ->).
        now exists (92%N :: y :: pre'). }
    destruct (c =? 92)%N; [now apply (Hpair 92%N)|].
    destruct (c =? 10)%N; [now apply (Hpair 110%N)|].
    destruct (c =? 44)%N eqn:E3; [now apply (Hpair 44%N)|].
    destruct (c =? 59)%N eqn:E4; [now apply (Hpair 59%N)|].
    apply N.eqb_neq in E3, E4.
    destruct pre as [|p0 pre]; cbn [app] in H.
    + inversion H; subst. destruct Hx; congruence.
    + injection H as E0 E1. subst p0.
      destruct (IH pre post x Hx E1) as (pre' & ->).
      now exists (c :: pre').
Qed.

Lemma esc_output_safe_witness :
  exists pre', [97; 92]%N = pre' ++ [92%N].
Proof.
  destruct (esc_output_safe (u "a,b")) as [_ H].
  apply (H [97; 92]%N (u "b") 44%N); [now left | vm_compute; reflexivity].
Defined.
(** ** The lines of the export *)

(** The decimal digits of a number denote it. *)
Lemma digits_fuel_value f : forall n acc,
  (N.to_nat (N.log2 n) < f)%nat ->
  fold_left (fun a c => (a * 10 + (c - 48))%N) (digits_fuel f n acc) 0%N
  = fold_left (fun a c => (a * 10 + (c - 48))%N) acc n.
Proof.
  induction f as [|f IH]; intros n acc H; [lia|].
  cbn [digits_fuel]. destruct (n <? 10)%N eqn:E.
  - apply N.ltb_lt in E. cbn [fold_left]. f_equal.
    rewrite N.mod_small by lia. lia.
  - apply N.ltb_ge in E. pose proof (log2_div10 n E).
    rewrite IH by lia. cbn [fold_left]. f_equal.
    pose proof (N.div_mod n 10). assert (n mod 10 < 10)%N by (apply N.mod_upper_bound; lia).
    remember (n mod 10)%N as r. remember (n / 10)%N as q. lia.
Qed.

Lemma digits_injective a b : digits a = digits b -> a = b.
Proof.
  intros H.
  apply (f_equal (fun l => fold_left (fun a c => (a * 10 + (c - 48))%N) l 0%N)) in H.
  unfold digits in H. rewrite !digits_fuel_value in H by lia. exact H.
Qed.

(** X4. Within one export the events carry different UIDs: the UID line of
    the event at index [i] and that of the event at index [j] are equal only
    when [i = j]. *)
Theorem uid_distinct rt i j e e' :
  nth 1 (Ics.eventLines rt i e) [] = nth 1 (Ics.eventLines rt j e') [] -> i = j.
Proof.
  unfold Ics.eventLines. cbn [nth app]. intros H.
  apply app_inv_head in H. apply app_inv_head in H. apply app_inv_head in H.
  apply app_inv_tail in H.
  unfold NumberToString in H.
  replace (Z.of_nat i <? 0) with false in H by (symmetry; apply Z.ltb_ge; lia).
  replace (Z.of_nat j <? 0) with false in H by (symmetry; apply Z.ltb_ge; lia).
  apply digits_injective in H. lia.
Qed.

Lemma uid_distinct_witness :
  nth 1 (Ics.eventLines Env.sampleRuntime 3 Env.timedEvent) []
  = u "UID:1754006400000-3@syllabus.local"
  /\ 3%nat = 3%nat.
Proof.
  split; [vm_compute; reflexivity|].
  apply (uid_distinct Env.sampleRuntime 3 3 Env.timedEvent Env.backwardsEvent).
  vm_compute. reflexivity.
Defined.

Lemma jstring_eqb_head l1 l2 :
  hd 0%N l1 <> hd 0%N l2 -> jstring_eqb l1 l2 = false.
Proof.
  intros H. apply jstring_eqb_neq. intros ->. now apply H.
Qed.

Ltac head_diff := apply jstring_eqb_head; vm_compute; discriminate.

Lemma eventLines_blocks rt i e :
  length (filter (jstring_eqb (u "BEGIN:VEVENT")) (Ics.eventLines rt i e)) = 1%nat
  /\ length (filter (jstring_eqb (u "END:VEVENT")) (Ics.eventLines rt i e)) = 1%nat.
Proof.
  unfold Ics.eventLines, Ics.dateLines.
  split.
  - rewrite !filter_app, !length_app. cbn [filter].
    replace (jstring_eqb (u "BEGIN:VEVENT") (u "BEGIN:VEVENT")) with true
      by (symmetry; apply jstring_eqb_refl).
    replace (jstring_eqb (u "BEGIN:VEVENT") (u "STATUS:CONFIRMED")) with false
      by (vm_compute; reflexivity).
    replace (jstring_eqb (u "BEGIN:VEVENT") (u "END:VEVENT")) with false
      by (vm_compute; reflexivity).
    rewrite !jstring_eqb_head by (vm_compute; discriminate).
    destruct (Ics.allDay e); cbn [filter];
      rewrite !jstring_eqb_head by (vm_compute; discriminate);
      destruct (Ics.description e) as [d|]; try destruct (nonempty d); cbn [filter];
      rewrite ?jstring_eqb_head by (vm_compute; discriminate); reflexivity.
  - rewrite !filter_app, !length_app. cbn [filter].
    replace (jstring_eqb (u "END:VEVENT") (u "END:VEVENT")) with true
      by (symmetry; apply jstring_eqb_refl).
    replace (jstring_eqb (u "END:VEVENT") (u "STATUS:CONFIRMED")) with false
      by (vm_compute; reflexivity).
    replace (jstring_eqb (u "END:VEVENT") (u "BEGIN:VEVENT")) with false
      by (vm_compute; reflexivity).
    rewrite !jstring_eqb_head by (vm_compute; discriminate).
    destruct (Ics.allDay e); cbn [filter];
      rewrite !jstring_eqb_head by (vm_compute; discriminate);
      destruct (Ics.description e) as [d|]; try destruct (nonempty d); cbn [filter];
      rewrite ?jstring_eqb_head by (vm_compute; discriminate); reflexivity.
Qed.

Lemma forEach_blocks rt events : forall i,
  length (filter (jstring_eqb (u "BEGIN:VEVENT")) (Ics.forEach rt i events))
  = length events
  /\ length (filter (jstring_eqb (u "END:VEVENT")) (Ics.forEach rt i events))
     = length events.
Proof.
  induction events as [|e events IH]; intros i; [split; reflexivity|].
  cbn [Ics.forEach length]. rewrite !filter_app, !length_app.
  destruct (eventLines_blocks rt i e) as [-> ->].
  destruct (IH (S i)) as [-> ->]. split; reflexivity.
Qed.

(** X5. The export is its lines joined by CR LF; the first line opens the
    calendar, the last one closes it, and between them stand exactly as many
    [BEGIN:VEVENT] lines and as many [END:VEVENT] lines as there are events,
    whatever the titles and descriptions hold. *)
Theorem calendar_blocks rt events name :
  Ics.makeICS rt events name
  = join IcsLines.crlf (IcsLines.calendarLines rt events name)
  /\ hd [] (IcsLines.calendarLines rt events name) = u "BEGIN:VCALENDAR"
  /\ last (IcsLines.calendarLines rt events name) [] = u "END:VCALENDAR"
  /\ length (filter (jstring_eqb (u "BEGIN:VEVENT"))
               (IcsLines.calendarLines rt events name)) = length events
  /\ length (filter (jstring_eqb (u "END:VEVENT"))
               (IcsLines.calendarLines rt events name)) = length events.
Proof.
  split; [reflexivity|]. split; [reflexivity|]. split.
  - unfold IcsLines.calendarLines. rewrite app_assoc. apply last_last.
  - unfold IcsLines.calendarLines.
    rewrite !filter_app, !length_app.
    destruct (forEach_blocks rt events 0%nat) as [-> ->].
    cbn [filter].
    rewrite !(jstring_eqb_head _ (u "NAME:" ++ _)) by (vm_compute; discriminate).
    rewrite !(jstring_eqb_head _ (u "X-WR-CALNAME:" ++ _)) by (vm_compute; discriminate).
    repeat match goal with
           | |- context [jstring_eqb (u ?a) (u ?b)] =>
               let v := eval vm_compute in (jstring_eqb (u a) (u b)) in
               change (jstring_eqb (u a) (u b)) with v
           end.
    cbn [length]. split; lia.
Qed.

Lemma digits_no_lf n : ~ In 10%N (digits n).
Proof.
  unfold digits. intros H. apply digits_fuel_chars in H as [[] | H]. lia.
Qed.

Lemma NumberToString_no_lf n : ~ In 10%N (NumberToString n).
Proof.
  destruct n as [|z| |]; cbn [NumberToString];
    try (vm_compute; intros H; repeat (destruct H as [H | H]; try discriminate H);
         contradiction).
  destruct (z <? 0); [intros [H | H]; [discriminate H|]|intros H];
    now apply digits_no_lf in H.
Qed.

Lemma pad_no_lf n : ~ In 10%N (Ics.pad n).
Proof.
  unfold Ics.pad, padStart0. intros H. apply in_app_or in H as [H | H].
  - apply repeat_spec in H. discriminate H.
  - now apply NumberToString_no_lf in H.
Qed.

Lemma fmtDate_no_lf rt d : ~ In 10%N (Ics.fmtDate rt d).
Proof.
  unfold Ics.fmtDate. intros H.
  apply in_app_or in H as [H | H]; [now apply NumberToString_no_lf in H|].
  apply in_app_or in H as [H | H]; now apply pad_no_lf in H.
Qed.

Lemma fmtDateTime_no_lf rt d : ~ In 10%N (Ics.fmtDateTime rt d).
Proof.
  unfold Ics.fmtDateTime. intros H.
  apply in_app_or in H as [H | H]; [now apply fmtDate_no_lf in H|].
  apply in_app_or in H as [H | H];
    [vm_compute in H; destruct H as [H | []]; discriminate H|].
  apply in_app_or in H as [H | H]; [now apply pad_no_lf in H|].
  apply in_app_or in H as [H | H]; [now apply pad_no_lf in H|].
  vm_compute in H. repeat (destruct H as [H | H]; try discriminate H). contradiction.
Qed.

(** A line made of a literal prefix and a text without line feed. *)
Lemma prefixed_no_lf (p : string) x :
  ~ In 10%N (u p) -> ~ In 10%N x -> ~ In 10%N (u p ++ x).
Proof. intros H1 H2 H. apply in_app_or in H as [H | H]; auto. Qed.

Ltac lit_no_lf :=
  let H := fresh in
  vm_compute; intros H;
  repeat (destruct H as [H | H]; try discriminate H); contradiction.

Lemma eventLines_no_lf rt i e :
  Forall (fun l => ~ In 10%N l) (Ics.eventLines rt i e).
Proof.
  unfold Ics.eventLines, Ics.dateLines.
  repeat (apply Forall_app; split); repeat constructor.
  - lit_no_lf.
  - apply prefixed_no_lf; [lit_no_lf|]. intros H.
    apply in_app_or in H as [H | H]; [now apply NumberToString_no_lf in H|].
    apply in_app_or in H as [H | H];
      [vm_compute in H; destruct H as [H | []]; discriminate H|].
    apply in_app_or in H as [H | H]; [now apply NumberToString_no_lf in H|].
    revert H. lit_no_lf.
  - apply prefixed_no_lf; [lit_no_lf | apply esc_no_lf].
  - apply prefixed_no_lf; [lit_no_lf | apply fmtDateTime_no_lf].
  - destruct (Ics.allDay e); repeat constructor;
      (apply prefixed_no_lf;
       [lit_no_lf | first [apply fmtDate_no_lf | apply fmtDateTime_no_lf]]).
  - destruct (Ics.description e) as [d|]; [destruct (nonempty d)|];
      repeat constructor.
    apply prefixed_no_lf; [lit_no_lf | apply esc_no_lf].
  - lit_no_lf.
  - lit_no_lf.
Qed.

(** X6. No line of the export holds a line feed, whatever the calendar name,
    the titles, the descriptions and the dates are: a text can not open a
    line of its own in the calendar. *)
Theorem calendar_lines_no_lf rt events name :
  Forall (fun l => ~ In 10%N l) (IcsLines.calendarLines rt events name).
Proof.
  unfold IcsLines.calendarLines.
  apply Forall_app; split; [|apply Forall_app; split].
  - repeat constructor; try lit_no_lf;
      (apply prefixed_no_lf; [lit_no_lf | apply esc_no_lf]).
  - generalize 0%nat. induction events as [|e events IH]; intros i;
      cbn [Ics.forEach]; [constructor|].
    apply Forall_app; split; [apply eventLines_no_lf | apply IH].
  - repeat constructor. lit_no_lf.
Qed.

(** ** The date fields of the export *)

Lemma civil_day_bounds z : 1 <= snd (civil_from_days z) <= 31.
Proof.
  unfold civil_from_days. cbv zeta. cbn [snd].
  remember (z + 719468) as z' eqn:Hz.
  remember (z' / 146097) as era eqn:Hera.
  remember (z' - era * 146097) as doe eqn:Hdoe.
  assert (Hr : 0 <= doe < 146097) by (subst doe era; Z.div_mod_to_equations; lia).
  pose proof (doe_facts doe Hr) as F. cbv zeta in F.
  remember ((doe - doe / 1460 + doe / 36524 - doe / 146096) / 365) as yoe eqn:Hyoe.
  remember (doe - (365 * yoe + yoe / 4 - yoe / 100)) as doy eqn:Hdoy.
  destruct F as (_ & Fd & Fm). clear - Fd Fm.
  Z.div_mod_to_equations. lia.
Qed.

Lemma digits_small n :
  (n < 10000)%N ->
  length (digits n) =
  if (n <? 10)%N then 1%nat else if (n <? 100)%N then 2%nat
  else if (n <? 1000)%N then 3%nat else 4%nat.
Proof.
  intros H. unfold digits.
  assert (Hlog : (N.to_nat (N.log2 n) < 14)%nat).
  { destruct (N.eq_dec n 0) as [->|Hn]; [cbn; lia|].
    assert (N.log2 n < 14)%N by (apply N.log2_lt_pow2; [lia | cbn; lia]). lia. }
  rewrite (digits_fuel_enough (S (N.to_nat (N.log2 n))) 14%nat n []) by lia.
  cbn [digits_fuel].
  pose proof (N.div_mod n 10 ltac:(lia)) as D1.
  pose proof (N.mod_lt n 10 ltac:(lia)) as M1.
  pose proof (N.div_mod (n / 10) 10 ltac:(lia)) as D2.
  pose proof (N.mod_lt (n / 10) 10 ltac:(lia)) as M2.
  pose proof (N.div_mod (n / 10 / 10) 10 ltac:(lia)) as D3.
  pose proof (N.mod_lt (n / 10 / 10) 10 ltac:(lia)) as M3.
  remember (n / 10)%N as q1 eqn:E1. remember (n mod 10)%N as r1 eqn:F1.
  remember (q1 / 10)%N as q2 eqn:E2. remember (q1 mod 10)%N as r2 eqn:F2.
  remember (q2 / 10)%N as q3 eqn:E3. remember (q2 mod 10)%N as r3 eqn:F3.
  clear E1 F1 E2 F2 E3 F3 Hlog.
  destruct (N.ltb_spec n 10); [reflexivity|].
  destruct (N.ltb_spec q1 10).
  { destruct (N.ltb_spec n 100); [reflexivity | lia]. }
  destruct (N.ltb_spec n 100); [lia|].
  destruct (N.ltb_spec q2 10).
  { destruct (N.ltb_spec n 1000); [reflexivity | lia]. }
  destruct (N.ltb_spec n 1000); [lia|].
  destruct (N.ltb_spec q3 10); [reflexivity | lia].
Qed.

Lemma digits_length z :
  0 <= z < 10000 ->
  length (digits (Z.to_N z)) =
  if z <? 10 then 1%nat else if z <? 100 then 2%nat
  else if z <? 1000 then 3%nat else 4%nat.
Proof.
  intros H. rewrite (digits_small (Z.to_N z)) by lia.
  destruct (z <? 10) eqn:E1; [apply Z.ltb_lt in E1|apply Z.ltb_ge in E1].
  { replace (Z.to_N z <? 10)%N with true by (symmetry; apply N.ltb_lt; lia).
    reflexivity. }
  replace (Z.to_N z <? 10)%N with false by (symmetry; apply N.ltb_ge; lia).
  destruct (z <? 100) eqn:E2; [apply Z.ltb_lt in E2|apply Z.ltb_ge in E2].
  { replace (Z.to_N z <? 100)%N with true by (symmetry; apply N.ltb_lt; lia).
    reflexivity. }
  replace (Z.to_N z <? 100)%N with false by (symmetry; apply N.ltb_ge; lia).
  destruct (z <? 1000) eqn:E3; [apply Z.ltb_lt in E3|apply Z.ltb_ge in E3].
  { replace (Z.to_N z <? 1000)%N with true by (symmetry; apply N.ltb_lt; lia).
    reflexivity. }
  replace (Z.to_N z <? 1000)%N with false by (symmetry; apply N.ltb_ge; lia).
  reflexivity.
Qed.

Lemma digits_are_digits n : Forall (fun c => is_digit c = true) (digits n).
Proof.
  apply Forall_forall. intros x H. unfold digits in H.
  apply digits_fuel_chars in H as [[] | H].
  unfold is_digit, between. apply andb_true_iff. split; apply N.leb_le; lia.
Qed.

(** A number of one or two digits, padded: two digits. *)
Lemma pad_two z :
  0 <= z < 100 ->
  length (Ics.pad (Fin z)) = 2%nat
  /\ Forall (fun c => is_digit c = true) (Ics.pad (Fin z)).
Proof.
  intros H. unfold Ics.pad, padStart0, NumberToString.
  replace (z <? 0) with false by (symmetry; apply Z.ltb_ge; lia).
  rewrite length_app, repeat_length.
  pose proof (digits_length z) as L.
  destruct (z <? 10) eqn:E1.
  - rewrite L by lia. split; [reflexivity|].
    apply Forall_app. split; [|apply digits_are_digits].
    cbn [Nat.sub repeat]. repeat constructor.
  - apply Z.ltb_ge in E1.
    replace (z <? 100) with true in L by (symmetry; apply Z.ltb_lt; lia).
    rewrite L by lia. split; [reflexivity|].
    apply Forall_app. split; [constructor | apply digits_are_digits].
Qed.

(** X7. For a valid date whose local year has four digits, [fmtDate] is
    eight decimal digits, and [fmtDateTime] is [fmtDate], the letter T and six
    decimal digits. *)
Theorem date_fields_shape rt d t :
  DateValue d = Some t ->
  1000 <= YearFromTime (LocalTime (LocalTZA rt) t) <= 9999 ->
  length (Ics.fmtDate rt d) = 8%nat
  /\ Forall (fun c => is_digit c = true) (Ics.fmtDate rt d)
  /\ exists w, Ics.fmtDateTime rt d = Ics.fmtDate rt d ++ u "T" ++ w
               /\ length w = 6%nat
               /\ Forall (fun c => is_digit c = true) w.
Proof.
  intros Hd Hy.
  set (lt := LocalTime (LocalTZA rt) t) in *.
  assert (Hm : 0 <= MonthFromTime lt + 1 < 100).
  { unfold MonthFromTime. destruct (civil_roundtrip (Day lt)) as [_ H]. lia. }
  assert (Hday : 0 <= DateFromTime lt < 100).
  { unfold DateFromTime. pose proof (civil_day_bounds (Day lt)). lia. }
  assert (Hh : 0 <= HourFromTime lt < 100).
  { unfold HourFromTime. pose proof (Z.mod_pos_bound (lt / 3600000) 24). lia. }
  assert (Hmi : 0 <= MinFromTime lt < 100).
  { unfold MinFromTime. pose proof (Z.mod_pos_bound (lt / 60000) 60). lia. }
  destruct (pad_two _ Hm) as [Lm Dm]. destruct (pad_two _ Hday) as [Ld Dd].
  destruct (pad_two _ Hh) as [Lh Dh]. destruct (pad_two _ Hmi) as [Lmi Dmi].
  assert (Hfmt : Ics.fmtDate rt d =
                 digits (Z.to_N (YearFromTime lt))
                 ++ Ics.pad (Fin (MonthFromTime lt + 1))
                 ++ Ics.pad (Fin (DateFromTime lt))).
  { unfold Ics.fmtDate, getFullYear, getMonth, getDate, localField.
    rewrite Hd. cbn [nadd NumberToString]. fold lt.
    replace (YearFromTime lt <? 0) with false by (symmetry; apply Z.ltb_ge; lia).
    reflexivity. }
  assert (Ly : length (digits (Z.to_N (YearFromTime lt))) = 4%nat).
  { rewrite digits_length by lia.
    replace (YearFromTime lt <? 10) with false by (symmetry; apply Z.ltb_ge; lia).
    replace (YearFromTime lt <? 100) with false by (symmetry; apply Z.ltb_ge; lia).
    replace (YearFromTime lt <? 1000) with false by (symmetry; apply Z.ltb_ge; lia).
    reflexivity. }
  split; [|split].
  - rewrite Hfmt, !length_app, Ly, Lm, Ld. reflexivity.
  - rewrite Hfmt. apply Forall_app. split; [apply digits_are_digits|].
    apply Forall_app. split; assumption.
  - exists (Ics.pad (Fin (HourFromTime lt)) ++ Ics.pad (Fin (MinFromTime lt)) ++ u "00").
    split; [|split].
    + unfold Ics.fmtDateTime, getHours, getMinutes, localField. rewrite Hd.
      fold lt. reflexivity.
    + rewrite !length_app, Lh, Lmi. reflexivity.
    + apply Forall_app. split; [assumption|].
      apply Forall_app. split; [assumption|]. repeat constructor.
Qed.

Lemma date_fields_shape_witness :
  length (Ics.fmtDate Env.sampleRuntime (Env.at_ 2025 10 9 23 59)) = 8%nat
  /\ Ics.fmtDateTime Env.sampleRuntime (Env.at_ 2025 10 9 23 59) = u "20251009T235900".
Proof.
  destruct (date_fields_shape Env.sampleRuntime (Env.at_ 2025 10 9 23 59) 1760054340000)
    as (H & _).
  - reflexivity.
  - vm_compute. split; discriminate.
  - split; [exact H | vm_compute; reflexivity].
Defined.

(** ** The file-name sanitizers *)

Lemma m_unsafe_atom prev s k :
  m false (At Sanitize.unsafe_class) prev s k
  = match s with
    | c :: s' => if Sanitize.is_unsafe c then k (Some c) s' else None
    | [] => None
    end.
Proof. reflexivity. Qed.

Lemma unsafe_star fuel : forall prev s,
  (length s < fuel)%nat ->
  exists p' rest,
    rep_loop (m false (At Sanitize.unsafe_class)) (fun p' s' => Some (p', s'))
             fuel 0 None prev s = Some (p', rest)
    /\ (length rest <= length s)%nat.
Proof.
  induction fuel as [|fuel IH]; intros prev s Hf; [lia|].
  cbn [rep_loop max_is_zero]. rewrite m_unsafe_atom.
  cbn [Nat.eqb andb pred dec_max].
  destruct s as [|c s'].
  - exists prev, []. split; [reflexivity | lia].
  - cbn [length] in Hf. destruct (Sanitize.is_unsafe c).
    + replace (Nat.eqb (length s') (length (c :: s'))) with false
        by (symmetry; apply Nat.eqb_neq; cbn [length]; lia).
      destruct (IH (Some c) s') as (p' & rest & Hr & Hl); [lia|].
      rewrite Hr. exists p', rest. split; [reflexivity | cbn [length]; lia].
    + exists prev, (c :: s'). split; [reflexivity | lia].
Qed.

Lemma exec_unsafe_eq prev s :
  exec_at false Sanitize.unsafe_re prev s
  = match s with
    | c :: s' =>
        if Sanitize.is_unsafe c
        then rep_loop (m false (At Sanitize.unsafe_class)) (fun p' s' => Some (p', s'))
                      (S (length s' + 1)) 0 None (Some c) s'
        else None
    | [] => None
    end.
Proof.
  unfold exec_at, Sanitize.unsafe_re, plus.
  change (m false (Rep 1 None (At Sanitize.unsafe_class)) prev s
            (fun p' s' => Some (p', s')))
    with (rep_loop (m false (At Sanitize.unsafe_class)) (fun p' s' => Some (p', s'))
                   (S (length s + 1)) 1 None prev s).
  cbn [rep_loop max_is_zero]. rewrite m_unsafe_atom.
  cbn [Nat.eqb andb pred dec_max].
  destruct s as [|c s']; [reflexivity|].
  cbn [length Nat.add]. reflexivity.
Qed.

(** The pattern matches at a position exactly when an unsafe character
    stands there, and the match takes at least that character. *)
Lemma exec_unsafe_hit prev c s :
  Sanitize.is_unsafe c = true ->
  exists p' rest,
    exec_at false Sanitize.unsafe_re prev (c :: s) = Some (p', rest)
    /\ (length rest <= length s)%nat.
Proof.
  intros Hc. rewrite exec_unsafe_eq, Hc. apply unsafe_star. lia.
Qed.

Lemma exec_unsafe_miss prev s :
  match s with [] => True | c :: _ => Sanitize.is_unsafe c = false end ->
  exec_at false Sanitize.unsafe_re prev s = None.
Proof.
  intros Hs. rewrite exec_unsafe_eq. destruct s as [|c s']; [reflexivity|].
  now rewrite Hs.
Qed.

Lemma replace_unsafe_safe fuel : forall prev s,
  (length s < fuel)%nat ->
  Forall (fun c => Sanitize.is_unsafe c = false)
         (Sanitize.replace_all_loop fuel false Sanitize.unsafe_re (u "_") prev s).
Proof.
  induction fuel as [|fuel IH]; intros prev s Hf; [lia|].
  cbn [Sanitize.replace_all_loop].
  destruct s as [|c s'].
  - rewrite exec_unsafe_miss by exact I. constructor.
  - cbn [length] in Hf. destruct (Sanitize.is_unsafe c) eqn:Hc.
    + destruct (exec_unsafe_hit prev c s' Hc) as (p' & rest & -> & Hl).
      replace (Nat.eqb (length rest) (length (c :: s'))) with false
        by (symmetry; apply Nat.eqb_neq; cbn [length]; lia).
      apply Forall_app. split.
      * constructor; [reflexivity | constructor].
      * apply IH. lia.
    + rewrite exec_unsafe_miss by exact Hc.
      constructor; [exact Hc | apply IH; lia].
Qed.

Lemma replace_unsafe_id fuel : forall prev s,
  Forall (fun c => Sanitize.is_unsafe c = false) s ->
  Sanitize.replace_all_loop fuel false Sanitize.unsafe_re (u "_") prev s = s.
Proof.
  induction fuel as [|fuel IH]; intros prev s Hs; [reflexivity|].
  cbn [Sanitize.replace_all_loop].
  destruct Hs as [|c s' Hc Hs].
  - now rewrite exec_unsafe_miss by exact I.
  - rewrite exec_unsafe_miss by exact Hc. f_equal. now apply IH.
Qed.

(** A replacement that leaves only white space has replaced nothing. *)
Lemma replace_unsafe_spaces fuel : forall prev s,
  (length s < fuel)%nat ->
  Forall (fun c => is_space c = true)
         (Sanitize.replace_all_loop fuel false Sanitize.unsafe_re (u "_") prev s) ->
  Forall (fun c => is_space c = true) s.
Proof.
  induction fuel as [|fuel IH]; intros prev s Hf; [lia|].
  cbn [Sanitize.replace_all_loop].
  destruct s as [|c s']; [constructor|].
  cbn [length] in Hf. destruct (Sanitize.is_unsafe c) eqn:Hc.
  - destruct (exec_unsafe_hit prev c s' Hc) as (p' & rest & -> & Hl).
    destruct (Nat.eqb (length rest) (length (c :: s'))); intros H;
      inversion H as [|x l Hx Hr]; vm_compute in Hx; discriminate Hx.
  - rewrite exec_unsafe_miss by exact Hc. intros H.
    inversion H as [|x l Hx Hr]; subst.
    constructor; [exact Hx | apply (IH (Some c)); [lia | exact Hr]].
Qed.

Lemma is_unsafe_In c :
  Sanitize.is_unsafe c = true -> In c [92; 47; 58; 42; 63; 34; 60; 62; 124]%N.
Proof.
  unfold Sanitize.is_unsafe, Sanitize.unsafe_class, atom_match. intros H.
  apply existsb_exists in H as (r & Hr & H).
  assert (E : c = fst r).
  { cbn [In] in Hr.
    repeat (destruct Hr as [<- | Hr]; [
      unfold in_range, between in H; cbn [fst snd andb] in H;
      rewrite orb_false_r in H; apply andb_true_iff in H as [H1 H2];
      apply N.leb_le in H1, H2; cbn [fst]; lia |]).
    destruct Hr. }
  rewrite E. apply (in_map fst) in Hr. exact Hr.
Qed.

Lemma space_not_unsafe c : is_space c = true -> Sanitize.is_unsafe c = false.
Proof.
  intros H. destruct (Sanitize.is_unsafe c) eqn:E; [|reflexivity].
  apply is_unsafe_In in E. cbn [In] in E.
  repeat (destruct E as [<- | E]; [vm_compute in H; discriminate H|]).
  destruct E.
Qed.

Lemma trimStart_spaces s : Forall (fun c => is_space c = true) s <-> trimStart s = [].
Proof.
  induction s as [|c s IH]; cbn [trimStart]; [split; [reflexivity | constructor]|].
  destruct (is_space c) eqn:E.
  - rewrite <- IH. split; [intros H; now inversion H | intros H; now constructor].
  - split; [intros H; inversion H; congruence | discriminate].
Qed.

Lemma trim_spaces s : Forall (fun c => is_space c = true) s <-> trim s = [].
Proof.
  rewrite trimStart_spaces. unfold trim, trimEnd. split.
  - now intros ->.
  - intros H. apply (f_equal (@rev N)) in H. rewrite rev_involutive in H.
    cbn [rev] in H. apply trimStart_spaces in H.
    apply Forall_rev in H. rewrite rev_involutive in H.
    destruct (trimStart s) as [|c r] eqn:E; [reflexivity|].
    apply trimStart_head in E. inversion H; congruence.
Qed.

Lemma trim_Forall (P : N -> Prop) s : Forall P s -> Forall P (trim s).
Proof.
  assert (Hs : forall l, Forall P l -> Forall P (trimStart l)).
  { intros l Hl. destruct (trimStart_suffix l) as (p & Hp).
    rewrite Hp in Hl. now apply Forall_app in Hl as [_ Hl]. }
  intros H. unfold trim, trimEnd. apply Forall_rev, Hs, Forall_rev, Hs, H.
Qed.

Lemma sanitizeFilename_safe name :
  Forall (fun c => Sanitize.is_unsafe c = false) (Sanitize.sanitizeFilename name).
Proof.
  unfold Sanitize.sanitizeFilename, Sanitize.replace_all.
  apply trim_Forall, replace_unsafe_safe. lia.
Qed.

Lemma sanitizeFilename_fixed s :
  Forall (fun c => Sanitize.is_unsafe c = false) s ->
  Sanitize.sanitizeFilename s = trim s.
Proof.
  intros H. unfold Sanitize.sanitizeFilename, Sanitize.replace_all.
  now rewrite replace_unsafe_id.
Qed.

(** X8. The calendar route's [sanitize] yields a usable file name: it is
    never empty, holds none of the nine characters of the pattern, has no
    white space at either end, and sanitizing it again changes nothing. *)
Theorem sanitize_file_name name :
  Sanitize.sanitize name <> []
  /\ Forall (fun c => Sanitize.is_unsafe c = false) (Sanitize.sanitize name)
  /\ clean_head (Sanitize.sanitize name)
  /\ clean_head (rev (Sanitize.sanitize name))
  /\ Sanitize.sanitize (Sanitize.sanitize name) = Sanitize.sanitize name.
Proof.
  assert (Hr : Sanitize.sanitize name = u "calendar"
               \/ (Sanitize.sanitize name = Sanitize.sanitizeFilename name
                   /\ Sanitize.sanitizeFilename name <> [])).
  { unfold Sanitize.sanitize, Sanitize.sanitizeFilename. cbv zeta.
    destruct (trim _); [now left | right; split; [reflexivity | discriminate]]. }
  destruct Hr as [-> | [-> Hne]].
  - vm_compute. split; [discriminate|]. split; [|auto]. repeat constructor.
  - pose proof (sanitizeFilename_safe name) as Hsafe.
    split; [exact Hne|]. split; [exact Hsafe|].
    split; [apply trim_shape|]. split; [apply trim_shape|].
    unfold Sanitize.sanitize. cbv zeta.
    change (trim (Sanitize.replace_all false Sanitize.unsafe_re (u "_")
                    (Sanitize.sanitizeFilename name)))
      with (Sanitize.sanitizeFilename (Sanitize.sanitizeFilename name)).
    rewrite (sanitizeFilename_fixed _ Hsafe).
    unfold Sanitize.sanitizeFilename at 1 2. rewrite trim_idem.
    fold (Sanitize.sanitizeFilename name).
    destruct (Sanitize.sanitizeFilename name); [now elim Hne | reflexivity].
Qed.

(** X9. The page's [sanitizeFilename] has no fallback: its result holds none
    of the nine characters and is stable, but it is empty exactly when the
    name consists of white space only. *)
Theorem sanitizeFilename_empty_iff name :
  Forall (fun c => Sanitize.is_unsafe c = false) (Sanitize.sanitizeFilename name)
  /\ Sanitize.sanitizeFilename (Sanitize.sanitizeFilename name)
     = Sanitize.sanitizeFilename name
  /\ (Sanitize.sanitizeFilename name = [] <-> Forall (fun c => is_space c = true) name)
  /\ Sanitize.sanitize name
     = match Sanitize.sanitizeFilename name with
       | [] => u "calendar"
       | r => r
       end.
Proof.
  split; [apply sanitizeFilename_safe|]. split; [|split].
  - rewrite (sanitizeFilename_fixed _ (sanitizeFilename_safe name)).
    unfold Sanitize.sanitizeFilename. apply trim_idem.
  - split.
    + unfold Sanitize.sanitizeFilename, Sanitize.replace_all. intros H.
      apply trim_spaces in H. apply replace_unsafe_spaces in H; [exact H | lia].
    + intros H. rewrite sanitizeFilename_fixed.
      * now apply trim_spaces.
      * eapply Forall_impl; [|exact H]. intros c. apply space_not_unsafe.
  - unfold Sanitize.sanitize, Sanitize.sanitizeFilename. cbv zeta.
    now destruct (trim _).
Qed.

(** ** The calendar route *)

Lemma mapM_Ok {A B} (f : A -> completion B) : forall l ys,
  IcsRoute.mapM f l = Ok ys -> Forall2 (fun x y => f x = Ok y) l ys.
Proof.
  induction l as [|x l IH]; intros ys H; cbn [IcsRoute.mapM] in H.
  - injection H as <-. constructor.
  - destruct (f x) as [y|] eqn:Hx; cbn [bind] in H; [|discriminate].
    destruct (IcsRoute.mapM f l) as [ys'|]; cbn [bind] in H; [|discriminate].
    injection H as <-. constructor; [exact Hx | now apply IH].
Qed.

Lemma mapM_Throw {A B} (f : A -> completion B) x : forall l,
  In x l -> f x = Throw -> IcsRoute.mapM f l = Throw.
Proof.
  induction l as [|y l IH]; intros Hin Hx; [destruct Hin|].
  cbn [IcsRoute.mapM]. destruct Hin as [-> | Hin].
  - now rewrite Hx.
  - destruct (f y); cbn [bind]; [|reflexivity]. now rewrite IH.
Qed.

(** The route answers with the file, or with one of its two errors. *)
Lemma ics_POST_cases rt parseDate headerOk req :
  (IcsRoute.bodyArrayOf req = []
   /\ IcsRoute.POST rt parseDate headerOk req
      = IcsRoute.Error 400 (u "No events provided"))
  \/ (IcsRoute.bodyArrayOf req <> []
      /\ (IcsRoute.POST rt parseDate headerOk req
          = IcsRoute.Error 500 (u "Failed to build ICS")
          \/ exists normalized name events,
               IcsRoute.mapM (IcsRoute.normalize parseDate) (IcsRoute.bodyArrayOf req)
               = Ok normalized
               /\ IcsRoute.calendarNameOf req = IcsRoute.JStr name
               /\ IcsRoute.mapM IcsRoute.toEventLike normalized = Ok events
               /\ headerOk (Sanitize.sanitize name ++ u ".ics") = true
               /\ IcsRoute.POST rt parseDate headerOk req
                  = IcsRoute.File (Ics.makeICS rt events name)
                                  (Sanitize.sanitize name ++ u ".ics"))).
Proof.
  unfold IcsRoute.POST, IcsRoute.POST_try.
  destruct (IcsRoute.bodyArrayOf req) as [|e l] eqn:Hb; [left; now split|].
  right. split; [discriminate|].
  destruct (IcsRoute.mapM (IcsRoute.normalize parseDate) (e :: l))
    as [normalized|] eqn:Hn; cbn [bind]; [|now left].
  destruct (IcsRoute.calendarNameOf req) as [| | |name| |];
    cbn [IcsRoute.asString bind]; try (now left).
  destruct (IcsRoute.mapM IcsRoute.toEventLike normalized) as [events|] eqn:He;
    cbn [bind]; [|now left].
  destruct (headerOk (Sanitize.sanitize name ++ u ".ics")) eqn:Hh; [|now left].
  right. exists normalized, name, events. repeat split; assumption || reflexivity.
Qed.

(** X10. The calendar route answers 400 exactly when the request holds no
    event: the body is neither a non-empty array nor an object whose
    [events] is one.  Every other request is answered with the file or with
    status 500. *)
Theorem ics_route_400_iff rt parseDate headerOk req st msg :
  IcsRoute.POST rt parseDate headerOk req = IcsRoute.Error st msg ->
  (st = 400 <-> IcsRoute.bodyArrayOf req = [])
  /\ (st = 400 \/ st = 500)
  /\ (st = 400 -> msg = u "No events provided")
  /\ (st = 500 -> msg = u "Failed to build ICS").
Proof.
  intros H.
  destruct (ics_POST_cases rt parseDate headerOk req)
    as [[Hb Hp] | [Hb [Hp | (n & name & ev & _ & _ & _ & _ & Hp)]]];
    rewrite Hp in H; try discriminate H; injection H as <- <-.
  - split; [split; auto|]. split; [now left|]. split; [reflexivity | discriminate].
  - split; [split; [discriminate | intros E; now elim Hb]|].
    split; [now right|]. split; [discriminate | reflexivity].
Qed.

Lemma ics_route_400_iff_witness :
  (400 = 400 <-> IcsRoute.bodyArrayOf IcsExamples.noEventsRequest = [])
  /\ (400 = 400 \/ 400 = 500)
  /\ (400 = 400 -> u "No events provided" = u "No events provided")
  /\ (400 = 500 -> u "No events provided" = u "Failed to build ICS").
Proof.
  apply (ics_route_400_iff Env.sampleRuntime (fun _ => InvalidDate) (fun _ => true)).
  vm_compute. reflexivity.
Defined.

(** What [normalize] and the calls of [esc] leave of an element. *)
Lemma element_event parseDate e x ev :
  IcsRoute.normalize parseDate e = Ok x ->
  IcsRoute.toEventLike x = Ok ev ->
  e <> IcsRoute.JNull
  /\ match IcsRoute.prop e "title" with
     | None | Some IcsRoute.JNull => Ics.title ev = u "Untitled"
     | Some v => v = IcsRoute.JStr (Ics.title ev)
     end
  /\ Ics.start ev = IcsRoute.dateOf parseDate (IcsRoute.prop e "start")
  /\ Ics.allDay ev
     = match IcsRoute.prop e "allDay" with
       | Some v => IcsRoute.truthyJ v
       | None => false
       end.
Proof.
  intros Hx Hy.
  unfold IcsRoute.toEventLike in Hy.
  destruct (IcsRoute.asString (IcsRoute.ntitle x)) as [t|] eqn:Ht;
    cbn [bind] in Hy; [|discriminate]. injection Hy as <-.
  cbn [Ics.title Ics.start Ics.allDay].
  unfold IcsRoute.normalize in Hx.
  assert (Hnn : e <> IcsRoute.JNull) by (intros ->; discriminate Hx).
  split; [exact Hnn|].
  assert (Hx' : x = {| IcsRoute.ntitle :=
                         match IcsRoute.prop e "title" with
                         | None | Some IcsRoute.JNull => IcsRoute.JStr (u "Untitled")
                         | Some v => v
                         end;
                       IcsRoute.nstart := IcsRoute.dateOf parseDate (IcsRoute.prop e "start");
                       IcsRoute.nend := IcsRoute.nend x;
                       IcsRoute.nallDay :=
                         match IcsRoute.prop e "allDay" with
                         | Some v => IcsRoute.truthyJ v
                         | None => false
                         end;
                       IcsRoute.ndescription := IcsRoute.ndescription x |}).
  { destruct e; try (now elim Hnn); injection Hx as <-; reflexivity. }
  rewrite Hx' in Ht |- *. cbn [IcsRoute.ntitle IcsRoute.nstart IcsRoute.nallDay] in *.
  split; [|split; reflexivity].
  destruct (IcsRoute.prop e "title") as [[| | |s| |]|];
    cbn [IcsRoute.asString] in Ht; try discriminate Ht; injection Ht as <-;
    reflexivity.
Qed.

Lemma Forall2_compose {A B C} (P : A -> B -> Prop) (Q : B -> C -> Prop)
      (R : A -> C -> Prop) :
  (forall a b c, P a b -> Q b c -> R a c) ->
  forall l n ev, Forall2 P l n -> Forall2 Q n ev -> Forall2 R l ev.
Proof.
  intros H l n ev Hn. revert ev.
  induction Hn as [|a b l n Hab Hn IH]; intros ev Hev; inversion Hev; subst;
    constructor; eauto.
Qed.

Lemma Forall2_In_left {A B} (P : A -> B -> Prop) l l' x :
  Forall2 P l l' -> In x l -> exists y, P x y.
Proof.
  intros H. induction H as [|a b l l' Hab H IH]; intros Hin; [destruct Hin|].
  destruct Hin as [<- | Hin]; [now exists b | now apply IH].
Qed.

(** X11. A 200 answer of the calendar route carries the serialization of
    exactly one event per element of the request's array, under a calendar
    name that is a string; the file name is the sanitized calendar name with
    the extension [.ics].  Each element is then no [null], and its title is
    the string of the element, or "Untitled" when the element has no title
    or a [null] one. *)
Theorem ics_route_file rt parseDate headerOk req body filename :
  IcsRoute.POST rt parseDate headerOk req = IcsRoute.File body filename ->
  exists name events,
    IcsRoute.calendarNameOf req = IcsRoute.JStr name
    /\ filename = Sanitize.sanitize name ++ u ".ics"
    /\ body = Ics.makeICS rt events name
    /\ Forall2 (fun e ev =>
                  e <> IcsRoute.JNull
                  /\ match IcsRoute.prop e "title" with
                     | None | Some IcsRoute.JNull => Ics.title ev = u "Untitled"
                     | Some v => v = IcsRoute.JStr (Ics.title ev)
                     end
                  /\ Ics.start ev = IcsRoute.dateOf parseDate (IcsRoute.prop e "start")
                  /\ Ics.allDay ev
                     = match IcsRoute.prop e "allDay" with
                       | Some v => IcsRoute.truthyJ v
                       | None => false
                       end)
               (IcsRoute.bodyArrayOf req) events.
Proof.
  intros H.
  destruct (ics_POST_cases rt parseDate headerOk req)
    as [[Hb Hp] | [Hb [Hp | (n & name & ev & Hn & Hname & Hev & _ & Hp)]]];
    rewrite Hp in H; try discriminate H; injection H as <- <-.
  exists name, ev. split; [exact Hname|]. split; [reflexivity|].
  split; [reflexivity|].
  apply mapM_Ok in Hn. apply mapM_Ok in Hev.
  refine (Forall2_compose _ _ _ _ _ _ _ Hn Hev).
  intros a b c. apply element_event.
Qed.

Lemma ics_route_file_witness :
  exists name (events : list Ics.EventLike),
    IcsRoute.calendarNameOf IcsExamples.icsRequest = IcsRoute.JStr name
    /\ u "CS 101_ Fall.ics" = Sanitize.sanitize name ++ u ".ics"
    /\ length events = 2%nat.
Proof.
  destruct (ics_route_file Env.sampleRuntime (fun _ => InvalidDate) (fun _ => true)
              IcsExamples.icsRequest
              (match IcsRoute.POST Env.sampleRuntime (fun _ => InvalidDate)
                                   (fun _ => true) IcsExamples.icsRequest with
               | IcsRoute.File b _ => b
               | IcsRoute.Error _ _ => []
               end)
              (u "CS 101_ Fall.ics") ltac:(vm_compute; reflexivity))
    as (name & events & Hn & Hf & _ & Hall).
  exists name, events. split; [exact Hn|]. split; [exact Hf|].
  apply Forall2_length in Hall. symmetry. exact Hall.
Defined.

(** X12. The calendar route answers 500 whenever an element of the array is
    [null], or carries a title that is neither a string nor [null]: the
    first throws on the property access, the second in [esc]. *)
Theorem ics_route_bad_element rt parseDate headerOk req e :
  In e (IcsRoute.bodyArrayOf req) ->
  e = IcsRoute.JNull
  \/ (exists v, IcsRoute.prop e "title" = Some v
                /\ v <> IcsRoute.JNull /\ forall s, v <> IcsRoute.JStr s) ->
  IcsRoute.POST rt parseDate headerOk req = IcsRoute.Error 500 (u "Failed to build ICS").
Proof.
  intros Hin Hbad.
  destruct (ics_POST_cases rt parseDate headerOk req)
    as [[Hb Hp] | [Hb [Hp | (n & name & ev & Hn & _ & Hev & _ & _)]]].
  - rewrite Hb in Hin. destruct Hin.
  - exact Hp.
  - exfalso. apply mapM_Ok in Hn. apply mapM_Ok in Hev.
    pose proof (Forall2_compose _ _ _ (element_event parseDate) _ _ _ Hn Hev) as Hall.
    destruct (Forall2_In_left _ _ _ _ Hall Hin) as (ev0 & Hnn & Ht & _).
    destruct Hbad as [-> | (v & Hv & Hnull & Hstr)]; [now elim Hnn|].
    rewrite Hv in Ht. destruct v; try (now elim (Hstr _ Ht)). now elim Hnull.
Qed.

Lemma ics_route_bad_element_witness :
  IcsRoute.POST Env.sampleRuntime (fun _ => InvalidDate) (fun _ => true)
                IcsExamples.numericTitleRequest
  = IcsRoute.Error 500 (u "Failed to build ICS").
Proof.
  apply (ics_route_bad_element _ _ _ _
           (IcsRoute.JObj [(u "title", IcsRoute.JNum (Fin 5));
                           (u "start", IcsRoute.JStr (u "2025-10-09"))])).
  - vm_compute. left. reflexivity.
  - right. exists (IcsRoute.JNum (Fin 5)).
    split; [vm_compute; reflexivity|]. split; [discriminate|]. intros s. discriminate.
Defined.

(** ** The events of the parse route *)

(** The title extractor answers a trimmed text. *)
Lemma extractTitle_trim_fixed line : trim (extractTitle line) = extractTitle line.
Proof.
  unfold extractTitle. cbv zeta.
  destruct (1 <? length (split false dash_re line))%nat; [apply trim_idem|].
  destruct (nonempty (trim (stripLeading line))); apply trim_idem.
Qed.

(** X13. Every event the parse route answers has a title that is not
    empty and has no white space at either end: the title extracted from
    its source line, or "Course Event" when that is empty.  Its source line
    is one of the request's lines, trimmed and not empty, and passes the
    filter [isDatey]. *)
Theorem emitted_event_shape rt req e :
  emitted rt req e ->
  title e <> []
  /\ trim (title e) = title e
  /\ (title e = extractTitle (sourceLine e) \/ title e = u "Course Event")
  /\ sourceLine e <> []
  /\ trim (sourceLine e) = sourceLine e
  /\ isDatey (sourceLine e) = true.
Proof.
  intros He. destruct (emitted_resolved _ _ _ He) as (r & _ & Hr & Hin).
  apply resolve_inv in Hr as (_ & _ & _ & _ & _ & _ & Ht & _).
  destruct (linesOf_trimmed _ _ Hin) as [Hne Htrim].
  assert (Hd : isDatey (sourceLine e) = true).
  { unfold linesOf in Hin. now apply filter_In in Hin as [_ Hd]. }
  split; [|split; [|split; [|split; [|split]]]]; try assumption.
  - rewrite Ht. destruct (extractTitle (sourceLine e)); cbn [nonempty]; discriminate.
  - rewrite Ht. destruct (nonempty (extractTitle (sourceLine e)));
      [apply extractTitle_trim_fixed | vm_compute; reflexivity].
  - rewrite Ht. destruct (extractTitle (sourceLine e)); cbn [nonempty]; auto.
Qed.

Lemma emitted_event_shape_witness :
  title (Env.event "Midterm" "2025-10-06T13:30:00.000Z"
                   (Some "2025-10-06T15:00:00.000Z"%string) false
                   "Mon Oct 6 1:30-3:00 pm Midterm") <> []
  /\ isDatey (u "Mon Oct 6 1:30-3:00 pm Midterm") = true.
Proof.
  destruct (emitted_event_shape Env.sampleRuntime Env.sampleRequest
              (Env.event "Midterm" "2025-10-06T13:30:00.000Z"
                         (Some "2025-10-06T15:00:00.000Z"%string) false
                         "Mon Oct 6 1:30-3:00 pm Midterm"))
    as (H1 & _ & _ & _ & _ & H5).
  - eexists. split; [vm_compute; reflexivity|]. right. left. reflexivity.
  - split; [exact H1 | exact H5].
Defined.

Lemma loop_length rt refYear referenceDate dm dt lines : forall out out',
  loop rt refYear referenceDate dm dt lines out = Ok out' ->
  (length out' <= length out + length lines)%nat.
Proof.
  induction lines as [|line rest IH]; cbn [loop]; intros out out' H.
  - injection H as <-. lia.
  - destruct (processLine rt refYear referenceDate dm dt line) as [o|];
      cbn [bind] in H; [|discriminate].
    apply IH in H. cbn [length].
    destruct o; [rewrite length_app in H; cbn [length] in H|]; lia.
Qed.

Lemma Map_set_length {V} (k : jstring) (v : V) m :
  (length (Map_set k v m) <= S (length m))%nat.
Proof.
  induction m as [|[k' v'] m IH]; cbn [Map_set length]; [lia|].
  destruct (jstring_eqb k' k); cbn [length]; lia.
Qed.

Lemma Map_of_length {V} (l : list (jstring * V)) :
  (length (Map_of l) <= length l)%nat.
Proof.
  unfold Map_of.
  assert (H : forall m, (length (fold_left (fun m kv => Map_set (fst kv) (snd kv) m) l m)
                         <= length m + length l)%nat).
  { induction l as [|kv l IH]; intros m; cbn [fold_left length]; [lia|].
    specialize (IH (Map_set (fst kv) (snd kv) m)).
    pose proof (Map_set_length (fst kv) (snd kv) m). lia. }
  apply (H []).
Qed.

(** X14. The parse route always answers status 200, with at most one event
    per line that passed the filters: a line gives at most one event, and
    the de-duplication only removes events. *)
Theorem payload_bounded rt req resp :
  POST rt req = Ok resp ->
  status resp = 200
  /\ (length (payload resp) <= length (linesOf req))%nat
  /\ (truthy (text (bodyOf req)) = false -> payload resp = []).
Proof.
  unfold POST, POST_try. intros H.
  destruct (truthy (text (bodyOf req))); cbn [negb] in H.
  - destruct (resolveAll rt req) as [out|] eqn:Hall; cbn [bind] in H;
      injection H as <-; cbn [status payload emptyResponse length].
    + split; [reflexivity|]. split; [|discriminate].
      unfold resolveAll in Hall. apply loop_length in Hall. cbn [length] in Hall.
      unfold unique, Map_values. rewrite length_map.
      etransitivity; [apply Map_of_length|]. rewrite length_map. lia.
    + split; [reflexivity|]. split; [lia | discriminate].
  - injection H as <-. cbn [status payload emptyResponse length].
    split; [reflexivity|]. split; [lia | reflexivity].
Qed.

Lemma payload_bounded_witness :
  (length [Env.dupSecond] <= length (linesOf Env.dupRequest))%nat.
Proof.
  destruct (payload_bounded Env.dupRuntime Env.dupRequest
              {| status := 200; payload := [Env.dupSecond] |}) as (_ & H & _).
  - vm_compute. reflexivity.
  - exact H.
Defined.

(** ** Case folding *)

Lemma ascii_lower_cases c :
  (is_upper c = true /\ ascii_lower c = (c + 32)%N /\ (65 <= c <= 90)%N)
  \/ (is_upper c = false /\ ascii_lower c = c).
Proof.
  unfold ascii_lower. destruct (is_upper c) eqn:E; [left | right; auto].
  split; [reflexivity|]. split; [reflexivity|].
  unfold is_upper, between in E. apply andb_true_iff in E as [E1 E2].
  apply N.leb_le in E1, E2. lia.
Qed.

Lemma between_shift lo hi c :
  between lo hi c = ((lo <=? c)%N && (c <=? hi)%N).
Proof. reflexivity. Qed.

Lemma is_word_lower c : is_word (ascii_lower c) = is_word c.
Proof.
  destruct (ascii_lower_cases c) as [(_ & -> & Hc) | (_ & ->)]; [|reflexivity].
  unfold is_word, is_upper, is_lower, is_digit, between.
  repeat match goal with
         | |- context [N.leb ?a ?b] => destruct (N.leb_spec a b)
         | |- context [N.eqb ?a ?b] => destruct (N.eqb_spec a b)
         end; try reflexivity; lia.
Qed.

Lemma in_range_lower c r :
  in_range true (ascii_lower c) r = in_range true c r.
Proof.
  destruct (ascii_lower_cases c) as [(Hu & E & Hc) | (_ & ->)]; [|reflexivity].
  unfold in_range. cbn [andb].
  assert (E1 : ascii_lower (ascii_lower c) = ascii_lower c).
  { rewrite E. unfold ascii_lower, is_upper, between.
    replace ((c + 32 <=? 90)%N) with false by (symmetry; apply N.leb_gt; lia).
    now rewrite andb_false_r. }
  assert (E2 : ascii_upper (ascii_lower c) = c).
  { rewrite E. unfold ascii_upper, is_lower, between.
    replace ((97 <=? c + 32)%N) with true by (symmetry; apply N.leb_le; lia).
    replace ((c + 32 <=? 122)%N) with true by (symmetry; apply N.leb_le; lia).
    cbn [andb]. lia. }
  assert (E3 : ascii_upper c = c).
  { unfold ascii_upper, is_lower, between.
    replace ((97 <=? c)%N) with false by (symmetry; apply N.leb_gt; lia).
    reflexivity. }
  rewrite E1, E2, E3.
  destruct (between (fst r) (snd r) (ascii_lower c)),
    (between (fst r) (snd r) c); reflexivity.
Qed.

Lemma is_space_false x : (33 <= x <= 159)%N -> is_space x = false.
Proof.
  intros Hx. destruct (is_space x) eqn:E; [|reflexivity]. exfalso.
  unfold is_space in E.
  repeat (apply orb_true_iff in E as [E | E]);
    try (apply N.eqb_eq in E; lia);
    unfold between in E; apply andb_true_iff in E as [E1 E2];
    apply N.leb_le in E1, E2; lia.
Qed.

Lemma atom_match_lower a c :
  atom_match true a (ascii_lower c) = atom_match true a c.
Proof.
  destruct a as [x|rs| | |]; cbn [atom_match].
  - apply in_range_lower.
  - induction rs as [|r rs IH]; cbn [existsb]; [reflexivity|].
    now rewrite in_range_lower, IH.
  - destruct (ascii_lower_cases c) as [(_ & -> & Hc) | (_ & ->)]; [|reflexivity].
    unfold is_digit, between.
    replace ((c + 32 <=? 57)%N) with false by (symmetry; apply N.leb_gt; lia).
    replace ((c <=? 57)%N) with false by (symmetry; apply N.leb_gt; lia).
    now rewrite !andb_false_r.
  - apply is_word_lower.
  - destruct (ascii_lower_cases c) as [(_ & -> & Hc) | (_ & ->)]; [|reflexivity].
    rewrite !is_space_false by lia. reflexivity.
Qed.

Section Folding.
Local Notation lo := (map ascii_lower).
Local Notation lop := (option_map ascii_lower).
Local Notation F :=
  (option_map (fun ps : mstate => (lop (fst ps), lo (snd ps)))).

Lemma rep_loop_lower (ma : matcher) k k'
      (Hma : forall prev s k k',
          (forall p s', k' (lop p) (lo s') = F (k p s')) ->
          ma (lop prev) (lo s) k' = F (ma prev s k))
      (Hk : forall p s', k' (lop p) (lo s') = F (k p s'))
      fuel : forall mn mx prev s,
  rep_loop ma k' fuel mn mx (lop prev) (lo s) = F (rep_loop ma k fuel mn mx prev s).
Proof.
  induction fuel as [|fuel IH]; intros mn mx prev s; [reflexivity|].
  cbn [rep_loop]. destruct (max_is_zero mx); [apply Hk|].
  rewrite (Hma prev s
             (fun p' s' =>
                if Nat.eqb mn 0 && Nat.eqb (length s') (length s) then None
                else rep_loop ma k fuel (pred mn) (dec_max mx) p' s')).
  - destruct (Nat.eqb mn 0); [|reflexivity].
    destruct (ma prev s _); [reflexivity|]. apply Hk.
  - intros p s'. rewrite !length_map.
    destruct (Nat.eqb mn 0 && Nat.eqb (length s') (length s)); [reflexivity|].
    apply IH.
Qed.

(** With the [i] flag, matching the lower-cased input goes as matching the
    input. *)
Lemma m_lower r : forall prev s k k',
  (forall p s', k' (lop p) (lo s') = F (k p s')) ->
  m true r (lop prev) (lo s) k' = F (m true r prev s k).
Proof.
  induction r as [|a|a IHa b IHb|a IHa b IHb|mn mx a IHa| |];
    intros prev s k k' Hk; cbn [m].
  - apply Hk.
  - destruct s as [|c s']; [reflexivity|]. cbn [map].
    rewrite atom_match_lower. destruct (atom_match true a c); [|reflexivity].
    apply (Hk (Some c) s').
  - apply IHa. intros p s'. now apply IHb.
  - rewrite (IHa prev s k k' Hk), (IHb prev s k k' Hk).
    destruct (m true a prev s k); reflexivity.
  - rewrite length_map. apply rep_loop_lower; assumption.
  - destruct prev; [reflexivity | apply (Hk None s)].
  - assert (E1 : opt_word (lop prev) = opt_word prev).
    { destruct prev; [apply is_word_lower | reflexivity]. }
    assert (E2 : match lo s with c :: _ => is_word c | [] => false end
                 = match s with c :: _ => is_word c | [] => false end).
    { destruct s; [reflexivity | apply is_word_lower]. }
    rewrite E1, E2. destruct (xorb _ _); [apply Hk | reflexivity].
Qed.

Lemma exec_at_lower r prev s :
  exec_at true r (lop prev) (lo s) = F (exec_at true r prev s).
Proof. unfold exec_at. now apply m_lower. Qed.

Lemma search_lower r : forall s prev before,
  search true r (lop prev) (lo before) (lo s)
  = option_map (fun bs : jstring * mstate =>
                  (lo (fst bs), (lop (fst (snd bs)), lo (snd (snd bs)))))
               (search true r prev before s).
Proof.
  induction s as [|c s IH]; intros prev before; cbn [search map].
  - change (@nil N) with (lo []) at 1. rewrite exec_at_lower.
    destruct (exec_at true r prev []); reflexivity.
  - change (ascii_lower c :: lo s) with (lo (c :: s)) at 1.
    rewrite exec_at_lower.
    destruct (exec_at true r prev (c :: s)); [reflexivity|].
    apply (IH (Some c) (c :: before)).
Qed.

Lemma test_lower r s : test true r (map ascii_lower s) = test true r s.
Proof.
  unfold test.
  pose proof (search_lower r s None []) as H. cbn [option_map map] in H.
  rewrite H. destruct (search true r None [] s); reflexivity.
Qed.
End Folding.

(** On a text without U+0130 and U+212A, lower-casing is the folding of the
    ASCII capitals. *)
Lemma toLowerCase_plain s :
  Forall (fun c => c <> 304%N /\ c <> 8490%N) s ->
  toLowerCase s = map ascii_lower s.
Proof.
  induction 1 as [|c s [H1 H2] _ IH]; [reflexivity|].
  unfold toLowerCase in *. cbn [flat_map map]. rewrite IH.
  unfold lower_unit.
  apply N.eqb_neq in H1, H2. rewrite H1, H2. reflexivity.
Qed.

(** X15. On a line that holds neither U+0130 nor U+212A (any ASCII line,
    for one), the line filter does not drop a deadline: when the resolver's
    deadline test succeeds on the line, the line passes [isDatey], whatever the
    case of its letters.  With U+212A it can: in "Essay due" followed by
    the Kelvin sign, the deadline test finds the word "due", and [isDatey],
    which looks at the lower-cased line, reads "duek" and finds nothing. *)
Theorem deadline_lines_kept :
  (forall line,
     Forall (fun c => c <> 304%N /\ c <> 8490%N) line ->
     isDeadline line = true -> isDatey line = true)
  /\ isDeadline (u "Essay due" ++ [8490%N] ++ u " tomorrow") = true
  /\ isDatey (u "Essay due" ++ [8490%N] ++ u " tomorrow") = false.
Proof.
  split; [|split; vm_compute; reflexivity].
  intros line Hp. unfold isDeadline, isDatey. cbv zeta. intros H.
  rewrite (toLowerCase_plain line Hp), (test_lower due_re line), H.
  rewrite !orb_true_r. reflexivity.
Qed.

Lemma deadline_lines_kept_witness : isDatey (u "Essay DUE Friday") = true.
Proof.
  destruct deadline_lines_kept as [H _]. apply H.
  - repeat (constructor; [split; discriminate|]). constructor.
  - vm_compute. reflexivity.
Defined.

(** ** Texts that differ outside ASCII only *)

Lemma outside_not_word c : (128 <= c)%N -> is_word c = false.
Proof.
  intros H. unfold is_word, is_upper, is_lower, is_digit, between.
  replace (c <=? 90)%N with false by (symmetry; apply N.leb_gt; lia).
  replace (c <=? 122)%N with false by (symmetry; apply N.leb_gt; lia).
  replace (c <=? 57)%N with false by (symmetry; apply N.leb_gt; lia).
  replace (c =? 95)%N with false by (symmetry; apply N.eqb_neq; lia).
  now rewrite !andb_false_r.
Qed.

Lemma outside_not_digit c : (128 <= c)%N -> is_digit c = false.
Proof.
  intros H. unfold is_digit, between.
  replace (c <=? 57)%N with false by (symmetry; apply N.leb_gt; lia).
  now rewrite andb_false_r.
Qed.

Lemma outside_fold c : (128 <= c)%N -> ascii_lower c = c /\ ascii_upper c = c.
Proof.
  intros H. unfold ascii_lower, ascii_upper, is_upper, is_lower, between.
  replace (c <=? 90)%N with false by (symmetry; apply N.leb_gt; lia).
  replace (c <=? 122)%N with false by (symmetry; apply N.leb_gt; lia).
  now rewrite !andb_false_r.
Qed.

Lemma in_range_outside ic c r :
  (128 <= c)%N -> (snd r <? 128)%N = true -> in_range ic c r = false.
Proof.
  intros H Hr. apply N.ltb_lt in Hr. unfold in_range.
  destruct (outside_fold c H) as [-> ->]. unfold between.
  replace (c <=? snd r)%N with false by (symmetry; apply N.leb_gt; lia).
  rewrite andb_false_r. now destruct ic.
Qed.

Lemma alike_word x y : CaseBlind.alike x y -> is_word x = is_word y.
Proof.
  intros [-> | (Hx & _ & Hy & _)]; [reflexivity|].
  now rewrite !outside_not_word.
Qed.

Lemma alike_atom ic a x y :
  CaseBlind.ascii_atom a = true -> CaseBlind.alike x y ->
  atom_match ic a x = atom_match ic a y.
Proof.
  intros Ha [-> | (Hx & Sx & Hy & Sy)]; [reflexivity|].
  destruct a as [c|rs| | |]; cbn [atom_match CaseBlind.ascii_atom] in *.
  - now rewrite !in_range_outside.
  - induction rs as [|r rs IH]; [reflexivity|].
    cbn [forallb existsb] in *. apply andb_true_iff in Ha as [Hr Hrs].
    rewrite !in_range_outside by assumption. now apply IH.
  - now rewrite !outside_not_digit.
  - now rewrite !outside_not_word.
  - now rewrite Sx, Sy.
Qed.

Section Blind.
Variable ic : bool.
Local Notation sh :=
  (fun o : option mstate => match o with Some _ => true | None => false end).
Local Notation kont k k' :=
  (forall p p' t t', CaseBlind.alike_prev p p' -> Forall2 CaseBlind.alike t t' ->
                     sh (k p t) = sh (k' p' t')).

Lemma rep_loop_blind (ma : matcher)
      (Hma : forall prev prev' s s' k k',
          CaseBlind.alike_prev prev prev' -> Forall2 CaseBlind.alike s s' ->
          kont k k' -> sh (ma prev s k) = sh (ma prev' s' k'))
      k k' (Hk : kont k k') fuel :
  forall mn mx prev prev' s s',
    CaseBlind.alike_prev prev prev' -> Forall2 CaseBlind.alike s s' ->
    sh (rep_loop ma k fuel mn mx prev s) = sh (rep_loop ma k' fuel mn mx prev' s').
Proof.
  induction fuel as [|fuel IH]; intros mn mx prev prev' s s' Hp Hs; [reflexivity|].
  cbn [rep_loop]. destruct (max_is_zero mx); [now apply Hk|].
  pose proof (Forall2_length Hs) as Hlen.
  assert (Hmore :
            sh (ma prev s
                   (fun p1 s1 =>
                      if Nat.eqb mn 0 && Nat.eqb (length s1) (length s) then None
                      else rep_loop ma k fuel (pred mn) (dec_max mx) p1 s1))
            = sh (ma prev' s'
                     (fun p1 s1 =>
                        if Nat.eqb mn 0 && Nat.eqb (length s1) (length s') then None
                        else rep_loop ma k' fuel (pred mn) (dec_max mx) p1 s1))).
  { apply Hma; [exact Hp | exact Hs|].
    intros p p' t t' Hp' Ht. rewrite <- Hlen, <- (Forall2_length Ht).
    destruct (Nat.eqb mn 0 && Nat.eqb (length t) (length s)); [reflexivity|].
    now apply IH. }
  destruct (Nat.eqb mn 0); [|exact Hmore].
  destruct (ma prev s _), (ma prev' s' _); try reflexivity; try discriminate Hmore.
  now apply Hk.
Qed.

(** A pattern with ASCII literals matches alike texts alike. *)
Lemma m_blind r :
  CaseBlind.ascii_re r = true ->
  forall prev prev' s s' k k',
    CaseBlind.alike_prev prev prev' -> Forall2 CaseBlind.alike s s' ->
    kont k k' -> sh (m ic r prev s k) = sh (m ic r prev' s' k').
Proof.
  induction r as [|a|a IHa b IHb|a IHa b IHb|mn mx a IHa| |];
    intros Hr prev prev' s s' k k' Hp Hs Hk; cbn [m CaseBlind.ascii_re] in *.
  - now apply Hk.
  - destruct Hs as [|c c' s s' Hc Hs]; [reflexivity|].
    rewrite (alike_atom ic a c c' Hr Hc).
    destruct (atom_match ic a c'); [|reflexivity].
    apply Hk; [exact Hc | exact Hs].
  - apply andb_true_iff in Hr as [Ha Hb].
    apply IHa; [exact Ha | exact Hp | exact Hs|].
    intros p p' t t' Hp' Ht. now apply IHb.
  - apply andb_true_iff in Hr as [Ha Hb].
    pose proof (IHa Ha prev prev' s s' k k' Hp Hs Hk) as H1.
    pose proof (IHb Hb prev prev' s s' k k' Hp Hs Hk) as H2.
    destruct (m ic a prev s k), (m ic a prev' s' k');
      try reflexivity; try discriminate H1. exact H2.
  - rewrite <- (Forall2_length Hs).
    apply rep_loop_blind; try assumption. intros; now apply IHa.
  - destruct prev, prev'; cbn [CaseBlind.alike_prev] in Hp; try contradiction;
      [reflexivity|]. now apply Hk.
  - assert (E1 : opt_word prev = opt_word prev').
    { destruct prev, prev'; cbn [CaseBlind.alike_prev] in Hp; try contradiction;
        [now apply alike_word | reflexivity]. }
    assert (E2 : match s with c :: _ => is_word c | [] => false end
                 = match s' with c :: _ => is_word c | [] => false end).
    { destruct Hs; [reflexivity | now apply alike_word]. }
    rewrite E1, E2. destruct (xorb _ _); [now apply Hk | reflexivity].
Qed.

Lemma search_blind r :
  CaseBlind.ascii_re r = true ->
  forall s s', Forall2 CaseBlind.alike s s' ->
  forall prev prev' before before',
    CaseBlind.alike_prev prev prev' ->
    match search ic r prev before s, search ic r prev' before' s' with
    | Some _, Some _ | None, None => True
    | _, _ => False
    end.
Proof.
  intros Hr s s' Hs.
  assert (Hx : forall prev prev' t t',
             CaseBlind.alike_prev prev prev' -> Forall2 CaseBlind.alike t t' ->
             sh (exec_at ic r prev t) = sh (exec_at ic r prev' t')).
  { intros prev prev' t t' Hp Ht. unfold exec_at.
    now apply m_blind. }
  induction Hs as [|c c' s s' Hc Hs IH]; intros prev prev' before before' Hp;
    cbn [search].
  - pose proof (Hx prev prev' [] [] Hp (Forall2_nil _)) as H.
    destruct (exec_at ic r prev []), (exec_at ic r prev' []);
      try discriminate H; exact I.
  - pose proof (Hx prev prev' (c :: s) (c' :: s') Hp (Forall2_cons _ _ Hc Hs)) as H.
    destruct (exec_at ic r prev (c :: s)), (exec_at ic r prev' (c' :: s'));
      try discriminate H; [exact I|].
    apply IH. exact Hc.
Qed.

Lemma test_blind r s s' :
  CaseBlind.ascii_re r = true -> Forall2 CaseBlind.alike s s' ->
  test ic r s = test ic r s'.
Proof.
  intros Hr Hs. unfold test.
  pose proof (search_blind r Hr s s' Hs None None [] [] I) as H.
  destruct (search ic r None [] s), (search ic r None [] s');
    try contradiction; reflexivity.
Qed.
End Blind.

Lemma startsWith_blind h : forall s s',
  Forall (fun c => (c < 128)%N) h -> Forall2 CaseBlind.alike s s' ->
  startsWith h s = startsWith h s'.
Proof.
  induction h as [|x h IH]; intros s s' Hh Hs; [reflexivity|].
  inversion Hh as [|? ? Hx Hh']; subst.
  destruct Hs as [|c c' s s' Hc Hs]; [reflexivity|]. cbn [startsWith].
  rewrite (IH s s' Hh' Hs).
  destruct Hc as [-> | (Hc & _ & Hc' & _)]; [reflexivity|].
  replace (x =? c)%N with false by (symmetry; apply N.eqb_neq; lia).
  replace (x =? c')%N with false by (symmetry; apply N.eqb_neq; lia).
  reflexivity.
Qed.

Lemma includes_blind h s s' :
  Forall (fun c => (c < 128)%N) h -> Forall2 CaseBlind.alike s s' ->
  includes s h = includes s' h.
Proof.
  intros Hh Hs. induction Hs as [|c c' s s' Hc Hs IH]; [reflexivity|].
  cbn [includes].
  rewrite (startsWith_blind h (c :: s) (c' :: s') Hh (Forall2_cons _ _ Hc Hs)), IH.
  reflexivity.
Qed.

Lemma HINTS_ascii : Forall (Forall (fun c => (c < 128)%N)) HINTS.
Proof.
  assert (H : forallb (forallb (fun c => (c <? 128)%N)) HINTS = true)
    by (vm_compute; reflexivity).
  rewrite forallb_forall in H. apply Forall_forall. intros h Hh.
  specialize (H h Hh). rewrite forallb_forall in H.
  apply Forall_forall. intros c Hc. apply N.ltb_lt. now apply H.
Qed.

Lemma Forall2_alike_refl l : Forall2 CaseBlind.alike l l.
Proof. induction l; constructor; [now left | assumption]. Qed.

(** X20. [isDatey] looks at the lower-cased line through patterns and hints
    that are ASCII: two lines whose lower-cased texts are alike, code unit by
    code unit, get the same answer.  So the answer does not depend on how the
    code units outside ASCII other than U+0130 and U+212A are lower-cased:
    for the really lower-cased text [b] of a line [a] (on which
    lower-casing changes nothing), [isDatey a = isDatey b]. *)
Theorem isDatey_case_blind a b :
  Forall2 CaseBlind.alike (toLowerCase a) (toLowerCase b) ->
  isDatey a = isDatey b.
Proof.
  intros H. unfold isDatey. cbv zeta.
  rewrite !(test_blind _ _ (toLowerCase a) (toLowerCase b)) by (reflexivity || exact H).
  f_equal. f_equal.
  induction HINTS_ascii as [|h hs Hh _ IH]; [reflexivity|].
  cbn [existsb]. now rewrite (includes_blind h _ _ Hh H), IH.
Qed.

Lemma isDatey_case_blind_witness :
  isDatey ([201%N] ++ u "TUDE DUE 5 OCT") = isDatey ([233%N] ++ u "tude due 5 oct").
Proof.
  apply isDatey_case_blind.
  replace (toLowerCase ([201%N] ++ u "TUDE DUE 5 OCT"))
    with (201%N :: u "tude due 5 oct") by (vm_compute; reflexivity).
  replace (toLowerCase ([233%N] ++ u "tude due 5 oct"))
    with (233%N :: u "tude due 5 oct") by (vm_compute; reflexivity).
  constructor.
  - right. split; [lia|]. split; [vm_compute; reflexivity|].
    split; [lia | vm_compute; reflexivity].
  - apply Forall2_alike_refl.
Defined.

(** ** The fallback year *)

(** The day number in closed form. *)
Lemma days_from_civil_closed y m d :
  days_from_civil y m d
  = (let y' := if m <=? 2 then y - 1 else y in
     365 * y' + y' / 4 - y' / 100 + y' / 400
     + (153 * (if 2 <? m then m - 3 else m + 9) + 2) / 5 + d - 1 - 719468).
Proof.
  unfold days_from_civil. cbv zeta.
  remember (if m <=? 2 then y - 1 else y) as y' eqn:Hy. clear Hy.
  remember ((153 * (if 2 <? m then m - 3 else m + 9) + 2) / 5) as doy eqn:Hd.
  clear Hd. Z.div_mod_to_equations. lia.
Qed.

Lemma month_offset m :
  1 <= m <= 12 ->
  (m <= 2 -> 306 <= (153 * (if 2 <? m then m - 3 else m + 9) + 2) / 5 <= 337)
  /\ (2 < m -> 0 <= (153 * (if 2 <? m then m - 3 else m + 9) + 2) / 5 <= 275).
Proof.
  intros H. destruct (2 <? m) eqn:E;
    [apply Z.ltb_lt in E | apply Z.ltb_ge in E];
    split; intros H'; try lia; Z.div_mod_to_equations; lia.
Qed.

(** The days of the year [y] lie between its first of January and the
    next one, also for a day of the month beyond the month's end. *)
Lemma days_in_year y m d :
  1 <= m <= 12 -> 1 <= d <= 31 ->
  days_from_civil y 1 1 <= days_from_civil y m d < days_from_civil (y + 1) 1 1.
Proof.
  intros Hm Hd. rewrite !days_from_civil_closed. cbv zeta.
  change (1 <=? 2) with true. change (2 <? 1) with false. cbv iota.
  change ((153 * (1 + 9) + 2) / 5) with 306.
  destruct (month_offset m Hm) as [H1 H2].
  remember ((153 * (if 2 <? m then m - 3 else m + 9) + 2) / 5) as off eqn:Ho.
  clear Ho.
  replace (y + 1 - 1) with y by lia.
  destruct (m <=? 2) eqn:E; [apply Z.leb_le in E | apply Z.leb_gt in E].
  - specialize (H1 E). Z.div_mod_to_equations. lia.
  - specialize (H2 E). Z.div_mod_to_equations. lia.
Qed.

Lemma new_year_mono a b :
  a <= b -> days_from_civil a 1 1 <= days_from_civil b 1 1.
Proof.
  intros H. rewrite !days_from_civil_closed. cbv zeta.
  change (1 <=? 2) with true. change (2 <? 1) with false. cbv iota.
  Z.div_mod_to_equations. lia.
Qed.

(** The year of a civil date is the year of its day number. *)
Lemma year_of_days y m d :
  1 <= m <= 12 -> 1 <= d <= 31 ->
  fst (fst (civil_from_days (days_from_civil y m d))) = y.
Proof.
  intros Hm Hd.
  destruct (civil_roundtrip (days_from_civil y m d)) as [Hrt HM].
  pose proof (civil_day_bounds (days_from_civil y m d)) as HD.
  remember (civil_from_days (days_from_civil y m d)) as c eqn:Hc.
  destruct c as [[Y M] D]. cbn [fst snd] in *.
  pose proof (days_in_year y m d Hm Hd) as W1.
  pose proof (days_in_year Y M D HM HD) as W2.
  destruct (Z.lt_trichotomy Y y) as [Hlt | [Heq | Hgt]]; [|exact Heq|].
  - pose proof (new_year_mono (Y + 1) y ltac:(lia)). lia.
  - pose proof (new_year_mono (y + 1) Y ltac:(lia)). lia.
Qed.

Lemma Day_MakeDate day tm : 0 <= tm < msPerDay -> Day (MakeDate day tm) = day.
Proof.
  intros H. unfold Day, MakeDate.
  rewrite Z.div_add_l by (unfold msPerDay; lia).
  rewrite (Z.div_small tm msPerDay H). lia.
Qed.

Lemma TimeWithinDay_range t : 0 <= TimeWithinDay t < msPerDay.
Proof. unfold TimeWithinDay. apply Z.mod_pos_bound. unfold msPerDay. lia. Qed.

(** [MakeDay] on the month and the day of the month of a date falls in the
    given year. *)
Lemma year_of_MakeDay yr lt :
  fst (fst (civil_from_days (MakeDay yr (MonthFromTime lt) (DateFromTime lt)))) = yr.
Proof.
  unfold MakeDay, MonthFromTime, DateFromTime.
  destruct (civil_roundtrip (Day lt)) as [_ HM].
  pose proof (civil_day_bounds (Day lt)) as HD.
  remember (snd (fst (civil_from_days (Day lt)))) as M eqn:EM. clear EM.
  remember (snd (civil_from_days (Day lt))) as D eqn:ED. clear ED.
  replace ((M - 1) / 12) with 0 by (symmetry; apply Z.div_small; lia).
  replace ((M - 1) mod 12 + 1) with M by (rewrite Z.mod_small; lia).
  replace (yr + 0) with yr by lia.
  replace (days_from_civil yr M 1 + D - 1) with (days_from_civil yr M D)
    by (unfold days_from_civil; lia).
  now apply year_of_days.
Qed.

Lemma TimeClip_Some y t : TimeClip y = Some t -> t = y.
Proof. unfold TimeClip. destruct (Z.abs y <=? _); congruence. Qed.

Lemma setFullYear_value (tza : Z -> bool -> Z) d yr :
  DateValue (setFullYear tza d yr)
  = TimeClip (UTC tza (MakeDate
       (MakeDay yr
          (MonthFromTime (match DateValue d with Some t => LocalTime tza t | None => 0 end))
          (DateFromTime (match DateValue d with Some t => LocalTime tza t | None => 0 end)))
       (TimeWithinDay (match DateValue d with Some t => LocalTime tza t | None => 0 end)))).
Proof. reflexivity. Qed.

Lemma year_of_local (tza : Z -> bool -> Z) tz day tm :
  (forall x b, tza x b = tz) ->
  0 <= tm < msPerDay ->
  YearFromTime (LocalTime tza (UTC tza (MakeDate day tm)))
  = fst (fst (civil_from_days day)).
Proof.
  intros Hz Htm. unfold UTC, LocalTime. rewrite !Hz.
  replace (MakeDate day tm - tz + tz) with (MakeDate day tm) by lia.
  unfold YearFromTime. now rewrite Day_MakeDate.
Qed.

(** In a zone at a fixed offset, [setFullYear] yields an instant of the
    given local year whenever its result is a valid date. *)
Lemma setFullYear_year (tza : Z -> bool -> Z) tz d yr t :
  (forall x b, tza x b = tz) ->
  DateValue (setFullYear tza d yr) = Some t ->
  YearFromTime (LocalTime tza t) = yr.
Proof.
  intros Hz H. rewrite setFullYear_value in H.
  apply TimeClip_Some in H. rewrite H.
  rewrite (year_of_local tza tz _ _ Hz (TimeWithinDay_range _)).
  apply year_of_MakeDay.
Qed.

(** X16. The fallback year is enforced: the start of an answered event
    whose extraction gave no certain year lies in the reference year of the
    request, in local time (in a zone at a fixed offset from UTC); with a
    certain year the extracted instant is kept as it is. *)
Theorem fallback_year_enforced rt req e tz :
  (forall x b, LocalTZA rt x b = tz) ->
  emitted rt req e ->
  exists r t,
    candidate rt req (sourceLine e) = Some r
    /\ toISOString (mkDate (Some t)) = Ok (start_iso e)
    /\ (isCertain (start r) year = false ->
        YearFromTime (t + tz) = refYearOf rt req)
    /\ (isCertain (start r) year = true -> date (start r) = mkDate (Some t)).
Proof.
  intros Hz He. destruct (emitted_resolved _ _ _ He) as (r & Hc & Hr & _).
  apply resolve_inv in Hr as (_ & _ & _ & Hiso & _).
  destruct (DateValue (startInstant rt (refYearOf rt req) r)) as [t|] eqn:Ht.
  - exists r, t. split; [exact Hc|]. split.
    + unfold toISOString in *. cbn [DateValue]. now rewrite Ht in Hiso.
    + unfold startInstant in Ht. split; intros Hy; rewrite Hy in Ht; cbn [negb] in Ht.
      * pose proof (setFullYear_year _ tz _ _ _ Hz Ht) as H.
        unfold LocalTime in H. now rewrite Hz in H.
      * destruct (date (start r)) as [v]. cbn [DateValue] in Ht. now rewrite Ht.
  - unfold toISOString in Hiso. rewrite Ht in Hiso. discriminate.
Qed.

Lemma fallback_year_enforced_witness :
  exists r t,
    candidate Env.sampleRuntime Env.sampleRequest (u "Oct 20 Project proposal") = Some r
    /\ toISOString (mkDate (Some t)) = Ok (u "2025-10-20T12:00:00.000Z")
    /\ (isCertain (start r) year = false -> YearFromTime (t + 0) = 2025).
Proof.
  destruct (fallback_year_enforced Env.sampleRuntime Env.sampleRequest
              (Env.event "Project proposal" "2025-10-20T12:00:00.000Z" None true
                         "Oct 20 Project proposal") 0)
    as (r & t & H1 & H2 & H3 & _).
  - reflexivity.
  - eexists. split; [vm_compute; reflexivity|]. right. right. left. reflexivity.
  - exists r, t. split; [exact H1|]. split; [exact H2 | exact H3].
Defined.

Lemma endInstant_range rt refYear dm line r re :
  end_ r = Some re ->
  endInstant rt refYear dm line r = rangeEnd rt refYear r.
Proof.
  intros Hend. unfold endInstant, hasEnd. rewrite Hend. reflexivity.
Qed.

Lemma rangeEnd_uncertain rt refYear r re :
  end_ r = Some re ->
  isCertain re year = false ->
  rangeEnd rt refYear r
  = (if isValid (setFullYear (LocalTZA rt) (date re) refYear)
     then Some (setFullYear (LocalTZA rt) (date re) refYear) else None).
Proof.
  intros Hend Hy. unfold rangeEnd. rewrite Hend, Hy. cbn [negb].
  destruct (isValid _); reflexivity.
Qed.

Lemma answered_end_shape (d : Date) (oe : option jstring) (P : Z -> Prop) :
  match (if isValid d then Some d else None) with
  | Some d' => exists s, toISOString d' = Ok s /\ oe = Some s
  | None => oe = None
  end ->
  (forall t', DateValue d = Some t' -> P t') ->
  match oe with
  | None => isValid d = false
  | Some s => exists t', DateValue d = Some t'
                         /\ toISOString (mkDate (Some t')) = Ok s /\ P t'
  end.
Proof.
  intros H HP. destruct d as [[t'|]]; cbn [isValid DateValue] in *.
  - destruct H as (s & Hs & ->). exists t'. auto.
  - now rewrite H.
Qed.

(** X19. The fallback year is enforced on the end of a range as well: when
    the extraction gave the end no certain year, the end the route answers
    lies in the reference year, in local time (in a zone at a fixed offset),
    whatever the year of the start is; when no valid date results, the event
    is answered without an end.  The end is never compared with the
    start. *)
Theorem range_end_year_enforced rt req e tz r re :
  (forall x b, LocalTZA rt x b = tz) ->
  emitted rt req e ->
  candidate rt req (sourceLine e) = Some r ->
  end_ r = Some re ->
  isCertain re year = false ->
  match end_iso e with
  | None => isValid (setFullYear (LocalTZA rt) (date re) (refYearOf rt req)) = false
  | Some s =>
      exists t', DateValue (setFullYear (LocalTZA rt) (date re) (refYearOf rt req))
                 = Some t'
                 /\ toISOString (mkDate (Some t')) = Ok s
                 /\ YearFromTime (t' + tz) = refYearOf rt req
  end.
Proof.
  intros Hz He Hc Hend Hy.
  destruct (emitted_resolved _ _ _ He) as (r' & Hc' & Hr & _).
  assert (Er : r' = r) by congruence. subst r'.
  apply resolve_inv in Hr as (_ & _ & _ & _ & Hen & _).
  rewrite (endInstant_range _ _ _ _ _ _ Hend),
    (rangeEnd_uncertain _ _ _ _ Hend Hy) in Hen.
  apply (answered_end_shape _ _ (fun t' => YearFromTime (t' + tz) = refYearOf rt req)
           Hen).
  intros t' Ht. pose proof (setFullYear_year _ tz _ _ _ Hz Ht) as H.
  unfold LocalTime in H. rewrite Hz in H. exact H.
Qed.

Lemma range_end_year_enforced_witness :
  exists t', toISOString (mkDate (Some t')) = Ok (u "2025-10-06T15:00:00.000Z")
             /\ YearFromTime (t' + 0) = 2025.
Proof.
  destruct (range_end_year_enforced Env.sampleRuntime Env.sampleRequest
              (Env.event "Midterm" "2025-10-06T13:30:00.000Z"
                         (Some "2025-10-06T15:00:00.000Z"%string) false
                         "Mon Oct 6 1:30-3:00 pm Midterm") 0
              {| start := Env.comps [month; day; weekday; hour; minute]
                                    (Env.at_ 2025 10 6 13 30);
                 end_ := Some (Env.comps [month; day; hour; minute; meridiem]
                                         (Env.at_ 2025 10 6 15 0)) |}
              (Env.comps [month; day; hour; minute; meridiem]
                         (Env.at_ 2025 10 6 15 0)))
    as (t' & _ & H2 & H3).
  - reflexivity.
  - eexists. split; [vm_compute; reflexivity|]. right. left. reflexivity.
  - vm_compute. reflexivity.
  - reflexivity.
  - reflexivity.
  - exists t'. split; [exact H2 | exact H3].
Defined.

(** ** The page: local midnight and the all-day switch *)

Lemma splitOn_cons sep s : exists p ps, Page.splitOn sep s = p :: ps.
Proof.
  induction s as [|c s (p & ps & IH)]; cbn [Page.splitOn]; [now eauto|].
  rewrite IH. destruct (N.eqb c sep); eauto.
Qed.

Lemma splitOn_nosep sep a : ~ In sep a -> Page.splitOn sep a = [a].
Proof.
  induction a as [|c a IH]; intros H; cbn [Page.splitOn]; [reflexivity|].
  rewrite IH by (intros Hin; apply H; now right).
  destruct (N.eqb_spec c sep) as [->|]; [|reflexivity].
  elim H. now left.
Qed.

Lemma splitOn_app sep a b :
  ~ In sep a -> Page.splitOn sep (a ++ sep :: b) = a :: Page.splitOn sep b.
Proof.
  induction a as [|c a IH]; intros H.
  - cbn [app Page.splitOn]. destruct (splitOn_cons sep b) as (p & ps & ->).
    now rewrite N.eqb_refl.
  - cbn [app Page.splitOn]. rewrite IH by (intros Hin; apply H; now right).
    destruct (N.eqb_spec c sep) as [->|]; [|reflexivity].
    elim H. now left.
Qed.

Lemma digit_not_hyphen (l : jstring) :
  Forall (fun c => is_digit c = true) l -> ~ In 45%N l.
Proof.
  intros H Hin. rewrite Forall_forall in H. apply H in Hin. discriminate Hin.
Qed.

Lemma page_pad_no_hyphen z : 0 <= z -> ~ In 45%N (Page.pad (Fin z)).
Proof.
  intros Hz. apply digit_not_hyphen. unfold Page.pad, padStart0, NumberToString.
  replace (z <? 0) with false by (symmetry; apply Z.ltb_ge; lia).
  apply Forall_app. split; [|apply digits_are_digits].
  apply Forall_forall. intros x Hx. apply repeat_spec in Hx. now subst x.
Qed.

(** The month and the day of the month of a date, put back under its year,
    give its day number. *)
Lemma MakeDay_same t :
  MakeDay (YearFromTime t) (MonthFromTime t) (DateFromTime t) = Day t.
Proof.
  unfold MakeDay, YearFromTime, MonthFromTime, DateFromTime.
  destruct (civil_roundtrip (Day t)) as [Hrt Hm].
  remember (civil_from_days (Day t)) as c eqn:Hc.
  destruct c as [[y m] d]. cbn [fst snd] in *.
  replace ((m - 1) / 12) with 0 by (symmetry; apply Z.div_small; lia).
  replace ((m - 1) mod 12 + 1) with m by (rewrite Z.mod_small; lia).
  replace (y + 0) with y by lia.
  rewrite <- Hrt. unfold days_from_civil. lia.
Qed.

(** The date field of a valid date, read back by [atLocalMidnight]. *)
Lemma atLocalMidnight_of_input rt tz d t fb :
  (forall x b, LocalTZA rt x b = tz) ->
  DateValue d = Some t ->
  0 <= YearFromTime (t + tz) ->
  StringToNumber rt (NumberToString (Fin (YearFromTime (t + tz))))
  = Fin (YearFromTime (t + tz)) ->
  StringToNumber rt (Page.pad (Fin (MonthFromTime (t + tz) + 1)))
  = Fin (MonthFromTime (t + tz) + 1) ->
  StringToNumber rt (Page.pad (Fin (DateFromTime (t + tz))))
  = Fin (DateFromTime (t + tz)) ->
  Page.atLocalMidnight rt (Page.toLocalDateInput rt d) fb
  = (let local := newDateYMD (LocalTZA rt) (YearFromTime (t + tz))
                             (MonthFromTime (t + tz)) (DateFromTime (t + tz)) in
     if isValid local then local else nullish fb (newDate (Fin (now rt)))).
Proof.
  intros Hz Hd Hy Ny Nm Nd.
  destruct (civil_roundtrip (Day (t + tz))) as [_ HM].
  pose proof (civil_day_bounds (Day (t + tz))) as HD.
  assert (E : Page.toLocalDateInput rt d
              = NumberToString (Fin (YearFromTime (t + tz))) ++ 45%N ::
                Page.pad (Fin (MonthFromTime (t + tz) + 1)) ++ 45%N ::
                Page.pad (Fin (DateFromTime (t + tz)))).
  { unfold Page.toLocalDateInput, getFullYear, getMonth, getDate, localField,
      LocalTime. rewrite Hd, Hz. cbn [nadd]. reflexivity. }
  unfold Page.atLocalMidnight. rewrite E. cbv zeta.
  rewrite splitOn_app.
  2:{ unfold NumberToString.
      replace (YearFromTime (t + tz) <? 0) with false
        by (symmetry; apply Z.ltb_ge; lia).
      apply digit_not_hyphen, digits_are_digits. }
  rewrite splitOn_app
    by (apply page_pad_no_hyphen; unfold MonthFromTime; lia).
  rewrite splitOn_nosep
    by (apply page_pad_no_hyphen; unfold DateFromTime; lia).
  cbn [map nth_error nullish]. rewrite Ny, Nm, Nd. cbn [nadd Page.newDateLocal].
  replace (MonthFromTime (t + tz) + 1 + -1) with (MonthFromTime (t + tz)) by lia.
  reflexivity.
Qed.

(** X17. Round trip of the page's date field, in a zone at a fixed offset
    and with a conversion that reads the three decimal fields back: for a
    valid date of local year 100 or later, [atLocalMidnight] of
    [toLocalDateInput] is the midnight that starts the date's local day (or
    the fallback when that instant is no valid time).  For a local year
    from 0 to 99 the date constructor counts the year from 1900. *)
Theorem local_midnight_round_trip rt tz d t fb :
  (forall x b, LocalTZA rt x b = tz) ->
  DateValue d = Some t ->
  0 <= YearFromTime (t + tz) ->
  StringToNumber rt (NumberToString (Fin (YearFromTime (t + tz))))
  = Fin (YearFromTime (t + tz)) ->
  StringToNumber rt (Page.pad (Fin (MonthFromTime (t + tz) + 1)))
  = Fin (MonthFromTime (t + tz) + 1) ->
  StringToNumber rt (Page.pad (Fin (DateFromTime (t + tz))))
  = Fin (DateFromTime (t + tz)) ->
  (100 <= YearFromTime (t + tz) ->
   Page.atLocalMidnight rt (Page.toLocalDateInput rt d) fb
   = (let local := mkDate (TimeClip (Day (t + tz) * msPerDay - tz)) in
      if isValid local then local else nullish fb (newDate (Fin (now rt)))))
  /\ (YearFromTime (t + tz) <= 99 ->
      Page.atLocalMidnight rt (Page.toLocalDateInput rt d) fb
      = (let local :=
           mkDate (TimeClip (MakeDay (1900 + YearFromTime (t + tz))
                                     (MonthFromTime (t + tz))
                                     (DateFromTime (t + tz)) * msPerDay - tz)) in
         if isValid local then local else nullish fb (newDate (Fin (now rt))))).
Proof.
  intros Hz Hd Hy Ny Nm Nd.
  rewrite (atLocalMidnight_of_input rt tz d t fb Hz Hd Hy Ny Nm Nd).
  unfold newDateYMD, UTC, MakeDate. cbv zeta. rewrite !Hz. split; intros H.
  - replace ((0 <=? YearFromTime (t + tz)) && (YearFromTime (t + tz) <=? 99))
      with false
      by (symmetry; apply andb_false_iff; right; apply Z.leb_gt; lia).
    rewrite MakeDay_same, Z.add_0_r. reflexivity.
  - replace ((0 <=? YearFromTime (t + tz)) && (YearFromTime (t + tz) <=? 99))
      with true
      by (symmetry; apply andb_true_iff; split; apply Z.leb_le; lia).
    rewrite Z.add_0_r. reflexivity.
Qed.

Lemma local_midnight_round_trip_witness :
  Page.atLocalMidnight PageExamples.decimalRuntime
    (Page.toLocalDateInput PageExamples.decimalRuntime (Env.at_ 2025 10 9 23 59)) None
  = Env.at_ 2025 10 9 0 0.
Proof.
  destruct (local_midnight_round_trip PageExamples.decimalRuntime 0
              (Env.at_ 2025 10 9 23 59) 1760054340000 None) as [H _].
  - reflexivity.
  - reflexivity.
  - vm_compute. discriminate.
  - vm_compute. reflexivity.
  - vm_compute. reflexivity.
  - vm_compute. reflexivity.
  - rewrite H by (vm_compute; discriminate). vm_compute. reflexivity.
Defined.

Lemma mapIdx_length patch i : forall prev from,
  length (Page.mapIdx from i patch prev) = length prev.
Proof.
  induction prev as [|e prev IH]; intros from; cbn [Page.mapIdx length];
    [reflexivity|]. now rewrite IH.
Qed.

Lemma mapIdx_nth patch i : forall prev from j,
  nth_error (Page.mapIdx from i patch prev) j
  = option_map (fun e => if Nat.eqb (from + j) i then Page.spread e patch else e)
               (nth_error prev j).
Proof.
  induction prev as [|e prev IH]; intros from j; cbn [Page.mapIdx].
  - destruct j; reflexivity.
  - destruct j as [|j]; cbn [nth_error option_map].
    + now rewrite Nat.add_0_r.
    + rewrite IH. now rewrite Nat.add_succ_r.
Qed.

(** X18. The all-day switch of a row changes that row only: the list keeps
    its length and every other row; title and source line stay.  Ticking
    sets [allDay], drops the end and moves the start to
    [atLocalMidnight(toLocalDateInput(start), start)]; unticking keeps
    start and end.  So ticking and then unticking does not restore the
    event: its end stays dropped and its start stays where ticking put
    it. *)
Theorem all_day_switch rt i checked prev e :
  nth_error prev i = Some e ->
  length (Page.onAllDayChange rt i checked prev) = length prev
  /\ (forall j, j <> i ->
        nth_error (Page.onAllDayChange rt i checked prev) j = nth_error prev j)
  /\ (exists e',
        nth_error (Page.onAllDayChange rt i checked prev) i = Some e'
        /\ Page.title e' = Page.title e
        /\ Page.sourceLine e' = Page.sourceLine e
        /\ Page.allDay e' = Some checked
        /\ Page.end_ e' = (if checked then None else Page.end_ e)
        /\ Page.start e'
           = (if checked
              then Page.atLocalMidnight rt (Page.toLocalDateInput rt (Page.start e))
                                        (Some (Page.start e))
              else Page.start e))
  /\ (exists e'',
        nth_error (Page.onAllDayChange rt i false
                     (Page.onAllDayChange rt i true prev)) i = Some e''
        /\ Page.allDay e'' = Some false
        /\ Page.end_ e'' = None
        /\ Page.start e''
           = Page.atLocalMidnight rt (Page.toLocalDateInput rt (Page.start e))
                                  (Some (Page.start e))).
Proof.
  intros He.
  assert (Hrow : forall c l x,
             nth_error l i = Some x ->
             nth_error (Page.onAllDayChange rt i c l) i
             = Some (Page.spread x (Page.allDayPatch rt c x))).
  { intros c l x Hx. unfold Page.onAllDayChange, Page.updateEvent.
    rewrite Hx, mapIdx_nth, Hx. cbn [option_map Nat.add].
    now rewrite Nat.eqb_refl. }
  split; [|split; [|split]].
  - unfold Page.onAllDayChange, Page.updateEvent. rewrite He.
    apply mapIdx_length.
  - intros j Hj. unfold Page.onAllDayChange, Page.updateEvent.
    rewrite He, mapIdx_nth. cbn [Nat.add].
    replace (Nat.eqb j i) with false by (symmetry; now apply Nat.eqb_neq).
    now destruct (nth_error prev j).
  - exists (Page.spread e (Page.allDayPatch rt checked e)).
    split; [now apply Hrow|].
    cbn [Page.spread Page.allDayPatch Page.title Page.sourceLine Page.allDay
           Page.end_ Page.start Page.ptitle Page.pstart Page.pend Page.pallDay
           nullish].
    repeat split; reflexivity.
  - eexists. split; [apply Hrow, Hrow, He|].
    cbn [Page.spread Page.allDayPatch Page.title Page.sourceLine Page.allDay
           Page.end_ Page.start Page.ptitle Page.pstart Page.pend Page.pallDay
           nullish].
    repeat split; reflexivity.
Qed.

Lemma all_day_switch_witness :
  length (Page.onAllDayChange PageExamples.decimalRuntime 0 true
            [PageExamples.quiz; PageExamples.lecture]) = 2%nat
  /\ nth_error (Page.onAllDayChange PageExamples.decimalRuntime 0 true
                  [PageExamples.quiz; PageExamples.lecture]) 1
     = Some PageExamples.lecture.
Proof.
  destruct (all_day_switch PageExamples.decimalRuntime 0 true
              [PageExamples.quiz; PageExamples.lecture] PageExamples.quiz)
    as (H1 & H2 & _).
  - reflexivity.
  - split; [exact H1|]. apply H2. discriminate.
Defined.
